(** * Category-opportunity analyzer: decision pipeline

    A shallow embedding of [main_analyzer.py] and [functions.py]: URL
    normalisation and classification, the three relevance-assessment
    adapters, the search adapter, and the per-keyword decision pipeline of
    [analyze_keywords].

    External collaborators (the HTTP search endpoint and the extraction
    service) are oracles of a [world]; every call made to them is recorded
    in a chronological call log that is threaded through the code.  Blocking
    waits ([time.sleep]) and logging have no effect on any value computed
    and are left out. *)

From Stdlib Require Import String Ascii List Bool Arith ZArith Lia.
Import ListNotations.
Open Scope list_scope.
Open Scope string_scope.

Set Warnings "-register-all".

(** ** Python values

    Provider payloads are decoded JSON, handled by the source as duck-typed
    Python objects. *)

Inductive pyval : Type :=
| PNone
| PBool (b : bool)
| PNum (z : Z)
| PStr (s : string)
| PList (l : list pyval)
| PDict (d : list (string * pyval)).

Definition pydict : Type := list (string * pyval).

Definition str_nonempty (s : string) : bool :=
  match s with EmptyString => false | String _ _ => true end.

(** Truth value of an object, as tested by [if x:]. *)
Definition truthy (v : pyval) : bool :=
  match v with
  | PNone => false
  | PBool b => b
  | PNum z => negb (Z.eqb z 0)
  | PStr s => str_nonempty s
  | PList l => match l with [] => false | _ :: _ => true end
  | PDict d => match d with [] => false | _ :: _ => true end
  end.

(** [k in d] and [d.get(k)] on a dict held as an association list. *)
Fixpoint dict_lookup (d : pydict) (k : string) : option pyval :=
  match d with
  | [] => None
  | (k', v) :: d' => if String.eqb k' k then Some v else dict_lookup d' k
  end.

Definition dict_has (d : pydict) (k : string) : bool :=
  match dict_lookup d k with Some _ => true | None => false end.

Definition dict_get (d : pydict) (k : string) : pyval :=
  match dict_lookup d k with Some v => v | None => PNone end.

(** [v == 'literal'] *)
Definition py_eq_str (v : pyval) (s : string) : bool :=
  match v with PStr s' => String.eqb s' s | _ => false end.

(** [v in [lit1; lit2; ...]] for a list of string literals. *)
Definition py_in_strs (v : pyval) (l : list string) : bool :=
  existsb (py_eq_str v) l.

(** ** String primitives *)

(** [s.startswith(p)] *)
Definition startswith (s p : string) : bool := String.prefix p s.

(** [sub in s] *)
Fixpoint contains (sub s : string) : bool :=
  String.prefix sub s ||
  match s with
  | EmptyString => false
  | String _ s' => contains sub s'
  end.

Fixpoint string_forallb (p : ascii -> bool) (s : string) : bool :=
  match s with
  | EmptyString => true
  | String c s' => p c && string_forallb p s'
  end.

Fixpoint string_map (f : ascii -> ascii) (s : string) : string :=
  match s with
  | EmptyString => EmptyString
  | String c s' => String (f c) (string_map f s')
  end.

Fixpoint string_filter (p : ascii -> bool) (s : string) : string :=
  match s with
  | EmptyString => EmptyString
  | String c s' => if p c then String c (string_filter p s') else string_filter p s'
  end.

Definition has_char (c : ascii) (s : string) : bool :=
  negb (string_forallb (fun a => negb (Ascii.eqb a c)) s).

(** [s.split(c, 1)] when [c] occurs in [s]; [None] when it does not. *)
Fixpoint split_on (c : ascii) (s : string) : option (string * string) :=
  match s with
  | EmptyString => None
  | String a s' =>
      if Ascii.eqb a c then Some (EmptyString, s')
      else match split_on c s' with
           | Some (l, r) => Some (String a l, r)
           | None => None
           end
  end.

(** ** [urllib.parse]

    A model of CPython 3.12's [urlparse] and [urlunparse], with the checks
    of a bracketed host of its later releases.  A character of a string
    stands for a code point below 256.  [None] stands for the [ValueError]
    raised on a network location with an unmatched square bracket or with
    brackets and a host that is neither an IPv6 nor an IPvFuture address.
    The check of the NFKC form of a network location is left out: no code
    point below 256 normalises to one of the characters it looks for. *)

Record ParseResult : Type := mkParse {
  p_scheme : string;
  p_netloc : string;
  p_path : string;
  p_params : string;
  p_query : string;
  p_fragment : string
}.

Definition in_range (lo hi : nat) (c : ascii) : bool :=
  let n := nat_of_ascii c in Nat.leb lo n && Nat.leb n hi.

Definition is_upper (c : ascii) : bool := in_range 65 90 c.
Definition is_lower (c : ascii) : bool := in_range 97 122 c.
Definition is_alpha (c : ascii) : bool := is_upper c || is_lower c.
Definition is_digit (c : ascii) : bool := in_range 48 57 c.

Definition is_scheme_char (c : ascii) : bool :=
  is_alpha c || is_digit c
  || Ascii.eqb c "+" || Ascii.eqb c "-" || Ascii.eqb c ".".

Definition to_lower (c : ascii) : ascii :=
  if is_upper c then ascii_of_nat (nat_of_ascii c + 32) else c.

Definition is_c0_or_space (c : ascii) : bool := Nat.leb (nat_of_ascii c) 32.

Definition is_unsafe (c : ascii) : bool :=
  let n := nat_of_ascii c in Nat.eqb n 9 || Nat.eqb n 10 || Nat.eqb n 13.

Fixpoint lstrip_c0 (s : string) : string :=
  match s with
  | EmptyString => EmptyString
  | String c s' => if is_c0_or_space c then lstrip_c0 s' else s
  end.

Definition is_netloc_delim (c : ascii) : bool :=
  Ascii.eqb c "/" || Ascii.eqb c "?" || Ascii.eqb c "#".

(** [_splitnetloc(url, 2)] applied to the text after the leading [//]. *)
Fixpoint splitnetloc (s : string) : string * string :=
  match s with
  | EmptyString => (EmptyString, EmptyString)
  | String a s' =>
      if is_netloc_delim a then (EmptyString, s)
      else let (n, r) := splitnetloc s' in (String a n, r)
  end.

Definition split_scheme (url : string) : string * string :=
  match split_on ":" url with
  | Some (String c0 pre as sch, rest) =>
      if is_alpha c0 && string_forallb is_scheme_char sch
      then (string_map to_lower sch, rest)
      else (EmptyString, url)
  | _ => (EmptyString, url)
  end.

(** *** Bracketed hosts ([ipaddress]) *)

(** [s.split(c)] *)
Fixpoint split_all (c : ascii) (s : string) : list string :=
  match s with
  | EmptyString => [EmptyString]
  | String a s' =>
      if Ascii.eqb a c then EmptyString :: split_all c s'
      else match split_all c s' with
           | p :: ps => String a p :: ps
           | [] => [String a EmptyString]
           end
  end.

(** [s.rpartition(c)[2]]: what follows the last [c], all of [s] without one. *)
Fixpoint after_last (c : ascii) (s : string) : string :=
  match s with
  | EmptyString => EmptyString
  | String a s' =>
      if has_char c s' then after_last c s'
      else if Ascii.eqb a c then s' else s
  end.

Definition is_hex (c : ascii) : bool :=
  is_digit c || in_range 65 70 c || in_range 97 102 c.

(** [int(s, 10)] on a string of decimal digits. *)
Definition int_of_digits (s : string) : nat :=
  fold_left (fun n c => 10 * n + (nat_of_ascii c - 48)) (list_ascii_of_string s) 0.

(** [ipaddress]: [_parse_octet] returns. *)
Definition parse_octet_ok (octet_str : string) : bool :=
  if negb (str_nonempty octet_str) then false
  else if negb (string_forallb is_digit octet_str) then false
  else if Nat.ltb 3 (String.length octet_str) then false
  else if negb (String.eqb octet_str "0") && startswith octet_str "0" then false
  else Nat.leb (int_of_digits octet_str) 255.

(** [IPv4Address(s)] returns. *)
Definition ipv4_ok (s : string) : bool :=
  negb (has_char "/" s)
  && str_nonempty s
  && (let octets := split_all "." s in
      Nat.eqb (List.length octets) 4 && forallb parse_octet_ok octets).

(** [_parse_hextet] returns. *)
Definition parse_hextet_ok (hextet_str : string) : bool :=
  string_forallb is_hex hextet_str
  && Nat.leb (String.length hextet_str) 4
  && str_nonempty hextet_str.

(** The indices, from [i] on, of the empty strings of a list. *)
Fixpoint empty_at (i : nat) (parts : list string) : list nat :=
  match parts with
  | [] => []
  | p :: ps =>
      if str_nonempty p then empty_at (S i) ps else i :: empty_at (S i) ps
  end.

(** [IPv6Address._ip_int_from_string(ip_str)] returns.  The two hextets
    written in place of a well-formed IPv4 suffix are well-formed whatever
    the suffix; ["0"] stands for each. *)
Definition ipv6_parts_ok (ip_str : string) : bool :=
  if negb (str_nonempty ip_str) then false
  else
    let parts := split_all ":" ip_str in
    if Nat.ltb (List.length parts) 3 then false
    else
      let suffix := List.last parts EmptyString in
      let converted :=
        if has_char "." suffix
        then if ipv4_ok suffix
             then Some (List.removelast parts ++ ["0"; "0"])%list
             else None
        else Some parts in
      match converted with
      | None => false
      | Some parts =>
          let n := List.length parts in
          if Nat.ltb 9 n then false
          else
            let first_empty := negb (str_nonempty (List.hd EmptyString parts)) in
            let last_empty := negb (str_nonempty (List.last parts EmptyString)) in
            match filter (fun i => Nat.leb 1 i && Nat.ltb i (n - 1))
                    (empty_at 0 parts) with
            | [] =>
                Nat.eqb n 8 && negb first_empty && negb last_empty
                && forallb parse_hextet_ok parts
            | [skip_index] =>
                let parts_hi := skip_index in
                let parts_lo := n - skip_index - 1 in
                let hi := if first_empty then parts_hi - 1 else parts_hi in
                let lo := if last_empty then parts_lo - 1 else parts_lo in
                (if first_empty then Nat.eqb hi 0 else true)
                && (if last_empty then Nat.eqb lo 0 else true)
                && Nat.ltb (hi + lo) 8
                && forallb parse_hextet_ok (firstn hi parts)
                && forallb parse_hextet_ok (skipn (n - lo) parts)
            | _ :: _ :: _ => false
            end
      end.

(** [IPv6Address(s)] returns: no slash, a scope id that is neither empty
    nor holds a percent sign, and a well-formed address before it. *)
Definition ipv6_ok (s : string) : bool :=
  negb (has_char "/" s)
  && match split_on "%" s with
     | None => ipv6_parts_ok s
     | Some (addr, scope_id) =>
         str_nonempty scope_id && negb (has_char "%" scope_id)
         && ipv6_parts_ok addr
     end.

Fixpoint drop_while (p : ascii -> bool) (s : string) : string :=
  match s with
  | EmptyString => EmptyString
  | String a s' => if p a then drop_while p s' else s
  end.

(** [re.match(r"\Av[a-fA-F0-9]+\..+\Z", hostname)] for a hostname that
    starts with [v]. *)
Definition ipvfuture_ok (hostname : string) : bool :=
  match hostname with
  | String _ (String h _ as rest) =>
      is_hex h
      && match drop_while is_hex rest with
         | String "." (String _ _ as tail) => negb (has_char "010" tail)
         | _ => false
         end
  | _ => false
  end.

(** [_check_bracketed_host(hostname)] returns. *)
Definition check_bracketed_host (hostname : string) : bool :=
  if startswith hostname "v" then ipvfuture_ok hostname
  else negb (ipv4_ok hostname) && ipv6_ok hostname.

(** [_check_bracketed_netloc(netloc)] returns. *)
Definition check_bracketed_netloc (netloc : string) : bool :=
  let hostname_and_port := after_last "@" netloc in
  match split_on "[" hostname_and_port with
  | Some (before_bracket, bracketed) =>
      if str_nonempty before_bracket then false
      else
        let (hostname, port) :=
          match split_on "]" bracketed with
          | Some p => p
          | None => (bracketed, EmptyString)
          end in
        if str_nonempty port && negb (startswith port ":") then false
        else check_bracketed_host hostname
  | None =>
      let hostname :=
        match split_on ":" hostname_and_port with
        | Some (h, _) => h
        | None => hostname_and_port
        end in
      check_bracketed_host hostname
  end.

(** [urlsplit] *)
Definition urlsplit (url0 : string)
  : option (string * string * string * string * string) :=
  let url := string_filter (fun c => negb (is_unsafe c)) (lstrip_c0 url0) in
  let (scheme, url) := split_scheme url in
  let netloc_rest :=
    match url with
    | String "/" (String "/" after) => Some (splitnetloc after)
    | _ => None
    end in
  let netloc := match netloc_rest with Some (n, _) => n | None => EmptyString end in
  let url := match netloc_rest with Some (_, r) => r | None => url end in
  if (has_char "[" netloc && negb (has_char "]" netloc))
     || (has_char "]" netloc && negb (has_char "[" netloc))
  then None
  else if has_char "[" netloc && has_char "]" netloc
          && negb (check_bracketed_netloc netloc)
  then None
  else
    let (url, fragment) :=
      match split_on "#" url with Some p => p | None => (url, EmptyString) end in
    let (url, query) :=
      match split_on "?" url with Some p => p | None => (url, EmptyString) end in
    Some (scheme, netloc, url, query, fragment).

Definition uses_params : list string :=
  [""; "ftp"; "hdl"; "prospero"; "http"; "imap"; "https"; "shttp"; "rtsp";
   "rtspu"; "sip"; "sips"; "mms"; "sftp"; "tel"].

(** Splits [s] after its last [/]: the head keeps the slash.  Without a
    slash the head is empty. *)
Fixpoint last_segment (s : string) : string * string :=
  match s with
  | EmptyString => (EmptyString, EmptyString)
  | String a s' =>
      let (h, t) := last_segment s' in
      match h with
      | EmptyString =>
          if Ascii.eqb a "/" then (String a EmptyString, s') else (EmptyString, s)
      | String _ _ => (String a h, t)
      end
  end.

Definition splitparams (url : string) : string * string :=
  let (h, t) := last_segment url in
  match split_on ";" t with
  | Some (l, r) => (h ++ l, r)
  | None => (url, EmptyString)
  end.

Definition urlparse (url : string) : option ParseResult :=
  match urlsplit url with
  | None => None
  | Some (scheme, netloc, url, query, fragment) =>
      let (url, params) :=
        if existsb (String.eqb scheme) uses_params && has_char ";" url
        then splitparams url
        else (url, EmptyString) in
      Some (mkParse scheme netloc url params query fragment)
  end.

Definition uses_netloc : list string :=
  [""; "ftp"; "http"; "gopher"; "nntp"; "telnet"; "imap"; "wais"; "file";
   "mms"; "https"; "shttp"; "snews"; "prospero"; "rtsp"; "rtspu"; "rsync";
   "svn"; "svn+ssh"; "sftp"; "nfs"; "git"; "git+ssh"; "ws"; "wss"].

Definition urlunparse (p : ParseResult) : string :=
  let url := p_path p in
  let url := if str_nonempty (p_params p) then url ++ ";" ++ p_params p else url in
  let url :=
    if str_nonempty (p_netloc p)
       || (str_nonempty (p_scheme p)
           && existsb (String.eqb (p_scheme p)) uses_netloc
           && negb (startswith url "//"))
    then
      let url := if str_nonempty url && negb (startswith url "/")
                 then "/" ++ url else url in
      "//" ++ p_netloc p ++ url
    else url in
  let url := if str_nonempty (p_scheme p) then p_scheme p ++ ":" ++ url else url in
  let url := if str_nonempty (p_query p) then url ++ "?" ++ p_query p else url in
  let url := if str_nonempty (p_fragment p) then url ++ "#" ++ p_fragment p else url in
  url.

(** ** Configuration ([main_analyzer.py]) *)

Definition TARGET_SITE : string := "fatshackvintage.com.au".
Definition TARGET_SITE_URL_BASE : string := "https://www." ++ TARGET_SITE ++ "/".

Definition KNOWN_PLP_PATHS : list string :=
  ["https://www." ++ TARGET_SITE ++ "/shop-by-category/";
   "https://www." ++ TARGET_SITE ++ "/shop-all-products/";
   "https://www." ++ TARGET_SITE ++ "/shop-all/";
   "https://www." ++ TARGET_SITE ++ "/collections"].

Definition KNOWN_PDP_PATHS : list string :=
  ["https://www." ++ TARGET_SITE ++ "/products/"].

Definition KNOWN_IRRELEVANT_PATHS : list string :=
  ["https://www." ++ TARGET_SITE ++ "/articles/";
   "https://www." ++ TARGET_SITE ++ "/help/";
   "https://www." ++ TARGET_SITE ++ "/about-us/";
   "https://www." ++ TARGET_SITE ++ "/contact-us/";
   "https://www." ++ TARGET_SITE ++ "/"].

(** ** URL normalisation and classification *)

(** [clean_url]: [None] is the Python [None] returned for a non-string and
    for a URL on which [urlparse] raises. *)
Definition clean_url (url : pyval) : option string :=
  match url with
  | PStr u =>
      match urlparse u with
      | None => None
      | Some parsed =>
          let scheme := if str_nonempty (p_scheme parsed)
                        then p_scheme parsed else "https" in
          let netloc := if str_nonempty (p_netloc parsed)
                        then p_netloc parsed else TARGET_SITE in
          let path := if startswith (p_path parsed) "/"
                      then p_path parsed else "/" ++ p_path parsed in
          let path := if String.eqb path "/" then EmptyString else path in
          Some (urlunparse (mkParse scheme netloc path "" "" ""))
      end
  | _ => None
  end.

Inductive page_class : Type := KnownPLP | KnownPDP | Irrelevant | Unknown.

Definition page_class_label (c : page_class) : string :=
  match c with
  | KnownPLP => "Known PLP"
  | KnownPDP => "Known PDP"
  | Irrelevant => "Irrelevant"
  | Unknown => "Unknown"
  end.

Definition homepage : string := "https://www." ++ TARGET_SITE ++ "/".

(** The three tests nested under the first [if] of [classify_url]. *)
Definition irrelevant_inner (cleaned_url : string) : bool :=
  String.eqb cleaned_url homepage
  || existsb (fun path => startswith cleaned_url path
                          && Nat.ltb (String.length path) (String.length cleaned_url))
             (filter (fun path => negb (String.eqb path homepage))
                     KNOWN_IRRELEVANT_PATHS)
  || existsb (fun path => String.eqb cleaned_url path) KNOWN_IRRELEVANT_PATHS.

Definition is_irrelevant (cleaned_url : string) : bool :=
  existsb (startswith cleaned_url) KNOWN_IRRELEVANT_PATHS
  && irrelevant_inner cleaned_url.

Definition is_known_plp (cleaned_url : string) (known_plps_from_csv : list string)
  : bool :=
  existsb (String.eqb cleaned_url) known_plps_from_csv
  || (existsb (startswith cleaned_url) KNOWN_PLP_PATHS
      && negb (contains "/collections/" cleaned_url
               && contains "/products/" cleaned_url)).

Definition is_known_pdp (cleaned_url : string) : bool :=
  existsb (startswith cleaned_url) KNOWN_PDP_PATHS
  || contains "/products/" cleaned_url.

(** [classify_url].  Entries of the known-listing list that are [None]
    never equal a string, so the list is held as the strings it contains. *)
Definition classify_url (url : pyval) (known_plps_from_csv : list string)
  : page_class :=
  match clean_url url with
  | None => Unknown
  | Some cleaned_url =>
      if negb (str_nonempty cleaned_url) then Unknown
      else if is_irrelevant cleaned_url then Irrelevant
      else if is_known_plp cleaned_url known_plps_from_csv then KnownPLP
      else if is_known_pdp cleaned_url then KnownPDP
      else Unknown
  end.

(** ** The outside world

    The two remote services answer as functions of the calls made so far
    and of the request, which covers any deterministic replay of a run. *)

Inductive prompt_kind : Type := CategoryPrompt | ProductPrompt | CombinedPrompt.

Inductive event : Type :=
| SerpApiRequest (q : string)
| FirecrawlExtract (kind : prompt_kind) (keyword url : string).

(** What [requests.get], [raise_for_status] and [response.json] amount to. *)
Inductive http_outcome : Type :=
| HttpRequestException
| HttpBodyNotJson
| HttpJson (data : pyval).

(** What [FirecrawlApp(...).extract] amounts to. *)
Inductive fc_outcome : Type :=
| FcRaises
| FcReturns (response : pyval).

Record world : Type := mkWorld {
  SERPAPI_API_KEY : bool;
  FIRECRAWL_API_KEY : bool;
  requests_get : list event -> string -> http_outcome;
  firecrawl_extract : list event -> prompt_kind -> string -> string -> fc_outcome
}.

Definition calls : Type := list event.

(** ** [functions.py] *)

(** [_call_firecrawl_extract]; the prompt text is determined by the kind of
    assessment, the keyword and the URL. *)
Definition call_firecrawl_extract (w : world) (kind : prompt_kind)
    (keyword url : string) (log : calls) : option pyval * calls :=
  if negb (FIRECRAWL_API_KEY w) then (None, log)
  else
    let log' := (log ++ [FirecrawlExtract kind keyword url])%list in
    match firecrawl_extract w log kind keyword url with
    | FcRaises => (None, log')
    | FcReturns response =>
        let response_data :=
          match response with
          | PList (item :: _) => item
          | PDict (_ :: _) => response
          | _ => PNone
          end in
        if truthy response_data then
          match response_data with
          | PDict d =>
              if truthy (dict_get d "error") then (None, log')
              else
                let data := dict_get d "data" in
                if truthy data then (Some data, log') else (None, log')
          | _ => (None, log')
          end
        else (None, log')
    end.

(** [assess_category_page_relevance] *)
Definition assess_category_page_relevance (w : world) (keyword url : string)
    (log : calls) : option pydict * calls :=
  let (result, log') := call_firecrawl_extract w CategoryPrompt keyword url log in
  match result with
  | Some (PDict d) =>
      if truthy (PDict d) && dict_has d "Relevant" && dict_has d "Analysis"
      then (Some d, log') else (None, log')
  | _ => (None, log')
  end.

(** [assess_product_page_relevance] *)
Definition assess_product_page_relevance (w : world) (keyword url : string)
    (log : calls) : option pydict * calls :=
  let (result, log') := call_firecrawl_extract w ProductPrompt keyword url log in
  match result with
  | Some (PDict d) =>
      if truthy (PDict d) && dict_has d "Relevance" && dict_has d "Analysis"
      then (Some d, log') else (None, log')
  | _ => (None, log')
  end.

Definition allowed_types : list string :=
  ["PLP"; "PDP"; "Brand Page"; "Article"; "Other"].

Definition allowed_relevance : list string :=
  ["Closely Related"; "Loosely Related"; "Unrelated"; "Related"; "N/A"].

(** The validation [classify_and_assess_url] applies to the extracted data. *)
Definition validate_combined (result : option pyval) : option pydict :=
  match result with
  | Some (PDict d) =>
      if truthy (PDict d) && dict_has d "determined_type"
         && dict_has d "relevance" && dict_has d "analysis"
      then
        if py_in_strs (dict_get d "determined_type") allowed_types
           && py_in_strs (dict_get d "relevance") allowed_relevance
        then Some d else None
      else None
  | _ => None
  end.

(** [classify_and_assess_url] *)
Definition classify_and_assess_url (w : world) (keyword url : string)
    (log : calls) : option pydict * calls :=
  let (result, log') := call_firecrawl_extract w CombinedPrompt keyword url log in
  (validate_combined result, log').

(** [s.replace(old, new)] for a non-empty [old]; [skip] counts the
    characters of a match still to be dropped. *)
Fixpoint str_replace_from (old new : string) (skip : nat) (s : string) : string :=
  match s with
  | EmptyString => EmptyString
  | String c s' =>
      match skip with
      | S k => str_replace_from old new k s'
      | O =>
          if String.prefix old s
          then new ++ str_replace_from old new (String.length old - 1) s'
          else String c (str_replace_from old new 0 s')
      end
  end.

Definition str_replace (old new s : string) : string :=
  str_replace_from old new 0 s.

Fixpoint lstrip_char (c : ascii) (s : string) : string :=
  match s with
  | EmptyString => EmptyString
  | String a s' => if Ascii.eqb a c then lstrip_char c s' else s
  end.

Fixpoint rstrip_char (c : ascii) (s : string) : string :=
  match s with
  | EmptyString => EmptyString
  | String a s' =>
      match rstrip_char c s' with
      | EmptyString => if Ascii.eqb a c then EmptyString else String a EmptyString
      | r => String a r
      end
  end.

Definition strip_char (c : ascii) (s : string) : string :=
  rstrip_char c (lstrip_char c s).

(** One row of the result frame: Position, Ranking URL, Snippet. *)
Definition serp_row : Type := (nat * pyval * pyval)%type.

(** What [get_organic_results] hands back: its success path returns a pair,
    its three failure paths return a triple. *)
Inductive serp_return : Type :=
| Tuple2 (raw_html_file : pyval) (result_df : list serp_row)
| Tuple3 (raw_html_file : pyval) (result_df : list serp_row) (extra : pyval).

(** [obj.get(k, default)]; [None] is the [AttributeError] of a non-dict. *)
Definition py_get (obj : pyval) (k : string) (default : pyval) : option pyval :=
  match obj with
  | PDict d => Some (match dict_lookup d k with Some v => v | None => default end)
  | _ => None
  end.

(** Iteration over an object; [None] is the [TypeError] of a non-iterable. *)
Definition py_iter (obj : pyval) : option (list pyval) :=
  match obj with
  | PList l => Some l
  | PDict d => Some (map (fun kv => PStr (fst kv)) d)
  | PStr s => Some (map (fun c => PStr (String c EmptyString)) (list_ascii_of_string s))
  | _ => None
  end.

(** The list comprehension building [ranking_data]; [index] is the
    position of [enumerate]. *)
Fixpoint ranking_data (index : nat) (search_results : list pyval)
  : option (list serp_row) :=
  match search_results with
  | [] => Some []
  | result :: rest =>
      match py_get result "link" PNone, py_get result "snippet" PNone with
      | Some link, Some snippet =>
          match ranking_data (S index) rest with
          | Some rows =>
              Some (if truthy link then (index + 1, link, snippet) :: rows else rows)
          | None => None
          end
      | _, _ => None
      end
  end.

Definition serp_failure : serp_return := Tuple3 PNone [] PNone.

(** The query [q] sent to the search endpoint. *)
Definition serp_query (keyword site_path : string) : string :=
  let site_path_cleaned :=
    strip_char "/" (str_replace "http://" "" (str_replace "https://" "" site_path)) in
  let query_keyword := str_replace "&" "and" keyword in
  query_keyword ++ " site:" ++ site_path_cleaned.

(** [get_organic_results] *)
Definition get_organic_results (w : world) (keyword site_path : string)
    (log : calls) : serp_return * calls :=
  if negb (SERPAPI_API_KEY w) then (serp_failure, log)
  else
    let q := serp_query keyword site_path in
    let log' := (log ++ [SerpApiRequest q])%list in
    match requests_get w log q with
    | HttpRequestException => (serp_failure, log')
    | HttpBodyNotJson => (serp_failure, log')
    | HttpJson data =>
        match py_get data "organic_results" (PList []) with
        | None => (serp_failure, log')
        | Some search_results =>
            match py_get data "search_metadata" (PDict []) with
            | None => (serp_failure, log')
            | Some metadata =>
                match py_get metadata "raw_html_file" PNone with
                | None => (serp_failure, log')
                | Some raw_html_file =>
                    match py_iter search_results with
                    | None => (serp_failure, log')
                    | Some items =>
                        match ranking_data 0 items with
                        | None => (serp_failure, log')
                        | Some rows => (Tuple2 raw_html_file rows, log')
                        end
                    end
                end
            end
        end
    end.

(** ** [analyze_keywords] *)

(** [classified_urls]: a dict with the four fixed keys, in insertion order. *)
Record buckets : Type := mkBuckets {
  b_known_plp : list string;
  b_known_pdp : list string;
  b_irrelevant : list string;
  b_unknown : list string
}.

Definition empty_buckets : buckets := mkBuckets [] [] [] [].

Definition bucket (b : buckets) (c : page_class) : list string :=
  match c with
  | KnownPLP => b_known_plp b
  | KnownPDP => b_known_pdp b
  | Irrelevant => b_irrelevant b
  | Unknown => b_unknown b
  end.

(** [[item for sublist in classified_urls.values() for item in sublist]] *)
Definition bucket_items (b : buckets) : list string :=
  (b_known_plp b ++ b_known_pdp b ++ b_irrelevant b ++ b_unknown b)%list.

(** [classified_urls[page_type].append(cleaned)] *)
Definition bucket_append (b : buckets) (c : page_class) (cleaned : string) : buckets :=
  match c with
  | KnownPLP =>
      mkBuckets (b_known_plp b ++ [cleaned]) (b_known_pdp b) (b_irrelevant b) (b_unknown b)
  | KnownPDP =>
      mkBuckets (b_known_plp b) (b_known_pdp b ++ [cleaned]) (b_irrelevant b) (b_unknown b)
  | Irrelevant =>
      mkBuckets (b_known_plp b) (b_known_pdp b) (b_irrelevant b ++ [cleaned]) (b_unknown b)
  | Unknown =>
      mkBuckets (b_known_plp b) (b_known_pdp b) (b_irrelevant b) (b_unknown b ++ [cleaned])
  end.

(** Body of the classification loop (stage 2). *)
Definition classify_step (known_plps_list : list string) (b : buckets) (url : pyval)
  : buckets :=
  match clean_url url with
  | None => b
  | Some cleaned =>
      if negb (str_nonempty cleaned) then b
      else
        let page_type := classify_url (PStr cleaned) known_plps_list in
        if negb (existsb (String.eqb cleaned) (bucket_items b))
        then bucket_append b page_type cleaned
        else b
  end.

Definition classify_serp (known_plps_list : list string) (ranking_urls : list pyval)
  : buckets :=
  fold_left (classify_step known_plps_list) ranking_urls empty_buckets.

(** The per-keyword assessment dicts: URL to assessment, in insertion order. *)
Definition adict : Type := list (string * pydict).

(** [d[url] = v] *)
Fixpoint adict_set (d : adict) (url : string) (v : pydict) : adict :=
  match d with
  | [] => [(url, v)]
  | (k, v') :: d' =>
      if String.eqb k url then (k, v) :: d' else (k, v') :: adict_set d' url v
  end.

Inductive plp_relevance : Type := Unrelated | LooselyRelated | CloselyRelated.

Definition plp_relevance_label (r : plp_relevance) : string :=
  match r with
  | Unrelated => "Unrelated"
  | LooselyRelated => "Loosely Related"
  | CloselyRelated => "Closely Related"
  end.

(** The local variables of one keyword's run. *)
Record evidence : Type := mkEvidence {
  known_plp_assessments : adict;
  known_pdp_assessments : adict;
  unknown_url_assessments : adict;
  found_closely_related_plp : bool;
  best_plp_relevance : option plp_relevance;
  found_related_pdp : bool;
  ai_identified_plps : adict;
  ai_identified_pdps : adict
}.

Definition initial_evidence : evidence :=
  mkEvidence [] [] [] false None false [] [].

Definition failed_plp_assessment : pydict :=
  [("Relevant", PStr "Assessment Failed"); ("Analysis", PStr "API call failed.")].

Definition failed_pdp_assessment : pydict :=
  [("Relevance", PStr "Assessment Failed"); ("Analysis", PStr "API call failed.")].

Definition failed_unknown_assessment : pydict :=
  [("determined_type", PStr "Error"); ("relevance", PStr "Error");
   ("analysis", PStr "API call failed.")].

Definition set_known_plp (e : evidence) (url : string) (v : pydict) : evidence :=
  mkEvidence (adict_set (known_plp_assessments e) url v) (known_pdp_assessments e)
    (unknown_url_assessments e) (found_closely_related_plp e) (best_plp_relevance e)
    (found_related_pdp e) (ai_identified_plps e) (ai_identified_pdps e).

Definition set_known_pdp (e : evidence) (url : string) (v : pydict) : evidence :=
  mkEvidence (known_plp_assessments e) (adict_set (known_pdp_assessments e) url v)
    (unknown_url_assessments e) (found_closely_related_plp e) (best_plp_relevance e)
    (found_related_pdp e) (ai_identified_plps e) (ai_identified_pdps e).

Definition set_unknown (e : evidence) (url : string) (v : pydict) : evidence :=
  mkEvidence (known_plp_assessments e) (known_pdp_assessments e)
    (adict_set (unknown_url_assessments e) url v) (found_closely_related_plp e)
    (best_plp_relevance e) (found_related_pdp e) (ai_identified_plps e)
    (ai_identified_pdps e).

Definition set_ai_plp (e : evidence) (url : string) (v : pydict) : evidence :=
  mkEvidence (known_plp_assessments e) (known_pdp_assessments e)
    (unknown_url_assessments e) (found_closely_related_plp e) (best_plp_relevance e)
    (found_related_pdp e) (adict_set (ai_identified_plps e) url v) (ai_identified_pdps e).

Definition set_ai_pdp (e : evidence) (url : string) (v : pydict) : evidence :=
  mkEvidence (known_plp_assessments e) (known_pdp_assessments e)
    (unknown_url_assessments e) (found_closely_related_plp e) (best_plp_relevance e)
    (found_related_pdp e) (ai_identified_plps e) (adict_set (ai_identified_pdps e) url v).

Definition set_found_closely (e : evidence) (b : bool) : evidence :=
  mkEvidence (known_plp_assessments e) (known_pdp_assessments e)
    (unknown_url_assessments e) b (best_plp_relevance e)
    (found_related_pdp e) (ai_identified_plps e) (ai_identified_pdps e).

Definition set_best (e : evidence) (r : plp_relevance) : evidence :=
  mkEvidence (known_plp_assessments e) (known_pdp_assessments e)
    (unknown_url_assessments e) (found_closely_related_plp e) (Some r)
    (found_related_pdp e) (ai_identified_plps e) (ai_identified_pdps e).

Definition set_found_pdp (e : evidence) (b : bool) : evidence :=
  mkEvidence (known_plp_assessments e) (known_pdp_assessments e)
    (unknown_url_assessments e) (found_closely_related_plp e) (best_plp_relevance e)
    b (ai_identified_plps e) (ai_identified_pdps e).

Definition best_is_none (e : evidence) : bool :=
  match best_plp_relevance e with None => true | Some _ => false end.

Definition best_is_closely (e : evidence) : bool :=
  match best_plp_relevance e with Some CloselyRelated => true | _ => false end.

(** [if result:] on the [Optional[Dict]] an adapter returns. *)
Definition result_truthy (result : option pydict) : option pydict :=
  match result with
  | Some ((_ :: _) as d) => Some d
  | _ => None
  end.

(** Body of the stage-3 loop after the adapter call; the flag is [true]
    when the body ends in [break]. *)
Definition known_plp_step (url : string) (result : option pydict) (e : evidence)
  : evidence * bool :=
  match result_truthy result with
  | Some r =>
      let e := set_known_plp e url r in
      let relevance := dict_get r "Relevant" in
      if py_eq_str relevance "Closely Related" then
        (set_best (set_found_closely e true) CloselyRelated, true)
      else if py_eq_str relevance "Loosely Related" then
        (set_best e LooselyRelated, false)
      else if best_is_none e then (set_best e Unrelated, false)
      else (e, false)
  | None =>
      let e := set_known_plp e url failed_plp_assessment in
      if best_is_none e then (set_best e Unrelated, false) else (e, false)
  end.

(** Stage 3: [for url in classified_urls['Known PLP']]. *)
Fixpoint assess_known_plps (w : world) (keyword : string) (urls : list string)
    (e : evidence) (log : calls) : evidence * calls :=
  match urls with
  | [] => (e, log)
  | url :: rest =>
      let (result, log') := assess_category_page_relevance w keyword url log in
      let (e', stop) := known_plp_step url result e in
      if stop then (e', log') else assess_known_plps w keyword rest e' log'
  end.

(** Body of the stage-4 loop after the adapter call. *)
Definition unknown_step (url : string) (result : option pydict) (e : evidence)
  : evidence * bool :=
  match result_truthy result with
  | Some r =>
      let e := set_unknown e url r in
      let determined_type := dict_get r "determined_type" in
      let relevance := dict_get r "relevance" in
      if py_eq_str determined_type "PLP" || py_eq_str determined_type "Brand Page" then
        let e := set_ai_plp e url r in
        if py_eq_str relevance "Closely Related" then
          (set_found_closely (set_best e CloselyRelated) true, true)
        else if py_eq_str relevance "Loosely Related" && negb (best_is_closely e) then
          (set_best e LooselyRelated, false)
        else if py_eq_str relevance "Unrelated" && best_is_none e then
          (set_best e Unrelated, false)
        else (e, false)
      else if py_eq_str determined_type "PDP" then
        let e := set_ai_pdp e url r in
        if py_eq_str relevance "Related" then (set_found_pdp e true, false)
        else (e, false)
      else (e, false)
  | None => (set_unknown e url failed_unknown_assessment, false)
  end.

(** Stage 4: [for url in classified_urls['Unknown']]. *)
Fixpoint assess_unknown_urls (w : world) (keyword : string) (urls : list string)
    (e : evidence) (log : calls) : evidence * calls :=
  match urls with
  | [] => (e, log)
  | url :: rest =>
      let (result, log') := classify_and_assess_url w keyword url log in
      let (e', stop) := unknown_step url result e in
      if stop then (e', log') else assess_unknown_urls w keyword rest e' log'
  end.

(** Body of the stage-5 loop after the adapter call. *)
Definition known_pdp_step (url : string) (result : option pydict) (e : evidence)
  : evidence :=
  match result_truthy result with
  | Some r =>
      let e := set_known_pdp e url r in
      if py_eq_str (dict_get r "Relevance") "Related" then set_found_pdp e true else e
  | None => set_known_pdp e url failed_pdp_assessment
  end.

(** Stage 5: [for url in classified_urls['Known PDP']]. *)
Fixpoint assess_known_pdps (w : world) (keyword : string) (urls : list string)
    (e : evidence) (log : calls) : evidence * calls :=
  match urls with
  | [] => (e, log)
  | url :: rest =>
      let (result, log') := assess_product_page_relevance w keyword url log in
      assess_known_pdps w keyword rest (known_pdp_step url result e) log'
  end.

Inductive decision : Type :=
| Error
| NoSearchResults
| ExistingSufficient
| CreateSpecificCategory
| LooseSufficientForNow
| CreateNewCategory
| NoRelevantContent.

(** The string stored under ['Decision']. *)
Definition decision_label (d : decision) : string :=
  match d with
  | Error => "Error"
  | NoSearchResults => "No (Irrelevant)"
  | ExistingSufficient => "No (Existing page sufficient)"
  | CreateSpecificCategory => "Yes (Create *specific* category)"
  | LooseSufficientForNow => "No (Loose PLP is best for now)"
  | CreateNewCategory => "Yes (Create *new* category)"
  | NoRelevantContent => "No (No relevant products/pages)"
  end.

(** Stage 6: the final decision logic, with its justification. *)
Definition final_decision (best : option plp_relevance) (found_related : bool)
  : decision * string :=
  match best with
  | Some LooselyRelated =>
      if found_related
      then (CreateSpecificCategory,
            "Found 'Loosely Related' PLP and 'Related' products/pages, suggesting a more specific category is needed.")
      else (LooseSufficientForNow,
            "Found 'Loosely Related' PLP, but no specific 'Related' products/pages found to justify a new category.")
  | Some Unrelated | None =>
      if found_related
      then (CreateNewCategory,
            "No relevant PLP found, but 'Related' products/pages exist, justifying a new category.")
      else (NoRelevantContent,
            "No relevant PLPs or other pages related to the keyword were found.")
  | Some CloselyRelated =>
      (Error, "Unhandled case in final decision logic.")
  end.

Record keyword_result : Type := mkResult {
  Keyword : string;
  SERP_Results_Found : bool;
  Initial_Classification : option buckets;
  Known_PLP_Assessment : adict;
  Known_PDP_Assessment : adict;
  Unknown_URL_Assessment : adict;
  Decision : decision;
  Justification : string;
  SERP_Raw_HTML_URL : pyval
}.

(** Where a keyword's run left the assessment stages. *)
Inductive stage_exit : Type :=
| ExitKnownPLP
| ExitUnknownURL
| ReachedSynthesis.

(** Stages 3 to 5 of one keyword, up to the [continue] of stage 3 or 4 or
    to the start of the final decision logic. *)
Definition gather_evidence (w : world) (keyword : string) (classified_urls : buckets)
    (log : calls) : stage_exit * evidence * calls :=
  let (e3, log3) :=
    match b_known_plp classified_urls with
    | [] => (initial_evidence, log)
    | _ :: _ =>
        assess_known_plps w keyword (b_known_plp classified_urls) initial_evidence log
    end in
  if found_closely_related_plp e3 then (ExitKnownPLP, e3, log3)
  else
    let (e4, log4) :=
      match b_unknown classified_urls with
      | [] => (e3, log3)
      | _ :: _ => assess_unknown_urls w keyword (b_unknown classified_urls) e3 log3
      end in
    if match b_unknown classified_urls with
       | [] => false
       | _ :: _ => found_closely_related_plp e4
       end
    then (ExitUnknownURL, e4, log4)
    else
      let (e5, log5) :=
        match b_known_pdp classified_urls with
        | [] => (e4, log4)
        | _ :: _ => assess_known_pdps w keyword (b_known_pdp classified_urls) e4 log4
        end in
      (ReachedSynthesis, e5, log5).

(** The decision and justification written at each of the three exits. *)
Definition decide (x : stage_exit) (e : evidence) : decision * string :=
  match x with
  | ExitKnownPLP =>
      (ExistingSufficient, "A 'Closely Related' Known PLP was found in SERP.")
  | ExitUnknownURL =>
      (ExistingSufficient, "AI identified a 'Closely Related' PLP or Brand Page in SERP.")
  | ReachedSynthesis =>
      final_decision (best_plp_relevance e) (found_related_pdp e)
  end.

Inductive exn : Type :=
| ValueError (msg : string).

Inductive outcome (A : Type) : Type :=
| Returned (a : A)
| Raised (e : exn).
Arguments Returned {A} a.
Arguments Raised {A} e.

(** [serp_df['Ranking URL']] *)
Definition ranking_urls (serp_df : list serp_row) : list pyval :=
  map (fun row => snd (fst row)) serp_df.

(** The body of the keyword loop once the search result is unpacked.  The
    three assessment entries of the record are the loop's own dicts: each is
    stored by the stage that fills it and is still empty, like the record's
    initial entry, when that stage did not run. *)
Definition process_serp (w : world) (known_plps_list : list string) (keyword : string)
    (serp_html_url : pyval) (serp_df : list serp_row) (log : calls)
  : keyword_result * calls :=
  match serp_df with
  | [] =>
      (mkResult keyword false None [] [] [] NoSearchResults
         "No organic results found for this keyword on the target site."
         serp_html_url, log)
  | _ :: _ =>
      let classified_urls :=
        classify_serp known_plps_list (ranking_urls serp_df) in
      let '(x, e, log') := gather_evidence w keyword classified_urls log in
      let (d, j) := decide x e in
      (mkResult keyword true (Some classified_urls)
         (known_plp_assessments e) (known_pdp_assessments e)
         (unknown_url_assessments e) d j serp_html_url, log')
  end.

(** The body of [for keyword in keywords]: the call of
    [get_organic_results] is unpacked into exactly two names. *)
Definition analyze_keyword (w : world) (known_plps_list : list string)
    (keyword : string) (log : calls) : outcome keyword_result * calls :=
  let (ret, log1) := get_organic_results w keyword TARGET_SITE log in
  match ret with
  | Tuple3 _ _ _ =>
      (Raised (ValueError "too many values to unpack (expected 2)"), log1)
  | Tuple2 serp_html_url serp_df =>
      let (r, log2) := process_serp w known_plps_list keyword serp_html_url serp_df log1 in
      (Returned r, log2)
  end.

Fixpoint analyze_loop (w : world) (known_plps_list : list string)
    (keywords : list string) (results_list : list keyword_result) (log : calls)
  : outcome (list keyword_result) * calls :=
  match keywords with
  | [] => (Returned results_list, log)
  | keyword :: rest =>
      match analyze_keyword w known_plps_list keyword log with
      | (Returned r, log') =>
          analyze_loop w known_plps_list rest (results_list ++ [r])%list log'
      | (Raised e, log') => (Raised e, log')
      end
  end.

(** [analyze_keywords] *)
Definition analyze_keywords (w : world) (keywords known_plps_list : list string)
    (log : calls) : outcome (list keyword_result) * calls :=
  analyze_loop w known_plps_list keywords [] log.

(** ** Loading keywords and known listings ([main_analyzer.py]) *)









(** What [pd.read_csv] and the selection of the URL column amount to: the
    column after [astype(str)], or one of the two failures told apart. *)
Inductive csv_read : Type :=
| CsvNotFound
| CsvFailed
| CsvUrlColumn (urls : list string).

Definition opt_string_eqb (a b : option string) : bool :=
  match a, b with
  | Some x, Some y => String.eqb x y
  | None, None => true
  | _, _ => false
  end.

(** [Series.unique()]: the distinct values in order of first appearance. *)
Definition series_unique (l : list (option string)) : list (option string) :=
  fold_left (fun seen v => if existsb (opt_string_eqb v) seen then seen
                           else (seen ++ [v])%list)
            l [].

(** [load_known_plps] *)
Definition load_known_plps (f : csv_read) : list (option string) :=
  match f with
  | CsvUrlColumn urls => series_unique (map (fun url => clean_url (PStr url)) urls)
  | CsvNotFound => []
  | CsvFailed => []
  end.

(** The strings of the known-listing list, the entries a URL can equal. *)
Definition known_strings (known_plps : list (option string)) : list string :=
  flat_map (fun v => match v with Some s => [s] | None => [] end) known_plps.

(** One insertion into a list of distinct values kept in order of first
    appearance. *)
Definition keep_first {A : Type} (eqb : A -> A -> bool) (seen : list A) (v : A)
  : list A :=
  if existsb (eqb v) seen then seen else (seen ++ [v])%list.

(** * Specification vocabulary *)

(** ** Strings *)

Definition StartsWith (s p : string) : Prop := exists r, s = p ++ r.

Definition Contains (sub s : string) : Prop := exists a b, s = a ++ sub ++ b.

(** ** The classifier *)

(** The three classification rules in the words of the design, stated on
    the normalised URL. *)
Definition IrrelevantRule (c : string) : Prop :=
  c = homepage
  \/ (exists p, In p KNOWN_IRRELEVANT_PATHS /\ p <> homepage
                /\ StartsWith c p /\ String.length p < String.length c)
  \/ In c KNOWN_IRRELEVANT_PATHS.

Definition ListingRule (known : list string) (c : string) : Prop :=
  In c known
  \/ ((exists p, In p KNOWN_PLP_PATHS /\ StartsWith c p)
      /\ ~ (Contains "/collections/" c /\ Contains "/products/" c)).

Definition DetailRule (c : string) : Prop :=
  (exists p, In p KNOWN_PDP_PATHS /\ StartsWith c p) \/ Contains "/products/" c.

(** ** Stage 2 *)

(** What holds of the buckets once the URLs [seen] have been processed. *)
Record classified (known : list string) (seen : list pyval) (b : buckets) : Prop := {
  cl_nodup : NoDup (bucket_items b);
  cl_complete : forall u c,
    In u seen -> clean_url u = Some c ->
    In c (bucket b (classify_url (PStr c) known));
  cl_sound : forall c cls,
    In c (bucket b cls) ->
    cls = classify_url (PStr c) known
    /\ exists u, In u seen /\ clean_url u = Some c
}.

(** ** Stages 3 to 5 *)

(** One iteration of an assessment loop: the URL assessed, what the adapter
    returned, and the evidence and call log when the iteration ends. *)
Record iteration : Type := mkIteration {
  it_url : string;
  it_result : option pydict;
  it_evidence : evidence;
  it_log : calls
}.

(** The iterations the stage-3 loop goes through. *)
Fixpoint known_plp_trace (w : world) (keyword : string) (urls : list string)
    (e : evidence) (log : calls) : list iteration :=
  match urls with
  | [] => []
  | url :: rest =>
      let (result, log') := assess_category_page_relevance w keyword url log in
      let (e', stop) := known_plp_step url result e in
      mkIteration url result e' log'
        :: (if stop then [] else known_plp_trace w keyword rest e' log')
  end.

(** The iterations the stage-4 loop goes through. *)
Fixpoint unknown_trace (w : world) (keyword : string) (urls : list string)
    (e : evidence) (log : calls) : list iteration :=
  match urls with
  | [] => []
  | url :: rest =>
      let (result, log') := classify_and_assess_url w keyword url log in
      let (e', stop) := unknown_step url result e in
      mkIteration url result e' log'
        :: (if stop then [] else unknown_trace w keyword rest e' log')
  end.

(** The iterations the stage-5 loop goes through. *)
Fixpoint known_pdp_trace (w : world) (keyword : string) (urls : list string)
    (e : evidence) (log : calls) : list iteration :=
  match urls with
  | [] => []
  | url :: rest =>
      let (result, log') := assess_product_page_relevance w keyword url log in
      let e' := known_pdp_step url result e in
      mkIteration url result e' log' :: known_pdp_trace w keyword rest e' log'
  end.

(** Where a loop that started from [(e, log)] stands after its iterations. *)
Fixpoint trace_end (t : list iteration) (e : evidence) (log : calls)
  : evidence * calls :=
  match t with
  | [] => (e, log)
  | it :: t' => trace_end t' (it_evidence it) (it_log it)
  end.

(** Every value the evidence of one keyword takes, from its
    initialisation through each iteration of stages 3, 4 and 5. *)
Definition evidence_history (w : world) (keyword : string) (classified_urls : buckets)
    (log : calls) : list evidence :=
  let t3 := known_plp_trace w keyword (b_known_plp classified_urls)
              initial_evidence log in
  let (e3, log3) := trace_end t3 initial_evidence log in
  (initial_evidence :: map it_evidence t3)
  ++ (if found_closely_related_plp e3 then []
      else
        let t4 := unknown_trace w keyword (b_unknown classified_urls) e3 log3 in
        let (e4, log4) := trace_end t4 e3 log3 in
        map it_evidence t4
        ++ (if found_closely_related_plp e4 then []
            else map it_evidence
                   (known_pdp_trace w keyword (b_known_pdp classified_urls) e4 log4)))%list.

(** The calls the extraction service receives when the URLs are assessed in
    turn; none at all without an API key. *)
Definition adapter_call (kind : prompt_kind) (keyword url : string) : event :=
  FirecrawlExtract kind keyword url.

Definition logged (w : world) (kind : prompt_kind) (keyword : string)
    (urls : list string) : calls :=
  if FIRECRAWL_API_KEY w then map (adapter_call kind keyword) urls else [].

(** No Closely Related listing has been seen. *)
Definition quiet (e : evidence) : Prop :=
  found_closely_related_plp e = false /\ best_plp_relevance e <> Some CloselyRelated.

(** A Closely Related listing has been seen and recorded as the best. *)
Definition settled (e : evidence) : Prop :=
  found_closely_related_plp e = true /\ best_plp_relevance e = Some CloselyRelated.

(** What a loop stores for a URL: the adapter's answer, or the failure
    placeholder of the stage. *)
Definition recorded (failed : pydict) (result : option pydict) : pydict :=
  match result_truthy result with Some r => r | None => failed end.

(** The running best after a failed listing assessment: floored at
    Unrelated when nothing was recorded before. *)
Definition floor_unrelated (best : option plp_relevance) : option plp_relevance :=
  match best with None => Some Unrelated | Some b => Some b end.

(** The flag and the running best agree. *)
Definition flag_agrees (e : evidence) : Prop :=
  found_closely_related_plp e = true <-> best_plp_relevance e = Some CloselyRelated.

(** The listing adapter returned a Closely Related verdict. *)
Definition closely_related_verdict (result : option pydict) : bool :=
  match result_truthy result with
  | Some r => py_eq_str (dict_get r "Relevant") "Closely Related"
  | None => false
  end.

(** The decision table of the synthesis stage, row by row. *)
Definition decision_table (best_listing_relevance : option plp_relevance)
    (related_detail_found : bool) : decision :=
  match best_listing_relevance, related_detail_found with
  | Some LooselyRelated, true => CreateSpecificCategory
  | Some LooselyRelated, false => LooseSufficientForNow
  | Some Unrelated, true => CreateNewCategory
  | None, true => CreateNewCategory
  | Some Unrelated, false => NoRelevantContent
  | None, false => NoRelevantContent
  | Some CloselyRelated, _ => Error
  end.

(** ** Stage 4 verdicts, call accounting and orderings *)

(** The combined adapter returned a listing or brand page judged Closely
    Related. *)
Definition closely_related_unknown_verdict (result : option pydict) : bool :=
  match result_truthy result with
  | Some r =>
      (py_eq_str (dict_get r "determined_type") "PLP"
       || py_eq_str (dict_get r "determined_type") "Brand Page")
      && py_eq_str (dict_get r "relevance") "Closely Related"
  | None => false
  end.

(** The bucket whose URLs a kind of assessment is made for. *)
Definition bucket_of_kind (kind : prompt_kind) : page_class :=
  match kind with
  | CategoryPrompt => KnownPLP
  | CombinedPrompt => Unknown
  | ProductPrompt => KnownPDP
  end.

(** The scale of the running best: absent, Unrelated, Loosely Related,
    Closely Related. *)
Definition best_rank (best : option plp_relevance) : nat :=
  match best with
  | None => 0
  | Some Unrelated => 1
  | Some LooselyRelated => 2
  | Some CloselyRelated => 3
  end.

(** Evidence only grows from [e1] to [e2]. *)
Definition evidence_le (e1 e2 : evidence) : Prop :=
  best_rank (best_plp_relevance e1) <= best_rank (best_plp_relevance e2)
  /\ (found_related_pdp e1 = true -> found_related_pdp e2 = true)
  /\ (found_closely_related_plp e1 = true -> found_closely_related_plp e2 = true).

(** Each value of a list of evidence is followed by one at least as large. *)
Fixpoint growing (l : list evidence) : Prop :=
  match l with
  | [] => True
  | e1 :: l' =>
      match l' with
      | [] => True
      | e2 :: _ => evidence_le e1 e2 /\ growing l'
      end
  end.

(** The decision is reported as an opportunity: its label starts with Yes,
    the test of the report's summary. *)
Definition is_opportunity (d : decision) : bool :=
  startswith (decision_label d) "Yes".

(** [s1] is an initial segment of [s2]. *)
Definition initial_segment (l1 l2 : list string) : Prop :=
  exists rest, l2 = (l1 ++ rest)%list.

(** ** The result frame *)

Definition row_position (row : serp_row) : nat := fst (fst row).
Definition row_link (row : serp_row) : pyval := snd (fst row).
Definition row_snippet (row : serp_row) : pyval := snd row.

(** The row was built from the organic result at its position. *)
Definition row_from (items : list pyval) (row : serp_row) : Prop :=
  1 <= row_position row <= List.length items
  /\ truthy (row_link row) = true
  /\ exists d,
       nth_error items (row_position row - 1) = Some (PDict d)
       /\ dict_get d "link" = row_link row
       /\ dict_get d "snippet" = row_snippet row.

(** The positions of a list of rows increase strictly. *)
Fixpoint positions_increase (after : nat) (rows : list serp_row) : Prop :=
  match rows with
  | [] => True
  | row :: rows' => after < row_position row /\ positions_increase (row_position row) rows'
  end.

(** The relevance values of the detail-page scale that are not on the
    listing scale. *)
Definition detail_only_relevance : list string := ["Related"; "N/A"].

(** The characters of a string. *)
Definition chars (s : string) : list ascii := list_ascii_of_string s.

(** ** Normal forms *)

(** The URL is a value [clean_url] returns. *)
Definition normalised (c : string) : Prop := exists url, clean_url url = Some c.

(** Not one of the characters [urlsplit] removes. *)
Definition is_safe (c : ascii) : bool := negb (is_unsafe c).

(** A scheme as [urlsplit] returns it when it finds one. *)
Definition lower_scheme (s : string) : Prop :=
  (exists c0 r, s = String c0 r /\ is_alpha c0 = true)
  /\ string_forallb is_scheme_char s = true
  /\ string_map to_lower s = s.

(** The test of [urlsplit] for an unmatched square bracket. *)
Definition unmatched_bracket (netloc : string) : bool :=
  (has_char "[" netloc && negb (has_char "]" netloc))
  || (has_char "]" netloc && negb (has_char "[" netloc)).

(** The test of [urlsplit] for brackets around something that is neither
    an IPv6 nor an IPvFuture address. *)
Definition host_refused (netloc : string) : bool :=
  has_char "[" netloc && has_char "]" netloc
  && negb (check_bracketed_netloc netloc).

Definition ends_with_slash (h : string) : Prop := exists h', h = h' ++ "/".

(** Not one of the characters that end a network location. *)
Definition no_delim (c : ascii) : bool := negb (is_netloc_delim c).

(** The final segment of the path keeps no parameters when the scheme
    takes them. *)
Definition params_taken (scheme path : string) : Prop :=
  existsb (String.eqb scheme) uses_params = true ->
  has_char ";" (snd (last_segment path)) = false.

(** The parts a normalised URL is put together from. *)
Record normal_parts (scheme netloc path : string) : Prop := {
  np_scheme : lower_scheme scheme;
  np_netloc : str_nonempty netloc = true;
  np_no_delim : string_forallb no_delim netloc = true;
  np_netloc_safe : string_forallb is_safe netloc = true;
  np_brackets : unmatched_bracket netloc = false;
  np_host : host_refused netloc = false;
  np_path : path = "" \/ (startswith path "/" = true /\ path <> "/");
  np_path_safe : string_forallb is_safe path = true;
  np_no_fragment : has_char "#" path = false;
  np_no_query : has_char "?" path = false;
  np_params : params_taken scheme path
}.

(** ** Sample worlds *)

Definition site (path : string) : string := "https://www.fatshackvintage.com.au" ++ path.

Definition organic (link : string) : pyval :=
  PDict [("position", PNum 1); ("link", PStr link); ("snippet", PStr "Vintage goods.")].

Definition serp_json (links : list string) : pyval :=
  PDict [("search_metadata",
          PDict [("raw_html_file", PStr "https://serpapi.com/searches/1.html")]);
         ("organic_results", PList (map organic links))].

Definition fc_data (d : pydict) : fc_outcome :=
  FcReturns (PDict [("success", PBool true); ("data", PDict d)]).

(** Both services are unreachable. *)
Definition world_down : world :=
  mkWorld true true (fun _ _ => HttpRequestException) (fun _ _ _ _ => FcRaises).

(** The search answers with the given links; the extraction service is
    unreachable. *)
Definition world_search_only (links : list string) : world :=
  mkWorld true true (fun _ _ => HttpJson (serp_json links)) (fun _ _ _ _ => FcRaises).

(** The first search of the run answers with the given links; every later
    search and every extraction call fails. *)
Definition world_first_search_only (links : list string) : world :=
  mkWorld true true
    (fun log _ => match log with
                  | [] => HttpJson (serp_json links)
                  | _ :: _ => HttpRequestException
                  end)
    (fun _ _ _ _ => FcRaises).

(** The search answers with the given links; the extraction service
    answers every request with the same data. *)
Definition world_constant (links : list string) (d : pydict) : world :=
  mkWorld true true (fun _ _ => HttpJson (serp_json links)) (fun _ _ _ _ => fc_data d).

(** The search answers with the given links; listings are judged Loosely
    Related and products Related. *)
Definition world_loose_and_related (links : list string) : world :=
  mkWorld true true (fun _ _ => HttpJson (serp_json links))
    (fun _ kind _ _ =>
       match kind with
       | CategoryPrompt =>
           fc_data [("Relevant", PStr "Loosely Related"); ("Analysis", PStr "Broader page.")]
       | ProductPrompt =>
           fc_data [("Relevance", PStr "Related"); ("Analysis", PStr "Exact product.")]
       | CombinedPrompt =>
           fc_data [("determined_type", PStr "Other"); ("relevance", PStr "N/A");
                    ("analysis", PStr "Informational.")]
       end).

(** The search answers with the given links; the listing at
    [/collections/hats] is judged Closely Related, every other listing
    Loosely Related, and products Related. *)
Definition world_hats (links : list string) : world :=
  mkWorld true true (fun _ _ => HttpJson (serp_json links))
    (fun _ kind _ url =>
       match kind with
       | CategoryPrompt =>
           if String.eqb url (site "/collections/hats")
           then fc_data [("Relevant", PStr "Closely Related"); ("Analysis", PStr "Hats only.")]
           else fc_data [("Relevant", PStr "Loosely Related"); ("Analysis", PStr "Broader page.")]
       | ProductPrompt =>
           fc_data [("Relevance", PStr "Related"); ("Analysis", PStr "Exact product.")]
       | CombinedPrompt =>
           fc_data [("determined_type", PStr "Other"); ("relevance", PStr "N/A");
                    ("analysis", PStr "Informational.")]
       end).

Definition serp_row_of (position : nat) (link : string) : serp_row :=
  (position, PStr link, PStr "Vintage goods.").

Definition hats_links : list string :=
  [site "/shop-all/"; site "/collections/hats"; site "/collections/caps";
   site "/products/straw-hat"].

Definition hats_row : serp_row := serp_row_of 1 (site "/shop-all/").

Definition hats_rows : list serp_row :=
  [serp_row_of 2 (site "/collections/hats"); serp_row_of 3 (site "/collections/caps");
   serp_row_of 4 (site "/products/straw-hat")].

(** The stage-3 iterations of the keyword "hats" in [world_hats]. *)
Definition hats_trace : list iteration :=
  Eval vm_compute in
    known_plp_trace (world_hats hats_links) "hats"
      (b_known_plp (classify_serp [] (ranking_urls (hats_row :: hats_rows))))
      initial_evidence [].

Definition no_iteration : iteration := mkIteration "" None initial_evidence [].

Definition hair_powder_links : list string :=
  [site "/shop-all-products/"; site "/products/hair-styling-powder/"].

Definition hair_powder_row : serp_row := serp_row_of 1 (site "/shop-all-products/").

Definition hair_powder_rows : list serp_row :=
  [serp_row_of 2 (site "/products/hair-styling-powder/")].

(** Where the keyword "hair powder" stands after stage 5 in
    [world_loose_and_related]. *)
Definition hair_powder_gathered : stage_exit * evidence * calls :=
  Eval vm_compute in
    gather_evidence (world_loose_and_related hair_powder_links) "hair powder"
      (classify_serp [] (ranking_urls (hair_powder_row :: hair_powder_rows))) [].

(** ** Further sample worlds *)

(** The search answers with the given links; the page at [/sale] is
    judged a Closely Related listing and every other unknown page a
    Related product. *)
Definition world_sale (links : list string) : world :=
  mkWorld true true (fun _ _ => HttpJson (serp_json links))
    (fun _ kind _ url =>
       match kind with
       | CombinedPrompt =>
           if String.eqb url (site "/sale")
           then fc_data [("determined_type", PStr "PLP");
                         ("relevance", PStr "Closely Related");
                         ("analysis", PStr "Hats on sale.")]
           else fc_data [("determined_type", PStr "PDP"); ("relevance", PStr "Related");
                         ("analysis", PStr "A hat.")]
       | CategoryPrompt =>
           fc_data [("Relevant", PStr "Loosely Related"); ("Analysis", PStr "Broader page.")]
       | ProductPrompt =>
           fc_data [("Relevance", PStr "Related"); ("Analysis", PStr "Exact product.")]
       end).

Definition sale_links : list string :=
  [site "/vintage-hat"; site "/sale"; site "/gift-cards"; site "/products/cap"].

Definition sale_row : serp_row := serp_row_of 1 (site "/vintage-hat").

Definition sale_rows : list serp_row :=
  [serp_row_of 2 (site "/sale"); serp_row_of 3 (site "/gift-cards");
   serp_row_of 4 (site "/products/cap")].

(** The stage-4 iterations of the keyword "hats" in [world_sale]. *)
Definition sale_trace : list iteration :=
  Eval vm_compute in
    unknown_trace (world_sale sale_links) "hats"
      (b_unknown (classify_serp [] (ranking_urls (sale_row :: sale_rows))))
      initial_evidence [].

(** Neither service has an API key. *)
Definition world_no_keys : world :=
  mkWorld false false (fun _ _ => HttpRequestException) (fun _ _ _ _ => FcRaises).

(** The search answers without organic results. *)
Definition world_no_results : world :=
  mkWorld true true
    (fun _ _ =>
       HttpJson (PDict [("search_metadata",
                         PDict [("raw_html_file",
                                 PStr "https://serpapi.com/searches/2.html")])]))
    (fun _ _ _ _ => FcRaises).

(** A listing with a verdict that is on neither scale. *)
Definition off_scale_payload : pydict :=
  [("determined_type", PStr "PLP"); ("relevance", PStr "Somewhat Related");
   ("analysis", PStr "Hats among other things.")].

(** A detail page with a verdict of the listing scale, its keys in another
    order and with one more key. *)
Definition cross_scale_payload : pydict :=
  [("analysis", PStr "A single hat."); ("relevance", PStr "Closely Related");
   ("confidence", PNum 3); ("determined_type", PStr "PDP")].

Definition messy_url : string :=
  "HTTPS://www.fatshackvintage.com.au/collections/hats;v=1?page=2#top".

(** * Properties *)

(** ** Strings *)

Lemma startswith_spec (s p : string) : startswith s p = true <-> StartsWith s p.
Proof.
  unfold startswith, StartsWith. revert s.
  induction p as [|c p IH]; intros s.
  - destruct s; simpl; split; eauto.
  - destruct s as [|d s]; simpl.
    + split; [discriminate | intros [r H]; discriminate].
    + destruct (ascii_dec c d) as [->|Hne].
      * rewrite IH. split; intros [r H]; exists r; congruence.
      * split; [discriminate | intros [r H]; congruence].
Qed.

Lemma contains_spec (sub s : string) : contains sub s = true <-> Contains sub s.
Proof.
  unfold Contains. induction s as [|c s IH]; cbn [contains].
  - rewrite orb_false_r. fold (startswith "" sub). rewrite startswith_spec.
    split.
    + intros [r H]. exists "", r. exact H.
    + intros [a [b H]]. destruct a; simpl in H.
      * exists b. exact H.
      * discriminate.
  - rewrite orb_true_iff, IH. fold (startswith (String c s) sub).
    rewrite startswith_spec. split.
    + intros [[r H] | [a [b H]]].
      * exists "", r. exact H.
      * exists (String c a), b. simpl. congruence.
    + intros [a [b H]]. destruct a as [|d a]; simpl in H.
      * left. exists b. exact H.
      * right. exists a, b. congruence.
Qed.

Lemma existsb_eqb_In (c : string) (l : list string) :
  existsb (String.eqb c) l = true <-> In c l.
Proof.
  rewrite existsb_exists. split.
  - intros [x [Hin Heq]]. apply String.eqb_eq in Heq. subst. exact Hin.
  - intros Hin. exists c. split; [exact Hin | apply String.eqb_refl].
Qed.

Lemma existsb_startswith (c : string) (l : list string) :
  existsb (startswith c) l = true <-> exists p, In p l /\ StartsWith c p.
Proof.
  rewrite existsb_exists. split; intros [p [Hin H]]; exists p; split; auto;
    apply startswith_spec; exact H.
Qed.

Lemma startswith_refl (s : string) : startswith s s = true.
Proof. apply startswith_spec. exists "". induction s; simpl; congruence. Qed.

(** ** Normalisation never yields the empty string *)

Lemma append_nonempty_l (a b : string) : str_nonempty a = true -> str_nonempty (a ++ b) = true.
Proof. destruct a; simpl; [discriminate | reflexivity]. Qed.

Lemma urlunparse_nonempty (scheme netloc path : string) :
  str_nonempty scheme = true ->
  str_nonempty (urlunparse (mkParse scheme netloc path "" "" "")) = true.
Proof.
  intros H. unfold urlunparse. cbn [p_scheme p_netloc p_path p_params p_query p_fragment str_nonempty].
  rewrite H. apply append_nonempty_l. exact H.
Qed.

Lemma clean_url_nonempty (url : pyval) (c : string) :
  clean_url url = Some c -> str_nonempty c = true.
Proof.
  unfold clean_url. destruct url; try discriminate.
  destruct (urlparse s) as [parsed|]; [|discriminate].
  intros H. injection H as <-. apply urlunparse_nonempty.
  destruct (str_nonempty (p_scheme parsed)) eqn:E; [exact E | reflexivity].
Qed.

(** ** The classifier *)

Lemma is_irrelevant_spec (c : string) : is_irrelevant c = true <-> IrrelevantRule c.
Proof.
  unfold is_irrelevant, irrelevant_inner, IrrelevantRule.
  rewrite andb_true_iff, !orb_true_iff, String.eqb_eq.
  rewrite (existsb_startswith c KNOWN_IRRELEVANT_PATHS).
  assert (Hpre : existsb
            (fun path => startswith c path
                         && Nat.ltb (String.length path) (String.length c))
            (filter (fun path => negb (String.eqb path homepage)) KNOWN_IRRELEVANT_PATHS)
          = true <->
          exists p, In p KNOWN_IRRELEVANT_PATHS /\ p <> homepage
                    /\ StartsWith c p /\ String.length p < String.length c).
  { rewrite existsb_exists. split.
    - intros [p [Hin H]]. apply filter_In in Hin. destruct Hin as [Hin Hne].
      apply andb_true_iff in H. destruct H as [Hs Hl].
      exists p. repeat split; auto.
      + intros ->. rewrite String.eqb_refl in Hne. discriminate.
      + apply startswith_spec; exact Hs.
      + apply Nat.ltb_lt; exact Hl.
    - intros [p [Hin [Hne [Hs Hl]]]]. exists p. split.
      + apply filter_In. split; auto.
        destruct (String.eqb p homepage) eqn:E; auto.
        apply String.eqb_eq in E. contradiction.
      + apply andb_true_iff. split.
        * apply startswith_spec; exact Hs.
        * apply Nat.ltb_lt; exact Hl. }
  rewrite Hpre.
  assert (Hex : existsb (fun path => String.eqb c path) KNOWN_IRRELEVANT_PATHS = true
                <-> In c KNOWN_IRRELEVANT_PATHS) by apply existsb_eqb_In.
  rewrite Hex.
  split.
  - intros [_ H]. tauto.
  - intros H. split; [|tauto].
    destruct H as [-> | [[p [Hin [_ [Hs _]]]] | Hin]].
    + exists homepage. split; [simpl; tauto | apply startswith_spec, startswith_refl].
    + exists p. split; assumption.
    + exists c. split; [exact Hin | apply startswith_spec, startswith_refl].
Qed.

Lemma is_known_plp_spec (c : string) (known : list string) :
  is_known_plp c known = true <-> ListingRule known c.
Proof.
  unfold is_known_plp, ListingRule.
  rewrite orb_true_iff, andb_true_iff, negb_true_iff, existsb_eqb_In,
    existsb_startswith.
  rewrite <- (contains_spec "/collections/" c), <- (contains_spec "/products/" c).
  rewrite <- andb_true_iff.
  destruct (contains "/collections/" c && contains "/products/" c);
    intuition congruence.
Qed.

Lemma is_known_pdp_spec (c : string) : is_known_pdp c = true <-> DetailRule c.
Proof.
  unfold is_known_pdp, DetailRule.
  rewrite orb_true_iff, existsb_startswith, contains_spec. reflexivity.
Qed.

(** C4.  [classify_url] is a total function that applies its tests to the
    normalised URL in the order Irrelevant, Known PLP, Known PDP, Unknown,
    the first match winning: the class is Known PLP exactly when the URL is
    not irrelevant and is in the supplied list or starts with a listing
    prefix without containing both [/collections/] and [/products/]; Known
    PDP exactly when neither earlier rule matched and it starts with a detail
    prefix or contains [/products/]; Unknown exactly when no rule matched.  A
    URL that cannot be normalised is Unknown. *)
Theorem classify_url_first_match (url : pyval) (known : list string) :
  match clean_url url with
  | None => classify_url url known = Unknown
  | Some c =>
      (classify_url url known = Irrelevant <-> IrrelevantRule c)
      /\ (classify_url url known = KnownPLP <->
          ~ IrrelevantRule c /\ ListingRule known c)
      /\ (classify_url url known = KnownPDP <->
          ~ IrrelevantRule c /\ ~ ListingRule known c /\ DetailRule c)
      /\ (classify_url url known = Unknown <->
          ~ IrrelevantRule c /\ ~ ListingRule known c /\ ~ DetailRule c)
  end.
Proof.
  unfold classify_url.
  destruct (clean_url url) as [c|] eqn:Hc; [|reflexivity].
  rewrite (clean_url_nonempty _ _ Hc). cbn [negb].
  pose proof (is_irrelevant_spec c) as Hi.
  pose proof (is_known_plp_spec c known) as Hl.
  pose proof (is_known_pdp_spec c) as Hd.
  destruct (is_irrelevant c); destruct (is_known_plp c known);
    destruct (is_known_pdp c);
    repeat split; intros; try discriminate; try tauto; try reflexivity;
    intuition congruence.
Qed.

(** ** Stage 2: the buckets *)

Section Classify.

Variable known : list string.

Lemma bucket_items_In (b : buckets) (c : string) :
  In c (bucket_items b) <-> exists cls, In c (bucket b cls).
Proof.
  unfold bucket_items. rewrite !in_app_iff. split.
  - intros [H | [H | [H | H]]];
      [exists KnownPLP | exists KnownPDP | exists Irrelevant | exists Unknown];
      exact H.
  - intros [[] H]; simpl in H; tauto.
Qed.

Lemma bucket_append_In (b : buckets) (cls cls' : page_class) (c x : string) :
  In x (bucket (bucket_append b cls c) cls') <->
  In x (bucket b cls') \/ (cls' = cls /\ x = c).
Proof.
  destruct cls, cls'; simpl; rewrite ?in_app_iff; simpl;
    intuition (try discriminate; auto).
Qed.

Lemma NoDup_app_split (l1 l2 : list string) :
  NoDup (l1 ++ l2) <->
  NoDup l1 /\ NoDup l2 /\ (forall x, In x l1 -> ~ In x l2).
Proof.
  split.
  - intros H. repeat split.
    + eapply NoDup_app_remove_r; eauto.
    + eapply NoDup_app_remove_l; eauto.
    + intros x H1 H2. induction l1 as [|a l1 IH]; [contradiction|].
      simpl in H. apply NoDup_cons_iff in H. destruct H as [Ha Hrest].
      destruct H1 as [-> | H1].
      * apply Ha. apply in_app_iff. right. exact H2.
      * apply IH; assumption.
  - intros [H1 [H2 H3]]. apply NoDup_app; auto.
Qed.

Lemma bucket_append_nodup (b : buckets) (cls : page_class) (c : string) :
  NoDup (bucket_items b) -> ~ In c (bucket_items b) ->
  NoDup (bucket_items (bucket_append b cls c)).
Proof.
  unfold bucket_items. intros Hnd Hnin.
  rewrite !in_app_iff in Hnin.
  rewrite !NoDup_app_split in Hnd.
  destruct Hnd as [H1 [[H2 [[H3 [H4 H34]] H234]] H1234]].
  destruct cls; cbn [bucket_append b_known_plp b_known_pdp b_irrelevant b_unknown];
    rewrite !NoDup_app_split;
    repeat match goal with |- _ /\ _ => split end;
    try assumption;
    try (constructor; [intros [] | constructor]);
    intros x Hx Hy;
    pose proof (H1234 x) as G1; pose proof (H234 x) as G2;
    pose proof (H34 x) as G3;
    rewrite ?in_app_iff in *; cbn [In] in *;
    intuition (subst; tauto).
Qed.

Lemma classified_mono (seen : list pyval) (u : pyval) (b : buckets) :
  classified known seen b -> clean_url u = None -> classified known (seen ++ [u]) b.
Proof.
  intros [Hnd Hc Hs] Hu. split; auto.
  - intros u' c Hin Hcl. apply in_app_iff in Hin.
    destruct Hin as [Hin | [<- | []]]; [eauto | congruence].
  - intros c cls Hin. destruct (Hs c cls Hin) as [E [u' [Hu' Hcl]]].
    split; auto. exists u'. split; auto. apply in_app_iff; auto.
Qed.

Lemma classify_step_classified (seen : list pyval) (u : pyval) (b : buckets) :
  classified known seen b -> classified known (seen ++ [u]) (classify_step known b u).
Proof.
  intros Hb. unfold classify_step.
  destruct (clean_url u) as [c|] eqn:Hu; [|apply classified_mono; assumption].
  rewrite (clean_url_nonempty _ _ Hu). cbn [negb].
  destruct Hb as [Hnd Hc Hs].
  destruct (existsb (String.eqb c) (bucket_items b)) eqn:Hex; cbn [negb].
  - (* already placed *)
    apply existsb_eqb_In in Hex. split; auto.
    + intros u' c' Hin Hcl. apply in_app_iff in Hin.
      destruct Hin as [Hin | [<- | []]]; [eauto|].
      assert (c' = c) by congruence. subst c'.
      apply bucket_items_In in Hex. destruct Hex as [cls Hcls].
      destruct (Hs c cls Hcls) as [-> _]. exact Hcls.
    + intros c' cls Hin. destruct (Hs c' cls Hin) as [E [u' [Hu' Hcl]]].
      split; auto. exists u'. split; auto. apply in_app_iff; auto.
  - (* appended to its bucket *)
    assert (Hnin : ~ In c (bucket_items b)).
    { intros Hin. apply existsb_eqb_In in Hin. congruence. }
    split.
    + apply bucket_append_nodup; assumption.
    + intros u' c' Hin Hcl. apply bucket_append_In.
      apply in_app_iff in Hin. destruct Hin as [Hin | [<- | []]].
      * left. eauto.
      * right. assert (c' = c) by congruence. subst c'. auto.
    + intros c' cls Hin. apply bucket_append_In in Hin.
      destruct Hin as [Hin | [-> ->]].
      * destruct (Hs c' cls Hin) as [E [u' [Hu' Hcl]]].
        split; auto. exists u'. split; auto. apply in_app_iff; auto.
      * split; auto. exists u. split; auto. apply in_app_iff; simpl; auto.
Qed.

Lemma classify_fold_classified (urls seen : list pyval) (b : buckets) :
  classified known seen b ->
  classified known (seen ++ urls) (fold_left (classify_step known) urls b).
Proof.
  revert seen b. induction urls as [|u urls IH]; intros seen b Hb; simpl.
  - rewrite app_nil_r. exact Hb.
  - replace (seen ++ u :: urls)%list with ((seen ++ [u]) ++ urls)%list
      by (rewrite <- app_assoc; reflexivity).
    apply IH. apply classify_step_classified. exact Hb.
Qed.

Lemma classify_serp_classified (urls : list pyval) :
  classified known urls (classify_serp known urls).
Proof.
  unfold classify_serp.
  apply (classify_fold_classified urls [] empty_buckets).
  split.
  - constructor.
  - intros u c [].
  - intros c [] [].
Qed.

End Classify.

Lemma bucket_nodup (known : list string) (urls : list pyval) (cls : page_class) :
  NoDup (bucket (classify_serp known urls) cls).
Proof.
  pose proof (cl_nodup _ _ _ (classify_serp_classified known urls)) as H.
  unfold bucket_items in H. rewrite !NoDup_app_split in H.
  destruct cls; simpl; tauto.
Qed.

(** C8, as the code has it.  After stage 2 no normalised URL occurs twice
    in the buckets, neither in two buckets nor twice in one; every ranked
    URL that normalises has its normalised form in the bucket of its class;
    and every bucket member is the normalised form of a ranked URL, held in
    the bucket of its class.  A ranked URL that does not normalise is in no
    bucket. *)
Theorem classify_serp_partition (known : list string) (urls : list pyval) :
  let b := classify_serp known urls in
  NoDup (bucket_items b)
  /\ (forall u c, In u urls -> clean_url u = Some c ->
        In c (bucket b (classify_url (PStr c) known)))
  /\ (forall c cls, In c (bucket b cls) ->
        cls = classify_url (PStr c) known
        /\ exists u, In u urls /\ clean_url u = Some c)
  /\ (forall c cls1 cls2, In c (bucket b cls1) -> In c (bucket b cls2) -> cls1 = cls2).
Proof.
  intros b. destruct (classify_serp_classified known urls) as [Hnd Hc Hs].
  repeat split; auto.
  - apply (Hs c cls H).
  - apply (Hs c cls H).
  - intros c cls1 cls2 H1 H2.
    destruct (Hs c cls1 H1) as [-> _]. destruct (Hs c cls2 H2) as [-> _].
    reflexivity.
Qed.

(** C8, as stated, fails: a ranked URL on which [urlparse] raises is
    skipped by the guard of the loop and is placed in no bucket. *)
Lemma classify_serp_skips_unparsable :
  let urls := [PStr "https://["; PStr "https://www.fatshackvintage.com.au/collections/hats"] in
  In (PStr "https://[") urls
  /\ clean_url (PStr "https://[") = None
  /\ classify_serp [] urls
     = mkBuckets ["https://www.fatshackvintage.com.au/collections/hats"] [] [] []
  /\ ~ (forall u, In u urls -> exists c cls,
          In c (bucket (classify_serp [] urls) cls)
          /\ (u = PStr c \/ clean_url u = Some c)).
Proof.
  cbv zeta. split; [simpl; auto|]. split; [reflexivity|].
  split; [vm_compute; reflexivity|].
  intros H. destruct (H (PStr "https://[") (or_introl eq_refl)) as [c [cls [Hin Hu]]].
  destruct Hu as [Hu | Hu].
  - injection Hu as <-. vm_compute in Hin. destruct cls; simpl in Hin;
      intuition discriminate.
  - vm_compute in Hu. discriminate.
Qed.

(** ** The adapters and the call log *)

Lemma call_firecrawl_log (w : world) (kind : prompt_kind) (keyword url : string)
    (log : calls) :
  snd (call_firecrawl_extract w kind keyword url log)
  = if FIRECRAWL_API_KEY w then (log ++ [FirecrawlExtract kind keyword url])%list else log.
Proof.
  unfold call_firecrawl_extract.
  destruct (FIRECRAWL_API_KEY w); cbn [negb]; [|reflexivity].
  destruct (firecrawl_extract w log kind keyword url) as [|response]; [reflexivity|].
  match goal with |- context [truthy ?x] => destruct (truthy x) end; [|reflexivity].
  match goal with |- context [match ?x with PDict _ => _ | _ => _ end] =>
    destruct x; try reflexivity end.
  repeat match goal with |- context [truthy ?x] => destruct (truthy x) end;
    reflexivity.
Qed.

Lemma call_firecrawl_no_key (w : world) (kind : prompt_kind) (keyword url : string)
    (log : calls) :
  FIRECRAWL_API_KEY w = false ->
  fst (call_firecrawl_extract w kind keyword url log) = None.
Proof. intros H. unfold call_firecrawl_extract. rewrite H. reflexivity. Qed.


Lemma logged_cons (w : world) (kind : prompt_kind) (keyword url : string)
    (urls : list string) :
  logged w kind keyword (url :: urls)
  = (logged w kind keyword [url] ++ logged w kind keyword urls)%list.
Proof. unfold logged. destruct (FIRECRAWL_API_KEY w); reflexivity. Qed.

Lemma logged_app (w : world) (kind : prompt_kind) (keyword : string)
    (l1 l2 : list string) :
  logged w kind keyword (l1 ++ l2)
  = (logged w kind keyword l1 ++ logged w kind keyword l2)%list.
Proof. unfold logged. destruct (FIRECRAWL_API_KEY w); [apply map_app | reflexivity]. Qed.

Lemma category_log (w : world) (keyword url : string) (log : calls) :
  snd (assess_category_page_relevance w keyword url log)
  = (log ++ logged w CategoryPrompt keyword [url])%list.
Proof.
  unfold assess_category_page_relevance, logged.
  pose proof (call_firecrawl_log w CategoryPrompt keyword url log) as H.
  destruct (call_firecrawl_extract w CategoryPrompt keyword url log) as [r l].
  cbn [snd] in H. subst l.
  destruct r as [[| | | | |d]|]; cbn [snd];
    try (destruct (truthy (PDict d) && dict_has d "Relevant" && dict_has d "Analysis");
         cbn [snd]);
    destruct (FIRECRAWL_API_KEY w); cbn [map]; rewrite ?app_nil_r; reflexivity.
Qed.

Lemma product_log (w : world) (keyword url : string) (log : calls) :
  snd (assess_product_page_relevance w keyword url log)
  = (log ++ logged w ProductPrompt keyword [url])%list.
Proof.
  unfold assess_product_page_relevance, logged.
  pose proof (call_firecrawl_log w ProductPrompt keyword url log) as H.
  destruct (call_firecrawl_extract w ProductPrompt keyword url log) as [r l].
  cbn [snd] in H. subst l.
  destruct r as [[| | | | |d]|]; cbn [snd];
    try (destruct (truthy (PDict d) && dict_has d "Relevance" && dict_has d "Analysis");
         cbn [snd]);
    destruct (FIRECRAWL_API_KEY w); cbn [map]; rewrite ?app_nil_r; reflexivity.
Qed.

Lemma combined_log (w : world) (keyword url : string) (log : calls) :
  snd (classify_and_assess_url w keyword url log)
  = (log ++ logged w CombinedPrompt keyword [url])%list.
Proof.
  unfold classify_and_assess_url, logged.
  pose proof (call_firecrawl_log w CombinedPrompt keyword url log) as H.
  destruct (call_firecrawl_extract w CombinedPrompt keyword url log) as [r l].
  cbn [snd] in H. subst l. cbn [snd].
  destruct (FIRECRAWL_API_KEY w); cbn [map]; rewrite ?app_nil_r; reflexivity.
Qed.

Lemma category_fails (w : world) (keyword url : string) (log : calls) :
  fst (call_firecrawl_extract w CategoryPrompt keyword url log) = None ->
  fst (assess_category_page_relevance w keyword url log) = None.
Proof.
  unfold assess_category_page_relevance.
  destruct (call_firecrawl_extract w CategoryPrompt keyword url log) as [r l].
  cbn [fst]. intros ->. reflexivity.
Qed.


Lemma combined_fails (w : world) (keyword url : string) (log : calls) :
  fst (call_firecrawl_extract w CombinedPrompt keyword url log) = None ->
  fst (classify_and_assess_url w keyword url log) = None.
Proof.
  unfold classify_and_assess_url.
  destruct (call_firecrawl_extract w CombinedPrompt keyword url log) as [r l].
  cbn [fst]. intros ->. reflexivity.
Qed.

(** ** The loops and their traces *)

Lemma assess_known_plps_trace (w : world) (keyword : string) (urls : list string)
    (e : evidence) (log : calls) :
  assess_known_plps w keyword urls e log
  = trace_end (known_plp_trace w keyword urls e log) e log.
Proof.
  revert e log. induction urls as [|url urls IH]; intros e log;
    cbn [assess_known_plps known_plp_trace trace_end]; [reflexivity|].
  destruct (assess_category_page_relevance w keyword url log) as [result log'].
  destruct (known_plp_step url result e) as [e' stop].
  destruct stop; cbn [trace_end it_evidence it_log]; auto.
Qed.

Lemma assess_unknown_urls_trace (w : world) (keyword : string) (urls : list string)
    (e : evidence) (log : calls) :
  assess_unknown_urls w keyword urls e log
  = trace_end (unknown_trace w keyword urls e log) e log.
Proof.
  revert e log. induction urls as [|url urls IH]; intros e log;
    cbn [assess_unknown_urls unknown_trace trace_end]; [reflexivity|].
  destruct (classify_and_assess_url w keyword url log) as [result log'].
  destruct (unknown_step url result e) as [e' stop].
  destruct stop; cbn [trace_end it_evidence it_log]; auto.
Qed.

Lemma assess_known_pdps_trace (w : world) (keyword : string) (urls : list string)
    (e : evidence) (log : calls) :
  assess_known_pdps w keyword urls e log
  = trace_end (known_pdp_trace w keyword urls e log) e log.
Proof.
  revert e log. induction urls as [|url urls IH]; intros e log;
    cbn [assess_known_pdps known_pdp_trace trace_end]; [reflexivity|].
  destruct (assess_product_page_relevance w keyword url log) as [result log'].
  cbn [trace_end it_evidence it_log]. auto.
Qed.

(** ** One iteration *)

Lemma known_plp_step_stop (url : string) (result : option pydict) (e : evidence) :
  snd (known_plp_step url result e) = closely_related_verdict result.
Proof.
  unfold known_plp_step, closely_related_verdict.
  destruct (result_truthy result) as [r|].
  - destruct (py_eq_str (dict_get r "Relevant") "Closely Related"); [reflexivity|].
    destruct (py_eq_str (dict_get r "Relevant") "Loosely Related"); [reflexivity|].
    match goal with |- context [best_is_none ?x] => destruct (best_is_none x) end;
      reflexivity.
  - match goal with |- context [best_is_none ?x] => destruct (best_is_none x) end;
      reflexivity.
Qed.

Lemma known_plp_step_found (url : string) (result : option pydict) (e : evidence) :
  snd (known_plp_step url result e) = true ->
  found_closely_related_plp (fst (known_plp_step url result e)) = true.
Proof.
  unfold known_plp_step.
  destruct (result_truthy result) as [r|].
  - destruct (py_eq_str (dict_get r "Relevant") "Closely Related"); [reflexivity|].
    destruct (py_eq_str (dict_get r "Relevant") "Loosely Related"); [discriminate|].
    match goal with |- context [best_is_none ?x] => destruct (best_is_none x) end;
      discriminate.
  - match goal with |- context [best_is_none ?x] => destruct (best_is_none x) end;
      discriminate.
Qed.

Lemma known_plp_step_flags (url : string) (result : option pydict) (e : evidence) :
  quiet e ->
  if snd (known_plp_step url result e)
  then settled (fst (known_plp_step url result e))
  else quiet (fst (known_plp_step url result e)).
Proof.
  intros [Hf Hb]. unfold known_plp_step, quiet, settled.
  destruct (result_truthy result) as [r|].
  - destruct (py_eq_str (dict_get r "Relevant") "Closely Related");
      [cbn; auto|].
    destruct (py_eq_str (dict_get r "Relevant") "Loosely Related");
      [cbn; split; [exact Hf | discriminate]|].
    match goal with |- context [best_is_none ?x] => destruct (best_is_none x) end;
      cbn; split; auto; discriminate.
  - match goal with |- context [best_is_none ?x] => destruct (best_is_none x) end;
      cbn; split; auto; discriminate.
Qed.

Lemma known_plp_step_frame (url : string) (result : option pydict) (e : evidence) :
  let e' := fst (known_plp_step url result e) in
  known_plp_assessments e'
  = adict_set (known_plp_assessments e) url (recorded failed_plp_assessment result)
  /\ known_pdp_assessments e' = known_pdp_assessments e
  /\ unknown_url_assessments e' = unknown_url_assessments e
  /\ found_related_pdp e' = found_related_pdp e.
Proof.
  unfold known_plp_step, recorded.
  destruct (result_truthy result) as [r|].
  - destruct (py_eq_str (dict_get r "Relevant") "Closely Related");
      [cbn; auto|].
    destruct (py_eq_str (dict_get r "Relevant") "Loosely Related");
      [cbn; auto|].
    match goal with |- context [best_is_none ?x] => destruct (best_is_none x) end;
      cbn; auto.
  - match goal with |- context [best_is_none ?x] => destruct (best_is_none x) end;
      cbn; auto.
Qed.

Lemma unknown_step_flags (url : string) (result : option pydict) (e : evidence) :
  quiet e ->
  if snd (unknown_step url result e)
  then settled (fst (unknown_step url result e))
  else quiet (fst (unknown_step url result e)).
Proof.
  intros [Hf Hb]. unfold unknown_step, quiet, settled.
  destruct (result_truthy result) as [r|]; [|cbn; auto].
  destruct (py_eq_str (dict_get r "determined_type") "PLP"
            || py_eq_str (dict_get r "determined_type") "Brand Page").
  - destruct (py_eq_str (dict_get r "relevance") "Closely Related"); [cbn; auto|].
    match goal with |- context [py_eq_str ?a "Loosely Related" && ?b] =>
      destruct (py_eq_str a "Loosely Related" && b) end;
      [cbn; split; [exact Hf | discriminate]|].
    match goal with |- context [py_eq_str ?a "Unrelated" && ?b] =>
      destruct (py_eq_str a "Unrelated" && b) end;
      cbn; split; auto; discriminate.
  - destruct (py_eq_str (dict_get r "determined_type") "PDP"); [|cbn; auto].
    destruct (py_eq_str (dict_get r "relevance") "Related"); cbn; auto.
Qed.

Lemma unknown_step_frame (url : string) (result : option pydict) (e : evidence) :
  let e' := fst (unknown_step url result e) in
  known_plp_assessments e' = known_plp_assessments e
  /\ known_pdp_assessments e' = known_pdp_assessments e
  /\ unknown_url_assessments e'
     = adict_set (unknown_url_assessments e) url (recorded failed_unknown_assessment result).
Proof.
  unfold unknown_step, recorded.
  destruct (result_truthy result) as [r|]; [|cbn; auto].
  destruct (py_eq_str (dict_get r "determined_type") "PLP"
            || py_eq_str (dict_get r "determined_type") "Brand Page").
  - destruct (py_eq_str (dict_get r "relevance") "Closely Related"); [cbn; auto|].
    match goal with |- context [py_eq_str ?a "Loosely Related" && ?b] =>
      destruct (py_eq_str a "Loosely Related" && b) end;
      [cbn; auto|].
    match goal with |- context [py_eq_str ?a "Unrelated" && ?b] =>
      destruct (py_eq_str a "Unrelated" && b) end;
      cbn; auto.
  - destruct (py_eq_str (dict_get r "determined_type") "PDP"); [|cbn; auto].
    destruct (py_eq_str (dict_get r "relevance") "Related"); cbn; auto.
Qed.

Lemma known_pdp_step_frame (url : string) (result : option pydict) (e : evidence) :
  let e' := known_pdp_step url result e in
  known_plp_assessments e' = known_plp_assessments e
  /\ unknown_url_assessments e' = unknown_url_assessments e
  /\ known_pdp_assessments e'
     = adict_set (known_pdp_assessments e) url (recorded failed_pdp_assessment result)
  /\ found_closely_related_plp e' = found_closely_related_plp e
  /\ best_plp_relevance e' = best_plp_relevance e.
Proof.
  unfold known_pdp_step, recorded.
  destruct (result_truthy result) as [r|]; [|cbn; auto].
  destruct (py_eq_str (dict_get r "Relevance") "Related"); cbn; auto.
Qed.

(** ** The flag and the running best *)

Lemma quiet_agrees (e : evidence) : quiet e -> flag_agrees e.
Proof. intros [Hf Hb]. unfold flag_agrees. rewrite Hf. split; [discriminate | contradiction]. Qed.

Lemma settled_agrees (e : evidence) : settled e -> flag_agrees e.
Proof. intros [Hf Hb]. unfold flag_agrees. rewrite Hf, Hb. tauto. Qed.

Lemma quiet_or_settled_agrees (e : evidence) : quiet e \/ settled e -> flag_agrees e.
Proof. intros [H | H]; [apply quiet_agrees | apply settled_agrees]; exact H. Qed.

Lemma not_found_quiet (e : evidence) :
  quiet e \/ settled e -> found_closely_related_plp e = false -> quiet e.
Proof. intros [H | [H _]] Hf; [exact H | congruence]. Qed.

Lemma initial_quiet : quiet initial_evidence.
Proof. split; [reflexivity | discriminate]. Qed.

Lemma known_plp_trace_flags (w : world) (keyword : string) (urls : list string) :
  forall (e : evidence) (log : calls),
    quiet e ->
    Forall (fun it => quiet (it_evidence it) \/ settled (it_evidence it))
           (known_plp_trace w keyword urls e log)
    /\ (let e' := fst (trace_end (known_plp_trace w keyword urls e log) e log) in
        quiet e' \/ settled e').
Proof.
  induction urls as [|url urls IH]; intros e log Hq;
    cbn [known_plp_trace trace_end fst]; [split; [constructor | auto]|].
  destruct (assess_category_page_relevance w keyword url log) as [result log'].
  pose proof (known_plp_step_flags url result e Hq) as Hs.
  destruct (known_plp_step url result e) as [e' stop]. cbn [fst snd] in Hs.
  cbn [trace_end it_evidence it_log]. destruct stop.
  - cbn [trace_end]. split; [constructor; [cbn; auto | constructor] | cbn; auto].
  - destruct (IH e' log' Hs) as [H1 H2]. split; [constructor; cbn; auto | exact H2].
Qed.

Lemma unknown_trace_flags (w : world) (keyword : string) (urls : list string) :
  forall (e : evidence) (log : calls),
    quiet e ->
    Forall (fun it => quiet (it_evidence it) \/ settled (it_evidence it))
           (unknown_trace w keyword urls e log)
    /\ (let e' := fst (trace_end (unknown_trace w keyword urls e log) e log) in
        quiet e' \/ settled e').
Proof.
  induction urls as [|url urls IH]; intros e log Hq;
    cbn [unknown_trace trace_end fst]; [split; [constructor | auto]|].
  destruct (classify_and_assess_url w keyword url log) as [result log'].
  pose proof (unknown_step_flags url result e Hq) as Hs.
  destruct (unknown_step url result e) as [e' stop]. cbn [fst snd] in Hs.
  cbn [trace_end it_evidence it_log]. destruct stop.
  - cbn [trace_end]. split; [constructor; [cbn; auto | constructor] | cbn; auto].
  - destruct (IH e' log' Hs) as [H1 H2]. split; [constructor; cbn; auto | exact H2].
Qed.

Lemma known_pdp_step_quiet (url : string) (result : option pydict) (e : evidence) :
  quiet e -> quiet (known_pdp_step url result e).
Proof.
  intros [Hf Hb]. destruct (known_pdp_step_frame url result e) as [_ [_ [_ [H1 H2]]]].
  split; congruence.
Qed.

Lemma known_pdp_trace_flags (w : world) (keyword : string) (urls : list string) :
  forall (e : evidence) (log : calls),
    quiet e ->
    Forall (fun it => quiet (it_evidence it)) (known_pdp_trace w keyword urls e log)
    /\ quiet (fst (trace_end (known_pdp_trace w keyword urls e log) e log)).
Proof.
  induction urls as [|url urls IH]; intros e log Hq;
    cbn [known_pdp_trace trace_end fst]; [split; [constructor | auto]|].
  destruct (assess_product_page_relevance w keyword url log) as [result log'].
  pose proof (known_pdp_step_quiet url result e Hq) as Hs.
  cbn [trace_end it_evidence it_log].
  destruct (IH (known_pdp_step url result e) log' Hs) as [H1 H2].
  split; [constructor; cbn; auto | exact H2].
Qed.

Lemma trace_end_in (t : list iteration) (e : evidence) (log : calls) :
  In (fst (trace_end t e log)) (e :: map it_evidence t).
Proof.
  revert e log. induction t as [|it t IH]; intros e log; cbn [trace_end map].
  - left. reflexivity.
  - right. apply IH.
Qed.

(** C7.  Every value the evidence takes during a keyword's run, from its
    initialisation through each iteration of the Known-PLP, Unknown-URL and
    Known-PDP loops, has [found_closely_related_plp] true exactly when
    [best_plp_relevance] is Closely Related. *)
Theorem flag_agrees_throughout (w : world) (keyword : string)
    (classified_urls : buckets) (log : calls) :
  Forall flag_agrees (evidence_history w keyword classified_urls log).
Proof.
  unfold evidence_history.
  destruct (known_plp_trace_flags w keyword (b_known_plp classified_urls)
              initial_evidence log initial_quiet) as [H3 E3].
  destruct (trace_end (known_plp_trace w keyword (b_known_plp classified_urls)
                         initial_evidence log) initial_evidence log) as [e3 log3].
  cbn [fst] in E3.
  apply Forall_app. split.
  - constructor; [apply quiet_agrees, initial_quiet|].
    apply Forall_map. eapply Forall_impl; [|exact H3].
    intros it. apply quiet_or_settled_agrees.
  - destruct (found_closely_related_plp e3) eqn:F3; [constructor|].
    pose proof (not_found_quiet e3 E3 F3) as Q3.
    destruct (unknown_trace_flags w keyword (b_unknown classified_urls) e3 log3 Q3)
      as [H4 E4].
    destruct (trace_end (unknown_trace w keyword (b_unknown classified_urls) e3 log3)
                e3 log3) as [e4 log4].
    cbn [fst] in E4.
    apply Forall_app. split.
    + apply Forall_map. eapply Forall_impl; [|exact H4].
      intros it. apply quiet_or_settled_agrees.
    + destruct (found_closely_related_plp e4) eqn:F4; [constructor|].
      pose proof (not_found_quiet e4 E4 F4) as Q4.
      destruct (known_pdp_trace_flags w keyword (b_known_pdp classified_urls)
                  e4 log4 Q4) as [H5 _].
      apply Forall_map. eapply Forall_impl; [|exact H5].
      intros it. apply quiet_agrees.
Qed.

(** ** The stages in terms of their traces *)

Lemma gather_evidence_traces (w : world) (keyword : string) (cu : buckets) (log : calls) :
  gather_evidence w keyword cu log
  = let (e3, log3) :=
      trace_end (known_plp_trace w keyword (b_known_plp cu) initial_evidence log)
        initial_evidence log in
    if found_closely_related_plp e3 then (ExitKnownPLP, e3, log3)
    else
      let (e4, log4) :=
        trace_end (unknown_trace w keyword (b_unknown cu) e3 log3) e3 log3 in
      if found_closely_related_plp e4 then (ExitUnknownURL, e4, log4)
      else
        let (e5, log5) :=
          trace_end (known_pdp_trace w keyword (b_known_pdp cu) e4 log4) e4 log4 in
        (ReachedSynthesis, e5, log5).
Proof.
  unfold gather_evidence.
  rewrite <- assess_known_plps_trace.
  replace (match b_known_plp cu with
           | [] => (initial_evidence, log)
           | _ :: _ => assess_known_plps w keyword (b_known_plp cu) initial_evidence log
           end)
    with (assess_known_plps w keyword (b_known_plp cu) initial_evidence log)
    by (destruct (b_known_plp cu); reflexivity).
  destruct (assess_known_plps w keyword (b_known_plp cu) initial_evidence log)
    as [e3 log3].
  destruct (found_closely_related_plp e3) eqn:F3; [reflexivity|].
  rewrite <- assess_unknown_urls_trace.
  destruct (b_unknown cu) as [|u us] eqn:Bu.
  - cbn [assess_unknown_urls]. rewrite F3.
    rewrite <- assess_known_pdps_trace.
    destruct (b_known_pdp cu); reflexivity.
  - destruct (assess_unknown_urls w keyword (u :: us) e3 log3) as [e4 log4].
    destruct (found_closely_related_plp e4); [reflexivity|].
    rewrite <- assess_known_pdps_trace.
    destruct (b_known_pdp cu); reflexivity.
Qed.

(** The evidence a keyword's run ends with is one of the values of its
    history. *)
Lemma gathered_in_history (w : world) (keyword : string) (cu : buckets) (log : calls) :
  In (snd (fst (gather_evidence w keyword cu log))) (evidence_history w keyword cu log).
Proof.
  rewrite gather_evidence_traces. unfold evidence_history.
  pose proof (trace_end_in (known_plp_trace w keyword (b_known_plp cu)
                              initial_evidence log) initial_evidence log) as H3.
  destruct (trace_end (known_plp_trace w keyword (b_known_plp cu) initial_evidence log)
              initial_evidence log) as [e3 log3].
  cbn [fst] in H3. apply in_app_iff.
  destruct (found_closely_related_plp e3); [left; exact H3|].
  pose proof (trace_end_in (unknown_trace w keyword (b_unknown cu) e3 log3) e3 log3)
    as H4.
  destruct (trace_end (unknown_trace w keyword (b_unknown cu) e3 log3) e3 log3)
    as [e4 log4].
  cbn [fst] in H4.
  assert (G4 : In e4 (initial_evidence
                        :: map it_evidence
                             (known_plp_trace w keyword (b_known_plp cu)
                                initial_evidence log))
               \/ In e4 (map it_evidence
                           (unknown_trace w keyword (b_unknown cu) e3 log3))).
  { destruct H4 as [<- | H4]; [left; exact H3 | right; exact H4]. }
  destruct (found_closely_related_plp e4).
  { cbn [fst snd]. rewrite app_nil_r. exact G4. }
  pose proof (trace_end_in (known_pdp_trace w keyword (b_known_pdp cu) e4 log4) e4 log4)
    as H5.
  destruct (trace_end (known_pdp_trace w keyword (b_known_pdp cu) e4 log4) e4 log4)
    as [e5 log5].
  cbn [fst snd] in *.
  destruct H5 as [<- | H5].
  - destruct G4 as [G4 | G4]; [left; exact G4|].
    right. apply in_app_iff. left. exact G4.
  - right. apply in_app_iff. right. exact H5.
Qed.

Lemma adict_set_fresh (d : adict) (url : string) (v : pydict) :
  ~ In url (map fst d) -> adict_set d url v = (d ++ [(url, v)])%list.
Proof.
  induction d as [|[k v'] d IH]; intros Hn; cbn [adict_set app]; [reflexivity|].
  cbn [map fst In] in Hn.
  destruct (String.eqb k url) eqn:E.
  - apply String.eqb_eq in E. tauto.
  - rewrite IH by tauto. reflexivity.
Qed.

Lemma NoDup_app_head (l1 l2 : list string) (x : string) :
  NoDup (l1 ++ x :: l2) -> ~ In x l1 /\ NoDup ((l1 ++ [x]) ++ l2).
Proof.
  intros H. split.
  - apply NoDup_remove_2 in H. intros Hin. apply H. apply in_app_iff. auto.
  - rewrite <- app_assoc. exact H.
Qed.

(** Stage 3 stores one entry per iteration, in order, when the URLs are
    distinct and not yet stored. *)
Lemma known_plp_trace_assessments (w : world) (keyword : string) (urls : list string) :
  forall (e : evidence) (log : calls),
    NoDup (map fst (known_plp_assessments e) ++ urls) ->
    let t := known_plp_trace w keyword urls e log in
    known_plp_assessments (fst (trace_end t e log))
    = (known_plp_assessments e
       ++ map (fun it => (it_url it, recorded failed_plp_assessment (it_result it))) t)%list.
Proof.
  induction urls as [|url urls IH]; intros e log Hnd;
    cbn [known_plp_trace trace_end fst map]; [rewrite app_nil_r; reflexivity|].
  destruct (assess_category_page_relevance w keyword url log) as [result log'].
  destruct (known_plp_step_frame url result e) as [Hk _].
  destruct (known_plp_step url result e) as [e' stop]. cbn [fst] in Hk.
  apply NoDup_app_head in Hnd. destruct Hnd as [Hfresh Hnd].
  rewrite adict_set_fresh in Hk by exact Hfresh.
  cbn [trace_end it_evidence it_log map it_url it_result].
  destruct stop.
  - cbn [trace_end map fst]. exact Hk.
  - cbv zeta in IH. rewrite IH.
    + rewrite Hk, <- app_assoc. reflexivity.
    + rewrite Hk, map_app. exact Hnd.
Qed.

Lemma unknown_trace_assessments (w : world) (keyword : string) (urls : list string) :
  forall (e : evidence) (log : calls),
    NoDup (map fst (unknown_url_assessments e) ++ urls) ->
    let t := unknown_trace w keyword urls e log in
    unknown_url_assessments (fst (trace_end t e log))
    = (unknown_url_assessments e
       ++ map (fun it => (it_url it, recorded failed_unknown_assessment (it_result it))) t)%list.
Proof.
  induction urls as [|url urls IH]; intros e log Hnd;
    cbn [unknown_trace trace_end fst map]; [rewrite app_nil_r; reflexivity|].
  destruct (classify_and_assess_url w keyword url log) as [result log'].
  destruct (unknown_step_frame url result e) as [_ [_ Hk]].
  destruct (unknown_step url result e) as [e' stop]. cbn [fst] in Hk.
  apply NoDup_app_head in Hnd. destruct Hnd as [Hfresh Hnd].
  rewrite adict_set_fresh in Hk by exact Hfresh.
  cbn [trace_end it_evidence it_log map it_url it_result].
  destruct stop.
  - cbn [trace_end map fst]. exact Hk.
  - cbv zeta in IH. rewrite IH.
    + rewrite Hk, <- app_assoc. reflexivity.
    + rewrite Hk, map_app. exact Hnd.
Qed.

Lemma known_pdp_trace_assessments (w : world) (keyword : string) (urls : list string) :
  forall (e : evidence) (log : calls),
    NoDup (map fst (known_pdp_assessments e) ++ urls) ->
    let t := known_pdp_trace w keyword urls e log in
    known_pdp_assessments (fst (trace_end t e log))
    = (known_pdp_assessments e
       ++ map (fun it => (it_url it, recorded failed_pdp_assessment (it_result it))) t)%list.
Proof.
  induction urls as [|url urls IH]; intros e log Hnd;
    cbn [known_pdp_trace trace_end fst map]; [rewrite app_nil_r; reflexivity|].
  destruct (assess_product_page_relevance w keyword url log) as [result log'].
  destruct (known_pdp_step_frame url result e) as [_ [_ [Hk _]]].
  apply NoDup_app_head in Hnd. destruct Hnd as [Hfresh Hnd].
  rewrite adict_set_fresh in Hk by exact Hfresh.
  cbn [trace_end it_evidence it_log map it_url it_result].
  cbv zeta in IH. rewrite IH.
  - rewrite Hk, <- app_assoc. reflexivity.
  - rewrite Hk, map_app. exact Hnd.
Qed.

(** Stage 3 leaves the other two assessment dicts and the detail flag alone. *)
Lemma known_plp_trace_frame (w : world) (keyword : string) (urls : list string) :
  forall (e : evidence) (log : calls),
    let e' := fst (trace_end (known_plp_trace w keyword urls e log) e log) in
    known_pdp_assessments e' = known_pdp_assessments e
    /\ unknown_url_assessments e' = unknown_url_assessments e
    /\ found_related_pdp e' = found_related_pdp e.
Proof.
  induction urls as [|url urls IH]; intros e log;
    cbn [known_plp_trace trace_end fst]; [auto|].
  destruct (assess_category_page_relevance w keyword url log) as [result log'].
  destruct (known_plp_step_frame url result e) as [_ [H1 [H2 H3]]].
  destruct (known_plp_step url result e) as [e' stop]. cbn [fst] in H1, H2, H3.
  cbn [trace_end it_evidence it_log].
  destruct stop; cbn [trace_end fst]; [auto|].
  destruct (IH e' log') as [G1 [G2 G3]]. cbv zeta in G1, G2, G3.
  repeat split; congruence.
Qed.

(** How a stage-3 trace splits around one of its iterations. *)
Lemma known_plp_trace_split (w : world) (keyword : string) (urls : list string) :
  forall (e : evidence) (log : calls) (pre post : list iteration) (it : iteration),
    known_plp_trace w keyword urls e log = (pre ++ it :: post)%list ->
    (exists rest, urls = (map it_url pre ++ it_url it :: rest)%list)
    /\ it_log it
       = (log ++ logged w CategoryPrompt keyword (map it_url pre ++ [it_url it]))%list
    /\ Forall (fun i => closely_related_verdict (it_result i) = false) pre
    /\ (closely_related_verdict (it_result it) = true ->
        post = []
        /\ found_closely_related_plp (it_evidence it) = true
        /\ trace_end (pre ++ it :: post) e log = (it_evidence it, it_log it)).
Proof.
  induction urls as [|url urls IH]; intros e log pre post it;
    cbn [known_plp_trace].
  - destruct pre; discriminate.
  - pose proof (category_log w keyword url log) as Hlog.
    destruct (assess_category_page_relevance w keyword url log) as [result log'].
    cbn [snd] in Hlog.
    pose proof (known_plp_step_stop url result e) as Hstop.
    pose proof (known_plp_step_found url result e) as Hfl.
    destruct (known_plp_step url result e) as [e' stop]. cbn [fst snd] in Hstop, Hfl.
    destruct pre as [|p pre]; cbn [app map]; intros H; injection H as Hhd Htl.
    + subst it. cbn [it_url it_result it_log it_evidence].
      split; [exists urls; reflexivity|]. split; [exact Hlog|].
      split; [constructor|]. intros Hc. rewrite Hc in Hstop. subst stop.
      subst post. split; [reflexivity|]. split; [|reflexivity].
      apply Hfl. reflexivity.
    + subst p. destruct stop; [destruct pre; discriminate|].
      destruct (IH e' log' pre post it Htl) as [[rest Hr] [Hl [Hf Hc]]].
      cbn [it_url it_result].
      split; [exists rest; congruence|].
      split.
      { rewrite Hl, Hlog, <- app_assoc, <- logged_cons. reflexivity. }
      split; [constructor; [symmetry; exact Hstop | exact Hf]|].
      intros Hcl. destruct (Hc Hcl) as [-> [F T]]. repeat split; auto.
Qed.

Lemma known_plp_trace_no_key (w : world) (keyword : string) (urls : list string) :
  forall (e : evidence) (log : calls),
    FIRECRAWL_API_KEY w = false ->
    Forall (fun it => it_result it = None) (known_plp_trace w keyword urls e log).
Proof.
  induction urls as [|url urls IH]; intros e log Hk; cbn [known_plp_trace];
    [constructor|].
  pose proof (category_fails w keyword url log
                (call_firecrawl_no_key w CategoryPrompt keyword url log Hk)) as Hr.
  destruct (assess_category_page_relevance w keyword url log) as [result log'].
  cbn [fst] in Hr. subst result.
  destruct (known_plp_step url None e) as [e' stop].
  constructor; [reflexivity|]. destruct stop; [constructor | apply IH; exact Hk].
Qed.

(** C5.  When an iteration of the Known-PLP loop obtains a Closely Related
    verdict, it is the last iteration of that loop and the only one with
    such a verdict; the URLs after it are assessed by no call; the keyword's
    decision is that the existing page is sufficient; and the only calls
    made for the keyword after the search are the listing assessments up to
    and including that URL, so the Unknown-URL, Known-PDP and final-decision
    stages are not run. *)
Theorem closely_related_known_plp_ends_run
    (w : world) (known : list string) (keyword : string) (html : pyval)
    (row : serp_row) (rows : list serp_row) (log : calls)
    (pre post : list iteration) (it : iteration) :
  let serp_df := row :: rows in
  let classified_urls := classify_serp known (ranking_urls serp_df) in
  known_plp_trace w keyword (b_known_plp classified_urls) initial_evidence log
  = (pre ++ it :: post)%list ->
  closely_related_verdict (it_result it) = true ->
  post = []
  /\ Forall (fun i => closely_related_verdict (it_result i) = false) pre
  /\ (exists rest,
        b_known_plp classified_urls = (map it_url pre ++ it_url it :: rest)%list)
  /\ Decision (fst (process_serp w known keyword html serp_df log)) = ExistingSufficient
  /\ Justification (fst (process_serp w known keyword html serp_df log))
     = "A 'Closely Related' Known PLP was found in SERP."
  /\ snd (process_serp w known keyword html serp_df log)
     = (log ++ map (adapter_call CategoryPrompt keyword)
                   (map it_url pre ++ [it_url it]))%list
  /\ map fst (Known_PLP_Assessment (fst (process_serp w known keyword html serp_df log)))
     = (map it_url pre ++ [it_url it])%list
  /\ Unknown_URL_Assessment (fst (process_serp w known keyword html serp_df log)) = []
  /\ Known_PDP_Assessment (fst (process_serp w known keyword html serp_df log)) = [].
Proof.
  intros serp_df cu Ht Hc.
  destruct (known_plp_trace_split w keyword (b_known_plp cu) initial_evidence log
              pre post it Ht) as [Hrest [Hlog [Hpre Hlast]]].
  destruct (Hlast Hc) as [-> [Hfound Hend]].
  assert (Hkey : FIRECRAWL_API_KEY w = true).
  { destruct (FIRECRAWL_API_KEY w) eqn:K; [reflexivity|].
    pose proof (known_plp_trace_no_key w keyword (b_known_plp cu)
                  initial_evidence log K) as Hn.
    rewrite Ht in Hn. apply Forall_app in Hn. destruct Hn as [_ Hn].
    inversion Hn as [|? ? Hit _]. rewrite Hit in Hc. discriminate. }
  pose proof (known_plp_trace_assessments w keyword (b_known_plp cu)
                initial_evidence log) as Hass.
  cbv zeta in Hass. rewrite Ht, Hend in Hass. cbn [fst] in Hass.
  pose proof (known_plp_trace_frame w keyword (b_known_plp cu) initial_evidence log)
    as Hfr.
  cbv zeta in Hfr. rewrite Ht, Hend in Hfr. cbn [fst] in Hfr.
  destruct Hfr as [Hpdp [Hunk _]].
  split; [reflexivity|]. split; [exact Hpre|]. split; [exact Hrest|].
  unfold process_serp. fold serp_df. unfold serp_df at 1 4 7 10 13.
  fold cu. rewrite gather_evidence_traces, Ht, Hend, Hfound.
  cbn [decide fst snd Decision Justification Known_PLP_Assessment
       Unknown_URL_Assessment Known_PDP_Assessment].
  split; [reflexivity|]. split; [reflexivity|].
  split; [rewrite Hlog; unfold logged; rewrite Hkey; reflexivity|].
  split.
  - rewrite Hass by (apply (bucket_nodup known (ranking_urls serp_df) KnownPLP)).
    cbn [app known_plp_assessments initial_evidence].
    rewrite map_map. cbn [fst]. rewrite map_app. reflexivity.
  - split; [exact Hunk | exact Hpdp].
Qed.

(** ** Stage 6 *)

Lemma final_decision_table (best : option plp_relevance) (found : bool) :
  fst (final_decision best found) = decision_table best found.
Proof. destruct best as [[]|]; destruct found; reflexivity. Qed.

Lemma final_decision_justified (best : option plp_relevance) (found : bool) :
  snd (final_decision best found) <> "".
Proof. destruct best as [[]|]; destruct found; discriminate. Qed.

Lemma final_decision_quiet (best : option plp_relevance) (found : bool) :
  best <> Some CloselyRelated -> fst (final_decision best found) <> Error.
Proof.
  destruct best as [[]|]; destruct found; intros H; try discriminate.
  all: contradiction H; reflexivity.
Qed.


(** The evidence the final decision logic sees has no Closely Related
    listing in it. *)
Lemma synthesis_quiet (w : world) (keyword : string) (cu : buckets) (log : calls)
    (e : evidence) (log' : calls) :
  gather_evidence w keyword cu log = (ReachedSynthesis, e, log') -> quiet e.
Proof.
  rewrite gather_evidence_traces.
  destruct (known_plp_trace_flags w keyword (b_known_plp cu) initial_evidence log
              initial_quiet) as [_ E3].
  destruct (trace_end (known_plp_trace w keyword (b_known_plp cu) initial_evidence log)
              initial_evidence log) as [e3 log3].
  cbn [fst] in E3.
  destruct (found_closely_related_plp e3) eqn:F3; [discriminate|].
  destruct (unknown_trace_flags w keyword (b_unknown cu) e3 log3
              (not_found_quiet e3 E3 F3)) as [_ E4].
  destruct (trace_end (unknown_trace w keyword (b_unknown cu) e3 log3) e3 log3)
    as [e4 log4].
  cbn [fst] in E4.
  destruct (found_closely_related_plp e4) eqn:F4; [discriminate|].
  destruct (known_pdp_trace_flags w keyword (b_known_pdp cu) e4 log4
              (not_found_quiet e4 E4 F4)) as [_ E5].
  destruct (trace_end (known_pdp_trace w keyword (b_known_pdp cu) e4 log4) e4 log4)
    as [e5 log5].
  cbn [fst] in E5. intros H. injection H as <- _. exact E5.
Qed.

(** C6.  The final decision logic computes the decision table, row by row,
    including the Error row for a Closely Related best; and whenever a
    keyword's run reaches that logic, its decision is the table's entry for
    the pair of the best listing relevance and the related-detail flag held
    at that point, whatever calls produced them. *)
Theorem synthesis_decision_table :
  (forall best found, fst (final_decision best found) = decision_table best found)
  /\ (forall (w : world) (known : list string) (keyword : string) (html : pyval)
             (row : serp_row) (rows : list serp_row) (log : calls)
             (e : evidence) (log' : calls),
        gather_evidence w keyword (classify_serp known (ranking_urls (row :: rows))) log
        = (ReachedSynthesis, e, log') ->
        Decision (fst (process_serp w known keyword html (row :: rows) log))
        = decision_table (best_plp_relevance e) (found_related_pdp e)).
Proof.
  split; [apply final_decision_table|].
  intros w known keyword html row rows log e log' H.
  unfold process_serp. rewrite H. cbn [decide].
  rewrite <- final_decision_table.
  destruct (final_decision (best_plp_relevance e) (found_related_pdp e)).
  reflexivity.
Qed.

(** ** When the extraction service is unreachable *)

Section Unreachable.

Variable w : world.
Variable keyword : string.
Hypothesis unreachable :
  forall l kind kw u, firecrawl_extract w l kind kw u = FcRaises.







End Unreachable.



(** ** One result per keyword *)

Lemma process_serp_result (w : world) (known : list string) (keyword : string)
    (html : pyval) (serp_df : list serp_row) (log : calls) :
  let r := fst (process_serp w known keyword html serp_df log) in
  Keyword r = keyword /\ Decision r <> Error /\ Justification r <> "".
Proof.
  unfold process_serp. destruct serp_df as [|row rows].
  - cbn. repeat split; discriminate.
  - destruct (gather_evidence w keyword
                (classify_serp known (ranking_urls (row :: rows))) log)
      as [[x e] log'] eqn:G.
    destruct x; cbn [decide].
    + cbn. repeat split; discriminate.
    + cbn. repeat split; discriminate.
    + pose proof (synthesis_quiet _ _ _ _ _ _ G) as [_ Hq].
      pose proof (final_decision_quiet (best_plp_relevance e) (found_related_pdp e) Hq)
        as Hd.
      pose proof (final_decision_justified (best_plp_relevance e) (found_related_pdp e))
        as Hj.
      destruct (final_decision (best_plp_relevance e) (found_related_pdp e)) as [d j].
      cbn in *. auto.
Qed.

Lemma analyze_keyword_returns (w : world) (known : list string) (keyword : string)
    (log : calls) (html : pyval) (serp_df : list serp_row) :
  fst (get_organic_results w keyword TARGET_SITE log) = Tuple2 html serp_df ->
  exists r log',
    analyze_keyword w known keyword log = (Returned r, log')
    /\ Keyword r = keyword /\ Decision r <> Error /\ Justification r <> "".
Proof.
  intros H. unfold analyze_keyword.
  destruct (get_organic_results w keyword TARGET_SITE log) as [ret log1].
  cbn [fst] in H. subst ret.
  pose proof (process_serp_result w known keyword html serp_df log1) as Hr.
  destruct (process_serp w known keyword html serp_df log1) as [r log2].
  exists r, log2. split; [reflexivity | exact Hr].
Qed.

Lemma analyze_keyword_result (w : world) (known : list string) (keyword : string)
    (log log' : calls) (r : keyword_result) :
  analyze_keyword w known keyword log = (Returned r, log') ->
  Keyword r = keyword /\ Decision r <> Error /\ Justification r <> "".
Proof.
  unfold analyze_keyword.
  destruct (get_organic_results w keyword TARGET_SITE log) as [[html df|a b c] log1];
    [|discriminate].
  pose proof (process_serp_result w known keyword html df log1) as Hr.
  destruct (process_serp w known keyword html df log1) as [r' log2].
  intros H. injection H as <- _. exact Hr.
Qed.

Lemma analyze_loop_results (w : world) (known : list string) :
  forall (keywords : list string) (acc out : list keyword_result) (log log' : calls),
    analyze_loop w known keywords acc log = (Returned out, log') ->
    exists rs,
      out = (acc ++ rs)%list
      /\ map Keyword rs = keywords
      /\ Forall (fun r => Decision r <> Error /\ Justification r <> "") rs.
Proof.
  induction keywords as [|keyword rest IH]; intros acc out log log' H;
    cbn [analyze_loop] in H.
  - injection H as <- _. exists []. rewrite app_nil_r. repeat split. constructor.
  - destruct (analyze_keyword w known keyword log) as [[r|e] log1] eqn:A;
      [|discriminate].
    destruct (analyze_keyword_result _ _ _ _ _ _ A) as [Hk Hd].
    destruct (IH _ _ _ _ H) as [rs [Ho [Hm Hf]]].
    exists (r :: rs). split; [rewrite Ho, <- app_assoc; reflexivity|].
    split; [cbn [map]; congruence | constructor; assumption].
Qed.

Lemma analyze_loop_app (w : world) (known : list string) :
  forall (keywords1 keywords2 : list string) (acc : list keyword_result)
         (log : calls),
    analyze_loop w known (keywords1 ++ keywords2) acc log
    = match analyze_loop w known keywords1 acc log with
      | (Returned rs, log1) => analyze_loop w known keywords2 rs log1
      | (Raised e, log1) => (Raised e, log1)
      end.
Proof.
  induction keywords1 as [|keyword rest IH]; intros keywords2 acc log;
    cbn [app analyze_loop]; [reflexivity|].
  destruct (analyze_keyword w known keyword log) as [[r|e] log1]; [|reflexivity].
  apply IH.
Qed.

(** C2, on the code.  Take a batch whose keywords so far have all returned.
    Those keywords have exactly one result each, in keyword order, none with
    the decision Error and none without a justification.  If the search of
    the next keyword returns its success pair, exactly one result is
    appended for it, again not Error, whatever the extraction service does.
    If the search returns its failure triple, the run raises [ValueError]
    at the unpacking: the keyword gets no result, the keywords after it are
    not processed, and the results gathered so far are not returned. *)
Theorem keyword_result_unless_search_fails
    (w : world) (known before : list string) (keyword : string)
    (log log1 : calls) (rs : list keyword_result) :
  analyze_keywords w before known log = (Returned rs, log1) ->
  map Keyword rs = before
  /\ Forall (fun r => Decision r <> Error /\ Justification r <> "") rs
  /\ (forall html df,
        fst (get_organic_results w keyword TARGET_SITE log1) = Tuple2 html df ->
        exists r log2,
          analyze_keywords w (before ++ [keyword]) known log
          = (Returned (rs ++ [r])%list, log2)
          /\ Keyword r = keyword /\ Decision r <> Error /\ Justification r <> "")
  /\ (forall a b c,
        fst (get_organic_results w keyword TARGET_SITE log1) = Tuple3 a b c ->
        forall rest,
          analyze_keywords w (before ++ keyword :: rest) known log
          = (Raised (ValueError "too many values to unpack (expected 2)"),
             snd (get_organic_results w keyword TARGET_SITE log1))).
Proof.
  unfold analyze_keywords. intros H.
  destruct (analyze_loop_results _ _ _ _ _ _ _ H) as [rs' [Ho [Hm Hf]]].
  cbn [app] in Ho. subst rs'.
  split; [exact Hm|]. split; [exact Hf|]. split.
  - intros html df Hg.
    destruct (analyze_keyword_returns w known keyword log1 html df Hg)
      as [r [log2 [Ha Hr]]].
    exists r, log2. split; [|exact Hr].
    rewrite analyze_loop_app, H. cbn [analyze_loop]. rewrite Ha. reflexivity.
  - intros a b c Hg rest.
    rewrite analyze_loop_app, H. cbn [analyze_loop]. unfold analyze_keyword.
    destruct (get_organic_results w keyword TARGET_SITE log1) as [ret l].
    cbn [fst] in Hg. subst ret. reflexivity.
Qed.

(** ** The combined assessment *)

Lemma py_in_strs_In (s : string) (l : list string) :
  py_in_strs (PStr s) l = true <-> In s l.
Proof. unfold py_in_strs. cbn [py_eq_str]. apply existsb_eqb_In. Qed.

Lemma dict_get_str (d : pydict) (k s : string) :
  dict_get d k = PStr s <-> dict_lookup d k = Some (PStr s).
Proof.
  unfold dict_get. destruct (dict_lookup d k) as [v|].
  - split; congruence.
  - split; discriminate.
Qed.

Lemma py_in_strs_iff (v : pyval) (l : list string) :
  py_in_strs v l = true <-> exists s, v = PStr s /\ In s l.
Proof.
  split.
  - unfold py_in_strs. intros H. apply existsb_exists in H.
    destruct H as [x [Hin Hx]]. destruct v; try discriminate.
    cbn [py_eq_str] in Hx. apply String.eqb_eq in Hx. subst x.
    exists s. auto.
  - intros [s [-> Hin]]. apply py_in_strs_In. exact Hin.
Qed.

Lemma validate_combined_spec (result : option pyval) (d : pydict) :
  validate_combined result = Some d <->
  result = Some (PDict d)
  /\ dict_has d "analysis" = true
  /\ (exists type, dict_lookup d "determined_type" = Some (PStr type)
                   /\ In type allowed_types)
  /\ (exists relevance, dict_lookup d "relevance" = Some (PStr relevance)
                        /\ In relevance allowed_relevance).
Proof.
  unfold validate_combined. split.
  - destruct result as [[| | | | |d']|]; try discriminate.
    destruct (truthy (PDict d') && dict_has d' "determined_type"
              && dict_has d' "relevance" && dict_has d' "analysis") eqn:E;
      [|discriminate].
    destruct (py_in_strs (dict_get d' "determined_type") allowed_types
              && py_in_strs (dict_get d' "relevance") allowed_relevance) eqn:V;
      [|discriminate].
    intros H. injection H as <-.
    apply andb_true_iff in E. destruct E as [_ E4].
    apply andb_true_iff in V. destruct V as [V1 V2].
    apply py_in_strs_iff in V1. apply py_in_strs_iff in V2.
    destruct V1 as [t [Ht Hint]]. destruct V2 as [rel [Hr Hinr]].
    apply dict_get_str in Ht. apply dict_get_str in Hr.
    split; [reflexivity|]. split; [exact E4|].
    split; [exists t | exists rel]; auto.
  - intros [-> [Ha [[t [Ht Hint]] [rel [Hr Hinr]]]]].
    assert (Hn : truthy (PDict d) = true).
    { destruct d; [discriminate Ht | reflexivity]. }
    rewrite Hn, Ha. unfold dict_has at 1 2. rewrite Ht, Hr. cbn [andb].
    unfold dict_get. rewrite Ht, Hr.
    apply py_in_strs_In in Hint. apply py_in_strs_In in Hinr.
    rewrite Hint, Hinr. reflexivity.
Qed.

Lemma unknown_recorded (url : string) (r : pydict) (e : evidence) :
  r <> [] ->
  In (url, r) (unknown_url_assessments (fst (unknown_step url (Some r) e))).
Proof.
  intros Hr. unfold unknown_step.
  destruct r as [|kv r]; [contradiction Hr; reflexivity|]. cbn [result_truthy].
  assert (H : In (url, kv :: r)
                (unknown_url_assessments (set_unknown e url (kv :: r)))).
  { cbn [set_unknown unknown_url_assessments].
    induction (unknown_url_assessments e) as [|[k v'] a IH]; cbn [adict_set];
      [left; reflexivity|].
    destruct (String.eqb k url) eqn:E.
    - apply String.eqb_eq in E. subst k. left. reflexivity.
    - right. exact IH. }
  repeat match goal with
         | |- context [if ?b then _ else _] => destruct b
         end; exact H.
Qed.

(** C10.  The combined assessment returns the extracted payload exactly
    when the payload has its three keys, its page type is one of the five
    allowed types and its relevance is one of the five values of the union
    of the two scales: the two memberships are tested separately, so any
    allowed type goes with any allowed value, and a value outside the union
    is refused.  In the Unknown-URL loop an accepted result is recorded as
    returned.  A result typed PDP leaves the best listing relevance and the
    closely-related flag as they were and does not end the loop, and it
    sets the related-detail flag only for the value Related.  A result
    typed PLP or Brand Page leaves the related-detail flag as it was, and
    with a value of the detail scale it leaves the best listing relevance
    and the closely-related flag as they were too. *)
Theorem combined_validation_is_scale_blind :
  (forall (w : world) (keyword url : string) (log : calls) (d : pydict),
      fst (classify_and_assess_url w keyword url log) = Some d <->
      fst (call_firecrawl_extract w CombinedPrompt keyword url log) = Some (PDict d)
      /\ dict_has d "analysis" = true
      /\ (exists type, dict_lookup d "determined_type" = Some (PStr type)
                       /\ In type allowed_types)
      /\ (exists relevance, dict_lookup d "relevance" = Some (PStr relevance)
                            /\ In relevance allowed_relevance))
  /\ (forall (url : string) (r : pydict) (e : evidence),
        py_eq_str (dict_get r "determined_type") "PDP" = true ->
        let e' := fst (unknown_step url (Some r) e) in
        best_plp_relevance e' = best_plp_relevance e
        /\ found_closely_related_plp e' = found_closely_related_plp e
        /\ snd (unknown_step url (Some r) e) = false
        /\ found_related_pdp e'
           = found_related_pdp e || py_eq_str (dict_get r "relevance") "Related"
        /\ In (url, r) (unknown_url_assessments e'))
  /\ (forall (url : string) (r : pydict) (e : evidence),
        py_eq_str (dict_get r "determined_type") "PLP" = true
        \/ py_eq_str (dict_get r "determined_type") "Brand Page" = true ->
        let e' := fst (unknown_step url (Some r) e) in
        found_related_pdp e' = found_related_pdp e
        /\ In (url, r) (unknown_url_assessments e')
        /\ (py_in_strs (dict_get r "relevance") detail_only_relevance = true ->
            best_plp_relevance e' = best_plp_relevance e
            /\ found_closely_related_plp e' = found_closely_related_plp e
            /\ snd (unknown_step url (Some r) e) = false)).
Proof.
  split; [|split].
  - intros w keyword url log d. unfold classify_and_assess_url.
    destruct (call_firecrawl_extract w CombinedPrompt keyword url log) as [result l].
    cbn [fst]. apply validate_combined_spec.
  - intros url r e Ht e'.
    assert (Hn : r <> []) by (intros ->; discriminate Ht).
    pose proof (unknown_recorded url r e Hn) as Hrec. fold e' in Hrec.
    subst e'. revert Hrec. unfold unknown_step.
    destruct r as [|kv r]; [discriminate Ht|]. cbn [result_truthy].
    destruct (dict_get (kv :: r) "determined_type") as [| | |s| |]; try discriminate.
    cbn [py_eq_str] in *. apply String.eqb_eq in Ht. subst s.
    cbn [String.eqb Ascii.eqb Bool.eqb orb andb].
    destruct (py_eq_str (dict_get (kv :: r) "relevance") "Related"); cbn;
      intros Hrec; repeat split; auto using orb_true_r, orb_false_r.
  - intros url r e Ht e'.
    assert (Hn : r <> []) by (intros ->; destruct Ht; discriminate).
    pose proof (unknown_recorded url r e Hn) as Hrec. fold e' in Hrec.
    subst e'. revert Hrec. unfold unknown_step.
    destruct r as [|kv r]; [contradiction Hn; reflexivity|]. cbn [result_truthy].
    assert (Ho : py_eq_str (dict_get (kv :: r) "determined_type") "PLP"
                 || py_eq_str (dict_get (kv :: r) "determined_type") "Brand Page" = true)
      by (apply orb_true_iff; exact Ht).
    rewrite Ho.
    destruct (dict_get (kv :: r) "relevance") as [| | |s| |];
      cbn [py_eq_str py_in_strs existsb detail_only_relevance andb orb];
      try (intros Hrec; split; [reflexivity|]; split; [exact Hrec|];
           intros; repeat split; reflexivity).
    destruct (String.eqb s "Closely Related") eqn:E1.
    { apply String.eqb_eq in E1. subst s. cbn.
      intros Hrec. split; [reflexivity|]. split; [exact Hrec|]. discriminate. }
    destruct (String.eqb s "Loosely Related") eqn:E2.
    { apply String.eqb_eq in E2. subst s.
      destruct (negb (best_is_closely
                        (set_ai_plp (set_unknown e url (kv :: r)) url (kv :: r))));
        cbn; intros Hrec; (split; [reflexivity|]); (split; [exact Hrec|]);
        discriminate. }
    destruct (String.eqb s "Unrelated") eqn:E3.
    { apply String.eqb_eq in E3. subst s.
      destruct (best_is_none
                  (set_ai_plp (set_unknown e url (kv :: r)) url (kv :: r)));
        cbn; intros Hrec; (split; [reflexivity|]); (split; [exact Hrec|]);
        discriminate. }
    cbn. intros Hrec. split; [reflexivity|]. split; [exact Hrec|].
    intros _. repeat split; reflexivity.
Qed.

(** ** The search stage *)

(** C1, on the code.  When the HTTP request of the search raises,
    [get_organic_results] returns a triple (no reference, empty frame, no
    reference), and the keyword loop, which unpacks two values, raises
    [ValueError]: the batch ends at that keyword with no result returned. *)
Theorem search_failure_raises
    (w : world) (known : list string) (keyword : string) (rest : list string)
    (log : calls) :
  SERPAPI_API_KEY w = true ->
  requests_get w log (serp_query keyword TARGET_SITE) = HttpRequestException ->
  get_organic_results w keyword TARGET_SITE log
  = (Tuple3 PNone [] PNone,
     (log ++ [SerpApiRequest (serp_query keyword TARGET_SITE)])%list)
  /\ analyze_keywords w (keyword :: rest) known log
     = (Raised (ValueError "too many values to unpack (expected 2)"),
        (log ++ [SerpApiRequest (serp_query keyword TARGET_SITE)])%list).
Proof.
  intros Hk Hr.
  assert (Hg : get_organic_results w keyword TARGET_SITE log
               = (Tuple3 PNone [] PNone,
                  (log ++ [SerpApiRequest (serp_query keyword TARGET_SITE)])%list)).
  { unfold get_organic_results. rewrite Hk. cbn [negb]. rewrite Hr. reflexivity. }
  split; [exact Hg|].
  unfold analyze_keywords. cbn [analyze_loop]. unfold analyze_keyword.
  rewrite Hg. reflexivity.
Qed.

(** ** The homepage *)

Lemma scheme_char_not_colon (c : ascii) :
  is_scheme_char c = true -> Ascii.eqb (to_lower c) ":" = false.
Proof.
  destruct c as [[] [] [] [] [] [] [] []]; vm_compute; intros H;
    first [reflexivity | discriminate H].
Qed.

Lemma lowered_scheme_no_colon (s : string) :
  string_forallb is_scheme_char s = true ->
  has_char ":" (string_map to_lower s) = false.
Proof.
  unfold has_char. induction s as [|c s IH]; cbn [string_forallb string_map]; intros H.
  - reflexivity.
  - apply andb_true_iff in H. destruct H as [Hc Hs].
    rewrite (scheme_char_not_colon c Hc). cbn [negb andb].
    apply IH. exact Hs.
Qed.

Lemma split_scheme_no_colon (url : string) :
  has_char ":" (fst (split_scheme url)) = false.
Proof.
  unfold split_scheme.
  destruct (split_on ":" url) as [[[|c0 pre] rest]|]; try reflexivity.
  destruct (is_alpha c0 && string_forallb is_scheme_char (String c0 pre)) eqn:E;
    [|reflexivity].
  apply andb_true_iff in E. destruct E as [_ E].
  cbn [fst]. apply lowered_scheme_no_colon. exact E.
Qed.

Lemma splitnetloc_no_slash (s : string) :
  has_char "/" (fst (splitnetloc s)) = false.
Proof.
  unfold has_char. induction s as [|a s IH]; cbn [splitnetloc]; [reflexivity|].
  destruct (is_netloc_delim a) eqn:E; [reflexivity|].
  destruct (splitnetloc s) as [n r]. cbn [fst string_forallb] in *.
  unfold is_netloc_delim in E. apply orb_false_iff in E. destruct E as [E _].
  apply orb_false_iff in E. destruct E as [E _]. rewrite E. cbn [negb andb].
  exact IH.
Qed.

Lemma urlparse_parts (u : string) (parsed : ParseResult) :
  urlparse u = Some parsed ->
  has_char ":" (p_scheme parsed) = false /\ has_char "/" (p_netloc parsed) = false.
Proof.
  unfold urlparse, urlsplit.
  set (s0 := string_filter (fun c => negb (is_unsafe c)) (lstrip_c0 u)).
  pose proof (split_scheme_no_colon s0) as Hs.
  destruct (split_scheme s0) as [scheme url0]. cbn [fst] in Hs.
  set (nr := match url0 with
             | String "/" (String "/" after) => Some (splitnetloc after)
             | _ => None
             end).
  assert (Hn : has_char "/" (match nr with Some (n, _) => n | None => "" end) = false).
  { unfold nr. destruct url0 as [|a rest]; [reflexivity|].
    destruct a as [[] [] [] [] [] [] [] []]; try reflexivity.
    destruct rest as [|b after]; [reflexivity|].
    destruct b as [[] [] [] [] [] [] [] []]; try reflexivity.
    pose proof (splitnetloc_no_slash after) as H.
    destruct (splitnetloc after). exact H. }
  destruct (_ || _); [discriminate|].
  destruct (_ && negb (check_bracketed_netloc _)); [discriminate|].
  repeat match goal with
         | |- context [match ?x with Some p => p | None => _ end] => destruct x as [[? ?]|]
         | |- context [if ?c then splitparams ?u else _] => destruct c
         | |- context [let (_, _) := splitparams ?u in _] => destruct (splitparams u)
         end;
    intros H; injection H as <-; cbn [p_scheme p_netloc]; split; assumption.
Qed.

Lemma append_char_unique (c : ascii) (a a' r r' : string) :
  has_char c a = false -> has_char c a' = false ->
  a ++ String c r = a' ++ String c r' -> a = a' /\ r = r'.
Proof.
  unfold has_char. revert a'.
  induction a as [|x a IH]; intros [|y a']; cbn [append string_forallb];
    intros Ha Ha' H.
  - injection H as ->. auto.
  - injection H as <- _. rewrite Ascii.eqb_refl in Ha'. discriminate.
  - injection H as -> _. rewrite Ascii.eqb_refl in Ha. discriminate.
  - injection H as -> H.
    destruct (Ascii.eqb y c); [discriminate|]. cbn [negb andb] in Ha, Ha'.
    destruct (IH a' Ha Ha' H) as [-> ->]. auto.
Qed.

Lemma urlunparse_clean (scheme netloc path : string) :
  str_nonempty scheme = true -> str_nonempty netloc = true ->
  path = "" \/ startswith path "/" = true ->
  urlunparse (mkParse scheme netloc path "" "" "")
  = scheme ++ String ":" ("//" ++ netloc ++ path).
Proof.
  intros Hs Hn Hp. unfold urlunparse.
  cbn [p_scheme p_netloc p_path p_params p_query p_fragment str_nonempty].
  rewrite Hs, Hn. cbn [orb].
  replace (str_nonempty path && negb (startswith path "/")) with false.
  - reflexivity.
  - destruct Hp as [-> | Hp]; [reflexivity|]. rewrite Hp.
    destruct (str_nonempty path); reflexivity.
Qed.

(** No URL normalises to the configured site root: its trailing slash is
    always stripped. *)
Lemma clean_url_never_homepage (url : pyval) (c : string) :
  clean_url url = Some c -> c <> homepage.
Proof.
  unfold clean_url. destruct url as [| | |u| |]; try discriminate.
  destruct (urlparse u) as [parsed|] eqn:E; [|discriminate].
  destruct (urlparse_parts u parsed E) as [Hs Hn].
  set (scheme := if str_nonempty (p_scheme parsed) then p_scheme parsed else "https").
  set (netloc := if str_nonempty (p_netloc parsed) then p_netloc parsed else TARGET_SITE).
  set (path0 := if startswith (p_path parsed) "/" then p_path parsed
                else "/" ++ p_path parsed).
  set (path := if String.eqb path0 "/" then "" else path0).
  assert (Hsn : str_nonempty scheme = true /\ has_char ":" scheme = false).
  { unfold scheme. destruct (str_nonempty (p_scheme parsed)) eqn:N; auto. }
  assert (Hnn : str_nonempty netloc = true /\ has_char "/" netloc = false).
  { unfold netloc. destruct (str_nonempty (p_netloc parsed)) eqn:N; auto. }
  assert (Hp0 : startswith path0 "/" = true).
  { unfold path0. destruct (startswith (p_path parsed) "/") eqn:S; [exact S|].
    apply startswith_spec. exists (p_path parsed). reflexivity. }
  assert (Hp : path = "" \/ (startswith path "/" = true /\ path <> "/")).
  { unfold path. destruct (String.eqb path0 "/") eqn:Q; [left; reflexivity|].
    right. split; [exact Hp0|]. intros Heq. rewrite Heq in Q. discriminate. }
  destruct Hsn as [Hs1 Hs2]. destruct Hnn as [Hn1 Hn2].
  intros H. injection H as <-.
  rewrite urlunparse_clean by (try assumption; tauto).
  intros Heq.
  change homepage with ("https" ++ String ":" "//www.fatshackvintage.com.au/") in Heq.
  apply append_char_unique in Heq; [|exact Hs2 | reflexivity].
  destruct Heq as [_ Heq]. cbn [append] in Heq. injection Heq as Heq.
  destruct Hp as [Hp | [Hp1 Hp2]].
  - rewrite Hp in Heq.
    assert (Hx : netloc = "www.fatshackvintage.com.au/").
    { rewrite <- Heq. clear. induction netloc; cbn; congruence. }
    rewrite Hx in Hn2. discriminate.
  - destruct path as [|p0 path']; [discriminate|].
    apply startswith_spec in Hp1. destruct Hp1 as [r Hr]. cbn in Hr.
    injection Hr as -> ->.
    change ("www.fatshackvintage.com.au/")
      with ("www.fatshackvintage.com.au" ++ String "/" "") in Heq.
    apply append_char_unique in Heq; [|exact Hn2 | reflexivity].
    destruct Heq as [_ ->]. apply Hp2. reflexivity.
Qed.

(** C3, on the code.  Normalisation strips the trailing slash of the site
    root, so no normalised URL equals the configured root path and the
    exact-match test for the homepage never succeeds: the homepage is
    classified Unknown (never Irrelevant), is sent to the combined
    assessment, and a Closely Related answer there decides that the
    existing page is sufficient. *)
Theorem homepage_classified_unknown :
  clean_url (PStr homepage) = Some "https://www.fatshackvintage.com.au"
  /\ (forall url c, clean_url url = Some c -> c <> homepage)
  /\ (forall known, classify_url (PStr homepage) known <> Irrelevant)
  /\ classify_url (PStr homepage) [] = Unknown
  /\ (let w := world_constant [homepage]
                 [("determined_type", PStr "PLP"); ("relevance", PStr "Closely Related");
                  ("analysis", PStr "Storefront.")] in
      exists r,
        analyze_keywords w ["contact lenses"] [] []
        = (Returned [r],
           [SerpApiRequest "contact lenses site:fatshackvintage.com.au";
            FirecrawlExtract CombinedPrompt "contact lenses"
              "https://www.fatshackvintage.com.au"])
        /\ Initial_Classification r
           = Some (mkBuckets [] [] [] ["https://www.fatshackvintage.com.au"])
        /\ Decision r = ExistingSufficient).
Proof.
  split; [vm_compute; reflexivity|].
  split; [exact clean_url_never_homepage|].
  split.
  - intros known. unfold classify_url.
    replace (clean_url (PStr homepage))
      with (Some "https://www.fatshackvintage.com.au") by (vm_compute; reflexivity).
    cbn [str_nonempty negb].
    replace (is_irrelevant "https://www.fatshackvintage.com.au") with false
      by (vm_compute; reflexivity).
    destruct (is_known_plp "https://www.fatshackvintage.com.au" known);
      [discriminate|].
    destruct (is_known_pdp "https://www.fatshackvintage.com.au"); discriminate.
  - split; [vm_compute; reflexivity|].
    cbv zeta. eexists. split; [vm_compute; reflexivity|].
    split; reflexivity.
Qed.

(** * Sample runs *)

Lemma closely_related_known_plp_ends_run_witness :
  let w := world_hats hats_links in
  let pre := firstn 1 hats_trace in
  let it := nth 1 hats_trace no_iteration in
  known_plp_trace w "hats"
    (b_known_plp (classify_serp [] (ranking_urls (hats_row :: hats_rows))))
    initial_evidence []
  = (pre ++ [it])%list
  /\ closely_related_verdict (it_result it) = true
  /\ Decision (fst (process_serp w [] "hats" PNone (hats_row :: hats_rows) []))
     = ExistingSufficient
  /\ snd (process_serp w [] "hats" PNone (hats_row :: hats_rows) [])
     = [FirecrawlExtract CategoryPrompt "hats" (site "/shop-all/");
        FirecrawlExtract CategoryPrompt "hats" (site "/collections/hats")].
Proof.
  intros w pre it.
  assert (H1 : known_plp_trace w "hats"
                 (b_known_plp (classify_serp [] (ranking_urls (hats_row :: hats_rows))))
                 initial_evidence []
               = (pre ++ it :: [])%list) by (vm_compute; reflexivity).
  assert (H2 : closely_related_verdict (it_result it) = true) by reflexivity.
  split; [exact H1|]. split; [exact H2|].
  destruct (closely_related_known_plp_ends_run w [] "hats" PNone hats_row hats_rows []
              pre [] it H1 H2) as [_ [_ [_ [Hd [_ [Hl _]]]]]].
  split; [exact Hd | exact Hl].
Defined.

Lemma synthesis_decision_table_witness :
  let w := world_loose_and_related hair_powder_links in
  let e := snd (fst hair_powder_gathered) in
  gather_evidence w "hair powder"
    (classify_serp [] (ranking_urls (hair_powder_row :: hair_powder_rows))) []
  = (ReachedSynthesis, e, snd hair_powder_gathered)
  /\ best_plp_relevance e = Some LooselyRelated
  /\ found_related_pdp e = true
  /\ Decision (fst (process_serp w [] "hair powder" PNone
                      (hair_powder_row :: hair_powder_rows) []))
     = CreateSpecificCategory.
Proof.
  intros w e.
  assert (H : gather_evidence w "hair powder"
                (classify_serp [] (ranking_urls (hair_powder_row :: hair_powder_rows))) []
              = (ReachedSynthesis, e, snd hair_powder_gathered))
    by (vm_compute; reflexivity).
  split; [exact H|]. split; [reflexivity|]. split; [reflexivity|].
  exact (proj2 synthesis_decision_table w [] "hair powder" PNone
           hair_powder_row hair_powder_rows [] e (snd hair_powder_gathered) H).
Defined.


Lemma keyword_result_unless_search_fails_witness :
  (analyze_keywords world_down [] [] [] = (Returned [], [])
   /\ fst (get_organic_results world_down "hats" TARGET_SITE [])
      = Tuple3 PNone [] PNone
   /\ analyze_keywords world_down ["hats"] [] []
      = (Raised (ValueError "too many values to unpack (expected 2)"),
         [SerpApiRequest "hats site:fatshackvintage.com.au"]))
  /\ (let w := world_first_search_only [site "/collections/hats"] in
      exists r log1,
        analyze_keywords w ["hats"] [] [] = (Returned [r], log1)
        /\ Decision r = NoRelevantContent
        /\ fst (get_organic_results w "caps" TARGET_SITE log1) = Tuple3 PNone [] PNone
        /\ fst (analyze_keywords w ["hats"; "caps"; "coats"] [] [])
           = Raised (ValueError "too many values to unpack (expected 2)")).
Proof.
  split.
  - split; [reflexivity|]. split; [reflexivity|].
    exact (proj2 (proj2 (proj2
             (keyword_result_unless_search_fails world_down [] [] "hats" [] [] []
                eq_refl)))
             PNone [] PNone eq_refl []).
  - intros w.
    destruct (proj1 (proj2 (proj2
                (keyword_result_unless_search_fails w [] [] "hats" [] [] [] eq_refl)))
                (PStr "https://serpapi.com/searches/1.html")
                [serp_row_of 1 (site "/collections/hats")]
                eq_refl)
      as [r [log1 [Hrun [Hk [Hd Hj]]]]].
    exists r, log1. cbn [app] in Hrun.
    assert (Hr : Decision r = NoRelevantContent
                 /\ fst (get_organic_results w "caps" TARGET_SITE log1)
                    = Tuple3 PNone [] PNone).
    { vm_compute in Hrun. injection Hrun as <- <-. split; reflexivity. }
    destruct Hr as [Hdec Hg].
    split; [exact Hrun|]. split; [exact Hdec|]. split; [exact Hg|].
    pose proof (proj2 (proj2 (proj2
                  (keyword_result_unless_search_fails w [] ["hats"] "caps" [] log1 [r]
                     Hrun)))
                  PNone [] PNone Hg ["coats"]) as Hraise.
    cbn [app] in Hraise. rewrite Hraise. reflexivity.
Defined.

Lemma search_failure_raises_witness :
  SERPAPI_API_KEY world_down = true
  /\ requests_get world_down [] (serp_query "hats" TARGET_SITE) = HttpRequestException
  /\ get_organic_results world_down "hats" TARGET_SITE []
     = (Tuple3 PNone [] PNone, [SerpApiRequest "hats site:fatshackvintage.com.au"])
  /\ analyze_keywords world_down ["hats"; "caps"] [] []
     = (Raised (ValueError "too many values to unpack (expected 2)"),
        [SerpApiRequest "hats site:fatshackvintage.com.au"]).
Proof.
  split; [reflexivity|]. split; [reflexivity|].
  exact (search_failure_raises world_down [] "hats" ["caps"] [] eq_refl eq_refl).
Defined.

Lemma combined_validation_is_scale_blind_witness :
  (let d := cross_scale_payload in
   let w := world_constant [site "/vintage-hat"] d in
   let e := set_best initial_evidence LooselyRelated in
   fst (call_firecrawl_extract w CombinedPrompt "hats" (site "/vintage-hat") [])
   = Some (PDict d)
   /\ fst (classify_and_assess_url w "hats" (site "/vintage-hat") []) = Some d
   /\ py_eq_str (dict_get d "determined_type") "PDP" = true
   /\ best_plp_relevance (fst (unknown_step (site "/vintage-hat") (Some d) e))
      = Some LooselyRelated
   /\ found_related_pdp (fst (unknown_step (site "/vintage-hat") (Some d) e)) = false)
  /\ (let w := world_constant [site "/sale"] off_scale_payload in
      fst (call_firecrawl_extract w CombinedPrompt "hats" (site "/sale") [])
      = Some (PDict off_scale_payload)
      /\ fst (classify_and_assess_url w "hats" (site "/sale") []) = None).
Proof.
  split.
  - intros d w e.
    assert (Hc : fst (call_firecrawl_extract w CombinedPrompt "hats"
                        (site "/vintage-hat") []) = Some (PDict d))
      by reflexivity.
    assert (Ht : py_eq_str (dict_get d "determined_type") "PDP" = true)
      by reflexivity.
    split; [exact Hc|]. split.
    + apply (proj1 combined_validation_is_scale_blind). split; [exact Hc|].
      split; [reflexivity|]. split.
      * exists "PDP". split; [reflexivity | simpl; tauto].
      * exists "Closely Related". split; [reflexivity | simpl; tauto].
    + split; [exact Ht|].
      destruct (proj1 (proj2 combined_validation_is_scale_blind)
                  (site "/vintage-hat") d e Ht) as [Hb [_ [_ [Hf _]]]].
      split; [exact Hb | exact Hf].
  - intros w. split; [reflexivity|].
    destruct (fst (classify_and_assess_url w "hats" (site "/sale") [])) as [d|] eqn:E;
      [|reflexivity].
    apply (proj1 combined_validation_is_scale_blind) in E.
    destruct E as [Hc [_ [_ [relevance [Hl Hin]]]]].
    injection Hc as <-. injection Hl as <-.
    simpl in Hin.
    repeat (destruct Hin as [Hin|Hin]; [discriminate Hin|]). contradiction.
Defined.

(** * Further properties *)
(** ** What each loop logs *)

Lemma known_plp_trace_log (w : world) (keyword : string) (urls : list string) :
  forall (e : evidence) (log : calls),
    let t := known_plp_trace w keyword urls e log in
    snd (trace_end t e log)
    = (log ++ logged w CategoryPrompt keyword (map it_url t))%list
    /\ initial_segment (map it_url t) urls.
Proof.
  induction urls as [|url urls IH]; intros e log; cbn [known_plp_trace].
  - cbn. split; [unfold logged; destruct (FIRECRAWL_API_KEY w); cbn;
                 rewrite app_nil_r; reflexivity | exists []; reflexivity].
  - pose proof (category_log w keyword url log) as Hlog.
    destruct (assess_category_page_relevance w keyword url log) as [result log'].
    cbn [snd] in Hlog.
    destruct (known_plp_step url result e) as [e' stop].
    cbv zeta. cbn [trace_end map it_url it_evidence it_log].
    destruct stop.
    + cbn [trace_end snd map]. split; [exact Hlog | exists urls; reflexivity].
    + destruct (IH e' log') as [H1 [rest H2]]. cbv zeta in H1, H2.
      split.
      * rewrite H1, Hlog, <- app_assoc, <- logged_cons. reflexivity.
      * exists rest. cbn [app]. rewrite <- H2. reflexivity.
Qed.

Lemma unknown_trace_log (w : world) (keyword : string) (urls : list string) :
  forall (e : evidence) (log : calls),
    let t := unknown_trace w keyword urls e log in
    snd (trace_end t e log)
    = (log ++ logged w CombinedPrompt keyword (map it_url t))%list
    /\ initial_segment (map it_url t) urls.
Proof.
  induction urls as [|url urls IH]; intros e log; cbn [unknown_trace].
  - cbn. split; [unfold logged; destruct (FIRECRAWL_API_KEY w); cbn;
                 rewrite app_nil_r; reflexivity | exists []; reflexivity].
  - pose proof (combined_log w keyword url log) as Hlog.
    destruct (classify_and_assess_url w keyword url log) as [result log'].
    cbn [snd] in Hlog.
    destruct (unknown_step url result e) as [e' stop].
    cbv zeta. cbn [trace_end map it_url it_evidence it_log].
    destruct stop.
    + cbn [trace_end snd map]. split; [exact Hlog | exists urls; reflexivity].
    + destruct (IH e' log') as [H1 [rest H2]]. cbv zeta in H1, H2.
      split.
      * rewrite H1, Hlog, <- app_assoc, <- logged_cons. reflexivity.
      * exists rest. cbn [app]. rewrite <- H2. reflexivity.
Qed.

Lemma known_pdp_trace_log (w : world) (keyword : string) (urls : list string) :
  forall (e : evidence) (log : calls),
    let t := known_pdp_trace w keyword urls e log in
    snd (trace_end t e log)
    = (log ++ logged w ProductPrompt keyword urls)%list
    /\ map it_url t = urls.
Proof.
  induction urls as [|url urls IH]; intros e log; cbn [known_pdp_trace].
  - cbn. split; [unfold logged; destruct (FIRECRAWL_API_KEY w); cbn;
                 rewrite app_nil_r; reflexivity | reflexivity].
  - pose proof (product_log w keyword url log) as Hlog.
    destruct (assess_product_page_relevance w keyword url log) as [result log'].
    cbn [snd] in Hlog.
    cbv zeta. cbn [trace_end map it_url it_evidence it_log].
    destruct (IH (known_pdp_step url result e) log') as [H1 H2]. cbv zeta in H1, H2.
    split.
    + rewrite H1, Hlog, <- app_assoc, <- logged_cons. reflexivity.
    + rewrite H2. reflexivity.
Qed.

(** A loop that ends without a Closely Related listing went through all
    its URLs. *)
Lemma known_plp_trace_complete (w : world) (keyword : string) (urls : list string) :
  forall (e : evidence) (log : calls),
    quiet e ->
    let t := known_plp_trace w keyword urls e log in
    found_closely_related_plp (fst (trace_end t e log)) = false ->
    map it_url t = urls.
Proof.
  induction urls as [|url urls IH]; intros e log Hq; cbn [known_plp_trace];
    [reflexivity|].
  destruct (assess_category_page_relevance w keyword url log) as [result log'].
  pose proof (known_plp_step_flags url result e Hq) as Hs.
  destruct (known_plp_step url result e) as [e' stop]. cbn [fst snd] in Hs.
  cbv zeta. cbn [trace_end map it_url it_evidence it_log].
  destruct stop.
  - cbn [trace_end fst]. destruct Hs as [Hf _]. congruence.
  - intros Hf. rewrite (IH e' log' Hs Hf). reflexivity.
Qed.

Lemma unknown_trace_complete (w : world) (keyword : string) (urls : list string) :
  forall (e : evidence) (log : calls),
    quiet e ->
    let t := unknown_trace w keyword urls e log in
    found_closely_related_plp (fst (trace_end t e log)) = false ->
    map it_url t = urls.
Proof.
  induction urls as [|url urls IH]; intros e log Hq; cbn [unknown_trace];
    [reflexivity|].
  destruct (classify_and_assess_url w keyword url log) as [result log'].
  pose proof (unknown_step_flags url result e Hq) as Hs.
  destruct (unknown_step url result e) as [e' stop]. cbn [fst snd] in Hs.
  cbv zeta. cbn [trace_end map it_url it_evidence it_log].
  destruct stop.
  - cbn [trace_end fst]. destruct Hs as [Hf _]. congruence.
  - intros Hf. rewrite (IH e' log' Hs Hf). reflexivity.
Qed.

Lemma unknown_trace_frame (w : world) (keyword : string) (urls : list string) :
  forall (e : evidence) (log : calls),
    let e' := fst (trace_end (unknown_trace w keyword urls e log) e log) in
    known_plp_assessments e' = known_plp_assessments e
    /\ known_pdp_assessments e' = known_pdp_assessments e.
Proof.
  induction urls as [|url urls IH]; intros e log;
    cbn [unknown_trace trace_end fst]; [auto|].
  destruct (classify_and_assess_url w keyword url log) as [result log'].
  destruct (unknown_step_frame url result e) as [H1 [H2 _]].
  destruct (unknown_step url result e) as [e' stop]. cbn [fst] in H1, H2.
  cbn [trace_end it_evidence it_log].
  destruct stop; cbn [trace_end fst]; [auto|].
  destruct (IH e' log') as [G1 G2]. cbv zeta in G1, G2.
  split; congruence.
Qed.

Lemma known_pdp_trace_frame (w : world) (keyword : string) (urls : list string) :
  forall (e : evidence) (log : calls),
    let e' := fst (trace_end (known_pdp_trace w keyword urls e log) e log) in
    known_plp_assessments e' = known_plp_assessments e
    /\ unknown_url_assessments e' = unknown_url_assessments e.
Proof.
  induction urls as [|url urls IH]; intros e log;
    cbn [known_pdp_trace trace_end fst]; [auto|].
  destruct (assess_product_page_relevance w keyword url log) as [result log'].
  destruct (known_pdp_step_frame url result e) as [H1 [H2 _]].
  cbn [trace_end it_evidence it_log].
  destruct (IH (known_pdp_step url result e) log') as [G1 G2]. cbv zeta in G1, G2.
  split; congruence.
Qed.

Lemma logged_nil (w : world) (kind : prompt_kind) (keyword : string) :
  logged w kind keyword [] = [].
Proof. unfold logged. destruct (FIRECRAWL_API_KEY w); reflexivity. Qed.

Lemma logged_In (w : world) (kind : prompt_kind) (keyword : string)
    (urls : list string) (ev : event) :
  In ev (logged w kind keyword urls) ->
  exists u, ev = FirecrawlExtract kind keyword u /\ In u urls.
Proof.
  unfold logged. destruct (FIRECRAWL_API_KEY w); [|intros []].
  intros H. apply in_map_iff in H. destruct H as [u [<- Hu]].
  exists u. split; [reflexivity | exact Hu].
Qed.

Lemma logged_NoDup (w : world) (kind : prompt_kind) (keyword : string)
    (urls : list string) :
  NoDup urls -> NoDup (logged w kind keyword urls).
Proof.
  unfold logged. destruct (FIRECRAWL_API_KEY w); [|constructor].
  intros H. induction H as [|u l Hn Hl IH]; cbn [map]; constructor; [|exact IH].
  intros Hin. apply in_map_iff in Hin. destruct Hin as [u' [E Hu]].
  unfold adapter_call in E. injection E as ->. contradiction.
Qed.

Lemma initial_segment_In (l1 l2 : list string) (x : string) :
  initial_segment l1 l2 -> In x l1 -> In x l2.
Proof. intros [rest ->] H. apply in_app_iff. auto. Qed.

Lemma initial_segment_NoDup (l1 l2 : list string) :
  initial_segment l1 l2 -> NoDup l2 -> NoDup l1.
Proof. intros [rest ->] H. eapply NoDup_app_remove_r. exact H. Qed.

(** The calls of stages 3 to 5, stage by stage. *)
Lemma gather_evidence_calls (w : world) (keyword : string) (cu : buckets) (log : calls) :
  exists l3 l4 l5,
    initial_segment l3 (b_known_plp cu)
    /\ initial_segment l4 (b_unknown cu)
    /\ (l5 = [] \/ l5 = b_known_pdp cu)
    /\ snd (gather_evidence w keyword cu log)
       = (log ++ logged w CategoryPrompt keyword l3
              ++ logged w CombinedPrompt keyword l4
              ++ logged w ProductPrompt keyword l5)%list
    /\ (fst (fst (gather_evidence w keyword cu log)) = ReachedSynthesis ->
        l3 = b_known_plp cu /\ l4 = b_unknown cu /\ l5 = b_known_pdp cu).
Proof.
  rewrite gather_evidence_traces.
  destruct (known_plp_trace_log w keyword (b_known_plp cu) initial_evidence log)
    as [L3 S3].
  pose proof (known_plp_trace_complete w keyword (b_known_plp cu) initial_evidence log
                initial_quiet) as C3.
  destruct (known_plp_trace_flags w keyword (b_known_plp cu) initial_evidence log
              initial_quiet) as [_ E3].
  cbv zeta in L3, S3, C3, E3.
  set (t3 := known_plp_trace w keyword (b_known_plp cu) initial_evidence log) in *.
  destruct (trace_end t3 initial_evidence log) as [e3 log3].
  cbn [fst snd] in *.
  destruct (found_closely_related_plp e3) eqn:F3.
  { exists (map it_url t3), [], []. rewrite !logged_nil, !app_nil_r.
    repeat split; auto; try (exists (b_unknown cu); reflexivity); discriminate. }
  pose proof (not_found_quiet e3 E3 F3) as Q3.
  destruct (unknown_trace_log w keyword (b_unknown cu) e3 log3) as [L4 S4].
  pose proof (unknown_trace_complete w keyword (b_unknown cu) e3 log3 Q3) as C4.
  destruct (unknown_trace_flags w keyword (b_unknown cu) e3 log3 Q3) as [_ E4].
  cbv zeta in L4, S4, C4, E4.
  set (t4 := unknown_trace w keyword (b_unknown cu) e3 log3) in *.
  destruct (trace_end t4 e3 log3) as [e4 log4].
  cbn [fst snd] in *.
  destruct (found_closely_related_plp e4) eqn:F4.
  { exists (map it_url t3), (map it_url t4), []. rewrite !logged_nil, !app_nil_r.
    repeat split; auto; try discriminate.
    cbn [snd]. rewrite L4, L3, <- app_assoc. reflexivity. }
  destruct (known_pdp_trace_log w keyword (b_known_pdp cu) e4 log4) as [L5 _].
  cbv zeta in L5.
  destruct (trace_end (known_pdp_trace w keyword (b_known_pdp cu) e4 log4) e4 log4)
    as [e5 log5].
  cbn [fst snd] in *.
  exists (map it_url t3), (map it_url t4), (b_known_pdp cu).
  repeat split; auto.
  rewrite L5, L4, L3, <- !app_assoc. reflexivity.
Qed.

(** X1.  The calls one keyword makes to the extraction service are listing
    assessments for an initial segment of the Known-PLP bucket, then
    combined assessments for an initial segment of the Unknown bucket, then
    product assessments for all of the Known-PDP bucket or for none of it.
    No URL is assessed twice and no URL of the Irrelevant bucket is ever
    assessed. *)
Theorem calls_follow_buckets
    (w : world) (known : list string) (keyword : string) (html : pyval)
    (serp_df : list serp_row) (log : calls) :
  let cu := classify_serp known (ranking_urls serp_df) in
  exists l3 l4 l5,
    initial_segment l3 (b_known_plp cu)
    /\ initial_segment l4 (b_unknown cu)
    /\ (l5 = [] \/ l5 = b_known_pdp cu)
    /\ snd (process_serp w known keyword html serp_df log)
       = (log ++ map (FirecrawlExtract CategoryPrompt keyword) l3
              ++ map (FirecrawlExtract CombinedPrompt keyword) l4
              ++ map (FirecrawlExtract ProductPrompt keyword) l5)%list
    /\ NoDup (l3 ++ l4 ++ l5)
    /\ (forall u, In u (l3 ++ l4 ++ l5) -> ~ In u (b_irrelevant cu)).
Proof.
  intros cu.
  assert (Hcalls : exists l3 l4 l5,
             initial_segment l3 (b_known_plp cu)
             /\ initial_segment l4 (b_unknown cu)
             /\ (l5 = [] \/ l5 = b_known_pdp cu)
             /\ snd (process_serp w known keyword html serp_df log)
                = (log ++ map (FirecrawlExtract CategoryPrompt keyword) l3
                       ++ map (FirecrawlExtract CombinedPrompt keyword) l4
                       ++ map (FirecrawlExtract ProductPrompt keyword) l5)%list).
  { unfold process_serp. destruct serp_df as [|row rows].
    - exists [], [], []. cbn. rewrite app_nil_r.
      repeat split; auto; exists []; reflexivity.
    - fold cu.
      destruct (gather_evidence_calls w keyword cu log)
        as [l3 [l4 [l5 [S3 [S4 [S5 [Hl _]]]]]]].
      destruct (gather_evidence w keyword cu log) as [[x e] log'].
      cbn [snd] in Hl. destruct (decide x e) as [d j]. cbn [snd].
      unfold logged in Hl. destruct (FIRECRAWL_API_KEY w).
      + exists l3, l4, l5. auto.
      + exists [], [], []. cbn. rewrite Hl.
        repeat split; auto; eexists; cbn; reflexivity. }
  destruct Hcalls as [l3 [l4 [l5 [S3 [S4 [S5 Hl]]]]]].
  exists l3, l4, l5. repeat split; auto.
  - pose proof (cl_nodup _ _ _ (classify_serp_classified known (ranking_urls serp_df)))
      as Hnd.
    fold cu in Hnd. unfold bucket_items in Hnd.
    rewrite !NoDup_app_split in Hnd.
    destruct Hnd as [N1 [[N2 [[N3 [N4 D34]] D234]] D1234]].
    rewrite !NoDup_app_split. repeat split.
    + eapply initial_segment_NoDup; eauto.
    + eapply initial_segment_NoDup; eauto.
    + destruct S5 as [-> | ->]; [constructor | exact N2].
    + intros x H4 H5. apply (initial_segment_In _ _ _ S4) in H4.
      destruct S5 as [-> | ->]; [destruct H5|].
      apply (D234 x H5). apply in_app_iff. right. exact H4.
    + intros x H3 H45. apply (initial_segment_In _ _ _ S3) in H3.
      apply (D1234 x H3). apply in_app_iff in H45. rewrite !in_app_iff.
      destruct H45 as [H4 | H5].
      * apply (initial_segment_In _ _ _ S4) in H4. auto.
      * destruct S5 as [-> | ->]; [destruct H5 | auto].
  - intros u Hin Hirr.
    assert (Huniq : forall c cls1 cls2,
               In c (bucket cu cls1) -> In c (bucket cu cls2) -> cls1 = cls2).
    { intros c cls1 cls2 H1 H2.
      destruct (cl_sound _ _ _ (classify_serp_classified known (ranking_urls serp_df))
                  c cls1 H1) as [-> _].
      destruct (cl_sound _ _ _ (classify_serp_classified known (ranking_urls serp_df))
                  c cls2 H2) as [-> _].
      reflexivity. }
    rewrite !in_app_iff in Hin. destruct Hin as [H | [H | H]].
    + apply (initial_segment_In _ _ _ S3) in H.
      discriminate (Huniq u KnownPLP Irrelevant H Hirr).
    + apply (initial_segment_In _ _ _ S4) in H.
      discriminate (Huniq u Unknown Irrelevant H Hirr).
    + destruct S5 as [-> | ->]; [destruct H|].
      discriminate (Huniq u KnownPDP Irrelevant H Hirr).
Qed.

(** ** Stage 4 ends at a Closely Related listing *)

Lemma unknown_step_stop (url : string) (result : option pydict) (e : evidence) :
  snd (unknown_step url result e) = closely_related_unknown_verdict result.
Proof.
  unfold unknown_step, closely_related_unknown_verdict.
  destruct (result_truthy result) as [r|]; [|reflexivity].
  destruct (py_eq_str (dict_get r "determined_type") "PLP"
            || py_eq_str (dict_get r "determined_type") "Brand Page"); cbn [andb].
  - destruct (py_eq_str (dict_get r "relevance") "Closely Related"); [reflexivity|].
    match goal with |- context [py_eq_str ?a "Loosely Related" && ?b] =>
      destruct (py_eq_str a "Loosely Related" && b) end; [reflexivity|].
    match goal with |- context [py_eq_str ?a "Unrelated" && ?b] =>
      destruct (py_eq_str a "Unrelated" && b) end; reflexivity.
  - destruct (py_eq_str (dict_get r "determined_type") "PDP"); [|reflexivity].
    destruct (py_eq_str (dict_get r "relevance") "Related"); reflexivity.
Qed.

Lemma unknown_step_found (url : string) (result : option pydict) (e : evidence) :
  snd (unknown_step url result e) = true ->
  found_closely_related_plp (fst (unknown_step url result e)) = true.
Proof.
  unfold unknown_step.
  destruct (result_truthy result) as [r|]; [|discriminate].
  destruct (py_eq_str (dict_get r "determined_type") "PLP"
            || py_eq_str (dict_get r "determined_type") "Brand Page").
  - destruct (py_eq_str (dict_get r "relevance") "Closely Related"); [reflexivity|].
    match goal with |- context [py_eq_str ?a "Loosely Related" && ?b] =>
      destruct (py_eq_str a "Loosely Related" && b) end; [discriminate|].
    match goal with |- context [py_eq_str ?a "Unrelated" && ?b] =>
      destruct (py_eq_str a "Unrelated" && b) end; discriminate.
  - destruct (py_eq_str (dict_get r "determined_type") "PDP"); [|discriminate].
    destruct (py_eq_str (dict_get r "relevance") "Related"); discriminate.
Qed.

Lemma unknown_trace_split (w : world) (keyword : string) (urls : list string) :
  forall (e : evidence) (log : calls) (pre post : list iteration) (it : iteration),
    unknown_trace w keyword urls e log = (pre ++ it :: post)%list ->
    (exists rest, urls = (map it_url pre ++ it_url it :: rest)%list)
    /\ it_log it
       = (log ++ logged w CombinedPrompt keyword (map it_url pre ++ [it_url it]))%list
    /\ Forall (fun i => closely_related_unknown_verdict (it_result i) = false) pre
    /\ (closely_related_unknown_verdict (it_result it) = true ->
        post = []
        /\ found_closely_related_plp (it_evidence it) = true
        /\ trace_end (pre ++ it :: post) e log = (it_evidence it, it_log it)).
Proof.
  induction urls as [|url urls IH]; intros e log pre post it;
    cbn [unknown_trace].
  - destruct pre; discriminate.
  - pose proof (combined_log w keyword url log) as Hlog.
    destruct (classify_and_assess_url w keyword url log) as [result log'].
    cbn [snd] in Hlog.
    pose proof (unknown_step_stop url result e) as Hstop.
    pose proof (unknown_step_found url result e) as Hfl.
    destruct (unknown_step url result e) as [e' stop]. cbn [fst snd] in Hstop, Hfl.
    destruct pre as [|p pre]; cbn [app map]; intros H; injection H as Hhd Htl.
    + subst it. cbn [it_url it_result it_log it_evidence].
      split; [exists urls; reflexivity|]. split; [exact Hlog|].
      split; [constructor|]. intros Hc. rewrite Hc in Hstop. subst stop.
      subst post. split; [reflexivity|]. split; [|reflexivity].
      apply Hfl. reflexivity.
    + subst p. destruct stop; [destruct pre; discriminate|].
      destruct (IH e' log' pre post it Htl) as [[rest Hr] [Hl [Hf Hc]]].
      cbn [it_url it_result].
      split; [exists rest; congruence|].
      split.
      { rewrite Hl, Hlog, <- app_assoc, <- logged_cons. reflexivity. }
      split; [constructor; [symmetry; exact Hstop | exact Hf]|].
      intros Hcl. destruct (Hc Hcl) as [-> [F T]]. repeat split; auto.
Qed.

Lemma unknown_trace_no_key (w : world) (keyword : string) (urls : list string) :
  forall (e : evidence) (log : calls),
    FIRECRAWL_API_KEY w = false ->
    Forall (fun it => it_result it = None) (unknown_trace w keyword urls e log).
Proof.
  induction urls as [|url urls IH]; intros e log Hk; cbn [unknown_trace];
    [constructor|].
  pose proof (combined_fails w keyword url log
                (call_firecrawl_no_key w CombinedPrompt keyword url log Hk)) as Hr.
  destruct (classify_and_assess_url w keyword url log) as [result log'].
  cbn [fst] in Hr. subst result.
  destruct (unknown_step url None e) as [e' stop].
  constructor; [reflexivity|]. destruct stop; [constructor | apply IH; exact Hk].
Qed.

(** X2.  The Unknown-URL loop stops at the first listing or brand page judged
    Closely Related, and the Known-PDP stage is then not run. *)
Theorem closely_related_unknown_url_ends_run
    (w : world) (known : list string) (keyword : string) (html : pyval)
    (row : serp_row) (rows : list serp_row) (log : calls)
    (e3 : evidence) (log3 : calls)
    (pre post : list iteration) (it : iteration) :
  let serp_df := row :: rows in
  let cu := classify_serp known (ranking_urls serp_df) in
  let r := fst (process_serp w known keyword html serp_df log) in
  assess_known_plps w keyword (b_known_plp cu) initial_evidence log = (e3, log3) ->
  found_closely_related_plp e3 = false ->
  unknown_trace w keyword (b_unknown cu) e3 log3 = (pre ++ it :: post)%list ->
  closely_related_unknown_verdict (it_result it) = true ->
  post = []
  /\ Forall (fun i => closely_related_unknown_verdict (it_result i) = false) pre
  /\ (exists rest, b_unknown cu = (map it_url pre ++ it_url it :: rest)%list)
  /\ Decision r = ExistingSufficient
  /\ Justification r = "AI identified a 'Closely Related' PLP or Brand Page in SERP."
  /\ snd (process_serp w known keyword html serp_df log)
     = (log3 ++ map (adapter_call CombinedPrompt keyword)
                    (map it_url pre ++ [it_url it]))%list
  /\ Known_PDP_Assessment r = [].
Proof.
  intros serp_df cu r H3 F3 Ht Hc.
  destruct (unknown_trace_split w keyword (b_unknown cu) e3 log3 pre post it Ht)
    as [Hrest [Hlog [Hpre Hlast]]].
  destruct (Hlast Hc) as [-> [Hfound Hend]].
  assert (Hkey : FIRECRAWL_API_KEY w = true).
  { destruct (FIRECRAWL_API_KEY w) eqn:K; [reflexivity|].
    pose proof (unknown_trace_no_key w keyword (b_unknown cu) e3 log3 K) as Hn.
    rewrite Ht in Hn. apply Forall_app in Hn. destruct Hn as [_ Hn].
    inversion Hn as [|? ? Hit _]. rewrite Hit in Hc. discriminate. }
  pose proof (unknown_trace_frame w keyword (b_unknown cu) e3 log3) as Hfr.
  cbv zeta in Hfr. rewrite Ht, Hend in Hfr. cbn [fst] in Hfr.
  destruct Hfr as [_ Hpdp].
  pose proof (known_plp_trace_frame w keyword (b_known_plp cu) initial_evidence log)
    as Hfr3.
  cbv zeta in Hfr3. rewrite <- assess_known_plps_trace, H3 in Hfr3. cbn [fst] in Hfr3.
  destruct Hfr3 as [Hpdp3 _].
  split; [reflexivity|]. split; [exact Hpre|]. split; [exact Hrest|].
  assert (Hg : gather_evidence w keyword cu log
               = (ExitUnknownURL, it_evidence it, it_log it)).
  { rewrite gather_evidence_traces, <- assess_known_plps_trace, H3, F3, Ht, Hend,
      Hfound. reflexivity. }
  unfold r, process_serp, serp_df. fold serp_df. fold cu. rewrite Hg.
  cbn [decide fst snd Decision Justification Known_PDP_Assessment].
  split; [reflexivity|]. split; [reflexivity|].
  split; [rewrite Hlog; unfold logged; rewrite Hkey; reflexivity|].
  rewrite Hpdp, Hpdp3. reflexivity.
Qed.

Lemma map_fst_recorded (failed : pydict) (t : list iteration) :
  map fst (map (fun it => (it_url it, recorded failed (it_result it))) t)
  = map it_url t.
Proof. rewrite map_map. apply map_ext. reflexivity. Qed.

(** X3.  A run that reaches the final decision logic has assessed every
    bucketed URL once. *)
Theorem synthesis_has_full_audit_trail
    (w : world) (known : list string) (keyword : string) (html : pyval)
    (row : serp_row) (rows : list serp_row) (log : calls)
    (e : evidence) (log' : calls) :
  let serp_df := row :: rows in
  let cu := classify_serp known (ranking_urls serp_df) in
  let r := fst (process_serp w known keyword html serp_df log) in
  gather_evidence w keyword cu log = (ReachedSynthesis, e, log') ->
  map fst (Known_PLP_Assessment r) = b_known_plp cu
  /\ map fst (Unknown_URL_Assessment r) = b_unknown cu
  /\ map fst (Known_PDP_Assessment r) = b_known_pdp cu
  /\ snd (process_serp w known keyword html serp_df log)
     = (log ++ logged w CategoryPrompt keyword (b_known_plp cu)
            ++ logged w CombinedPrompt keyword (b_unknown cu)
            ++ logged w ProductPrompt keyword (b_known_pdp cu))%list.
Proof.
  intros serp_df cu r Hg.
  assert (He : map fst (known_plp_assessments e) = b_known_plp cu
               /\ map fst (unknown_url_assessments e) = b_unknown cu
               /\ map fst (known_pdp_assessments e) = b_known_pdp cu).
  { revert Hg. rewrite gather_evidence_traces.
    pose proof (known_plp_trace_assessments w keyword (b_known_plp cu)
                  initial_evidence log) as A3.
    pose proof (known_plp_trace_complete w keyword (b_known_plp cu) initial_evidence
                  log initial_quiet) as C3.
    pose proof (known_plp_trace_frame w keyword (b_known_plp cu) initial_evidence log)
      as Fr3.
    destruct (known_plp_trace_flags w keyword (b_known_plp cu) initial_evidence log
                initial_quiet) as [_ E3].
    cbv zeta in A3, C3, Fr3, E3.
    set (t3 := known_plp_trace w keyword (b_known_plp cu) initial_evidence log) in *.
    destruct (trace_end t3 initial_evidence log) as [e3 log3]. cbn [fst] in *.
    destruct (found_closely_related_plp e3) eqn:F3; [discriminate|].
    pose proof (not_found_quiet e3 E3 F3) as Q3.
    pose proof (unknown_trace_assessments w keyword (b_unknown cu) e3 log3) as A4.
    pose proof (unknown_trace_complete w keyword (b_unknown cu) e3 log3 Q3) as C4.
    pose proof (unknown_trace_frame w keyword (b_unknown cu) e3 log3) as Fr4.
    destruct (unknown_trace_flags w keyword (b_unknown cu) e3 log3 Q3) as [_ E4].
    cbv zeta in A4, C4, Fr4, E4.
    set (t4 := unknown_trace w keyword (b_unknown cu) e3 log3) in *.
    destruct (trace_end t4 e3 log3) as [e4 log4]. cbn [fst] in *.
    destruct (found_closely_related_plp e4) eqn:F4; [discriminate|].
    pose proof (known_pdp_trace_assessments w keyword (b_known_pdp cu) e4 log4) as A5.
    pose proof (known_pdp_trace_frame w keyword (b_known_pdp cu) e4 log4) as Fr5.
    destruct (known_pdp_trace_log w keyword (b_known_pdp cu) e4 log4) as [_ C5].
    cbv zeta in A5, Fr5, C5.
    set (t5 := known_pdp_trace w keyword (b_known_pdp cu) e4 log4) in *.
    destruct (trace_end t5 e4 log4) as [e5 log5]. cbn [fst] in *.
    intros Hg. injection Hg as <- _.
    destruct Fr3 as [P3 [U3 _]]. destruct Fr4 as [L4 P4]. destruct Fr5 as [L5 U5].
    cbn [known_pdp_assessments unknown_url_assessments known_plp_assessments
         initial_evidence] in *.
    rewrite L5, L4, U5.
    rewrite A3 by (apply (bucket_nodup known (ranking_urls serp_df) KnownPLP)).
    rewrite A4 by (rewrite U3; apply (bucket_nodup known (ranking_urls serp_df) Unknown)).
    rewrite A5
      by (rewrite P4, P3; apply (bucket_nodup known (ranking_urls serp_df) KnownPDP)).
    rewrite U3, P4, P3. cbn [app].
    rewrite !map_fst_recorded.
    rewrite (C3 eq_refl), (C4 eq_refl), C5. auto. }
  destruct (gather_evidence_calls w keyword cu log)
    as [l3 [l4 [l5 [_ [_ [_ [Hl Hall]]]]]]].
  rewrite Hg in Hl, Hall. cbn [fst snd] in Hl, Hall.
  destruct (Hall eq_refl) as [-> [-> ->]].
  unfold r, process_serp, serp_df. fold serp_df. fold cu. rewrite Hg.
  destruct (decide ReachedSynthesis e) as [d j].
  cbn [fst snd Known_PLP_Assessment Unknown_URL_Assessment Known_PDP_Assessment].
  destruct He as [H1 [H2 H3]]. auto.
Qed.

(** ** Evidence only grows *)

Lemma evidence_le_refl (e : evidence) : evidence_le e e.
Proof. unfold evidence_le. auto. Qed.

Lemma known_plp_step_grows (url : string) (result : option pydict) (e : evidence) :
  quiet e -> evidence_le e (fst (known_plp_step url result e)).
Proof.
  intros [Hf Hb]. unfold known_plp_step, evidence_le.
  destruct (result_truthy result) as [r|].
  - destruct (py_eq_str (dict_get r "Relevant") "Closely Related").
    { cbn. destruct (best_plp_relevance e) as [[]|]; cbn; repeat split; auto; lia. }
    destruct (py_eq_str (dict_get r "Relevant") "Loosely Related").
    { cbn. destruct (best_plp_relevance e) as [[]|]; cbn; repeat split; auto;
        try lia. contradiction Hb; reflexivity. }
    unfold best_is_none. cbn.
    destruct (best_plp_relevance e) as [[]|] eqn:B; cbn; rewrite ?B; cbn;
      repeat split; auto.
  - unfold best_is_none. cbn.
    destruct (best_plp_relevance e) as [[]|] eqn:B; cbn; rewrite ?B; cbn;
      repeat split; auto.
Qed.

Lemma unknown_step_grows (url : string) (result : option pydict) (e : evidence) :
  quiet e -> evidence_le e (fst (unknown_step url result e)).
Proof.
  intros [Hf Hb]. unfold unknown_step, evidence_le.
  destruct (result_truthy result) as [r|]; [|cbn; auto].
  destruct (py_eq_str (dict_get r "determined_type") "PLP"
            || py_eq_str (dict_get r "determined_type") "Brand Page").
  - destruct (py_eq_str (dict_get r "relevance") "Closely Related").
    { cbn. destruct (best_plp_relevance e) as [[]|]; cbn; repeat split; auto; lia. }
    unfold best_is_closely, best_is_none. cbn.
    destruct (py_eq_str (dict_get r "relevance") "Loosely Related");
      destruct (py_eq_str (dict_get r "relevance") "Unrelated");
      destruct (best_plp_relevance e) as [[]|] eqn:B; cbn; rewrite ?B; cbn;
      repeat split; auto; try lia; contradiction Hb; reflexivity.
  - destruct (py_eq_str (dict_get r "determined_type") "PDP"); [|cbn; auto].
    destruct (py_eq_str (dict_get r "relevance") "Related"); cbn; auto.
Qed.

Lemma known_pdp_step_grows (url : string) (result : option pydict) (e : evidence) :
  evidence_le e (known_pdp_step url result e).
Proof.
  unfold known_pdp_step, evidence_le.
  destruct (result_truthy result) as [r|]; [|cbn; auto].
  destruct (py_eq_str (dict_get r "Relevance") "Related"); cbn; auto.
Qed.

Lemma growing_cons (e1 e2 : evidence) (l : list evidence) :
  evidence_le e1 e2 -> growing (e2 :: l) -> growing (e1 :: e2 :: l).
Proof. intros H1 H2. split; assumption. Qed.

Lemma known_plp_trace_grows (w : world) (keyword : string) (urls : list string) :
  forall (e : evidence) (log : calls),
    quiet e ->
    growing (e :: map it_evidence (known_plp_trace w keyword urls e log)).
Proof.
  induction urls as [|url urls IH]; intros e log Hq; cbn [known_plp_trace];
    [exact I|].
  destruct (assess_category_page_relevance w keyword url log) as [result log'].
  pose proof (known_plp_step_grows url result e Hq) as Hg.
  pose proof (known_plp_step_flags url result e Hq) as Hs.
  destruct (known_plp_step url result e) as [e' stop]. cbn [fst snd] in Hg, Hs.
  cbn [map it_evidence]. apply growing_cons; [exact Hg|].
  destruct stop; [exact I | apply IH; exact Hs].
Qed.

Lemma unknown_trace_grows (w : world) (keyword : string) (urls : list string) :
  forall (e : evidence) (log : calls),
    quiet e ->
    growing (e :: map it_evidence (unknown_trace w keyword urls e log)).
Proof.
  induction urls as [|url urls IH]; intros e log Hq; cbn [unknown_trace];
    [exact I|].
  destruct (classify_and_assess_url w keyword url log) as [result log'].
  pose proof (unknown_step_grows url result e Hq) as Hg.
  pose proof (unknown_step_flags url result e Hq) as Hs.
  destruct (unknown_step url result e) as [e' stop]. cbn [fst snd] in Hg, Hs.
  cbn [map it_evidence]. apply growing_cons; [exact Hg|].
  destruct stop; [exact I | apply IH; exact Hs].
Qed.

Lemma known_pdp_trace_grows (w : world) (keyword : string) (urls : list string) :
  forall (e : evidence) (log : calls),
    growing (e :: map it_evidence (known_pdp_trace w keyword urls e log)).
Proof.
  induction urls as [|url urls IH]; intros e log; cbn [known_pdp_trace];
    [exact I|].
  destruct (assess_product_page_relevance w keyword url log) as [result log'].
  cbn [map it_evidence]. apply growing_cons; [apply known_pdp_step_grows | apply IH].
Qed.

(** Joining a growing list that ends where the next one starts. *)
Lemma growing_join (t : list iteration) (e : evidence) (log : calls)
    (l2 : list evidence) :
  growing (e :: map it_evidence t) ->
  growing (fst (trace_end t e log) :: l2) ->
  growing ((e :: map it_evidence t) ++ l2).
Proof.
  revert e log. induction t as [|it t IH]; intros e log H1 H2.
  - exact H2.
  - cbn [map app trace_end] in *. destruct H1 as [Hle Hg].
    split; [exact Hle|]. apply (IH (it_evidence it) (it_log it) Hg H2).
Qed.

(** X4.  Through a keyword's run the evidence only grows: from each value
    to the next the best listing relevance never goes down its scale
    (absent, Unrelated, Loosely Related, Closely Related) and neither flag
    is ever reset. *)
Theorem evidence_only_grows (w : world) (keyword : string)
    (classified_urls : buckets) (log : calls) :
  growing (evidence_history w keyword classified_urls log).
Proof.
  unfold evidence_history.
  pose proof (known_plp_trace_grows w keyword (b_known_plp classified_urls)
                initial_evidence log initial_quiet) as G3.
  destruct (known_plp_trace_flags w keyword (b_known_plp classified_urls)
              initial_evidence log initial_quiet) as [_ E3].
  pose proof (growing_join (known_plp_trace w keyword (b_known_plp classified_urls)
                              initial_evidence log) initial_evidence log) as J3.
  destruct (trace_end (known_plp_trace w keyword (b_known_plp classified_urls)
                         initial_evidence log) initial_evidence log) as [e3 log3].
  cbn [fst] in E3, J3.
  destruct (found_closely_related_plp e3) eqn:F3.
  { rewrite app_nil_r. exact G3. }
  pose proof (not_found_quiet e3 E3 F3) as Q3.
  apply J3; [exact G3|].
  pose proof (unknown_trace_grows w keyword (b_unknown classified_urls) e3 log3 Q3)
    as G4.
  destruct (unknown_trace_flags w keyword (b_unknown classified_urls) e3 log3 Q3)
    as [_ E4].
  pose proof (growing_join (unknown_trace w keyword (b_unknown classified_urls) e3 log3)
                e3 log3) as J4.
  destruct (trace_end (unknown_trace w keyword (b_unknown classified_urls) e3 log3)
              e3 log3) as [e4 log4].
  cbn [fst] in E4, J4.
  destruct (found_closely_related_plp e4) eqn:F4.
  { rewrite app_nil_r. exact G4. }
  apply (J4 _ G4). apply known_pdp_trace_grows.
Qed.

(** ** Which decisions are opportunities *)

(** X5.  A keyword is reported as an opportunity exactly when its run reached
    the final decision logic with a related detail page found. *)
Theorem opportunity_iff_related_detail
    (w : world) (known : list string) (keyword : string) (html : pyval)
    (serp_df : list serp_row) (log : calls) :
  is_opportunity (Decision (fst (process_serp w known keyword html serp_df log))) = true
  <->
  serp_df <> []
  /\ exists e log',
       gather_evidence w keyword (classify_serp known (ranking_urls serp_df)) log
       = (ReachedSynthesis, e, log')
       /\ found_related_pdp e = true.
Proof.
  unfold process_serp. destruct serp_df as [|row rows].
  - cbn. split; [discriminate | intros [H _]; contradiction H; reflexivity].
  - destruct (gather_evidence w keyword
                (classify_serp known (ranking_urls (row :: rows))) log)
      as [[x e] log'] eqn:G.
    destruct x; cbn [decide fst Decision].
    + split; [discriminate|]. intros [_ [e' [l' [H _]]]]. discriminate.
    + split; [discriminate|]. intros [_ [e' [l' [H _]]]]. discriminate.
    + pose proof (synthesis_quiet _ _ _ _ _ _ G) as [_ Hq].
      assert (Hd : is_opportunity
                     (fst (final_decision (best_plp_relevance e) (found_related_pdp e)))
                   = found_related_pdp e).
      { destruct (best_plp_relevance e) as [[]|]; destruct (found_related_pdp e);
          try reflexivity; contradiction Hq; reflexivity. }
      destruct (final_decision (best_plp_relevance e) (found_related_pdp e)) as [d j].
      cbn [fst Decision] in *. rewrite Hd. split.
      * intros Hf. split; [discriminate|]. exists e, log'. auto.
      * intros [_ [e' [l' [H Hf]]]]. injection H as <- _. exact Hf.
Qed.

(** ** The batch *)

Lemma analyze_loop_acc (w : world) (known : list string) (keywords : list string) :
  forall (acc : list keyword_result) (log : calls),
    analyze_loop w known keywords acc log
    = match analyze_loop w known keywords [] log with
      | (Returned rs, log') => (Returned (acc ++ rs)%list, log')
      | (Raised e, log') => (Raised e, log')
      end.
Proof.
  induction keywords as [|keyword rest IH]; intros acc log; cbn [analyze_loop].
  - rewrite app_nil_r. reflexivity.
  - destruct (analyze_keyword w known keyword log) as [[r|e] log1]; [|reflexivity].
    rewrite (IH (acc ++ [r])%list), (IH ([] ++ [r])%list).
    destruct (analyze_loop w known rest [] log1) as [[rs|e] log2]; [|reflexivity].
    rewrite <- app_assoc. reflexivity.
Qed.

(** X6.  A batch over two lists of keywords is the batch of the first followed
    by the batch of the second on the calls made so far. *)
Theorem analyze_keywords_app (w : world) (keywords1 keywords2 known : list string)
    (log : calls) :
  analyze_keywords w (keywords1 ++ keywords2) known log
  = match analyze_keywords w keywords1 known log with
    | (Returned rs1, log1) =>
        match analyze_keywords w keywords2 known log1 with
        | (Returned rs2, log2) => (Returned (rs1 ++ rs2)%list, log2)
        | (Raised e, log2) => (Raised e, log2)
        end
    | (Raised e, log1) => (Raised e, log1)
    end.
Proof.
  unfold analyze_keywords. revert log.
  induction keywords1 as [|keyword rest IH]; intros log; cbn [app analyze_loop].
  - destruct (analyze_loop w known keywords2 [] log) as [[rs|e] l]; reflexivity.
  - destruct (analyze_keyword w known keyword log) as [[r|e] log1]; [|reflexivity].
    rewrite (analyze_loop_acc w known (rest ++ keywords2) ([] ++ [r])%list).
    rewrite (analyze_loop_acc w known rest ([] ++ [r])%list).
    rewrite IH.
    destruct (analyze_loop w known rest [] log1) as [[rs1|e] l1]; [|reflexivity].
    destruct (analyze_loop w known keywords2 [] l1) as [[rs2|e] l2]; [|reflexivity].
    rewrite app_assoc. reflexivity.
Qed.

(** ** The extraction helper *)

(** X7.  The extraction helper makes no call and returns nothing without
    an API key; with a key it makes exactly one call, whatever the answer;
    data it returns is never falsy; and a response carrying an error is
    dropped even when it carries data. *)
Theorem call_firecrawl_extract_contract
    (w : world) (kind : prompt_kind) (keyword url : string) (log : calls) :
  (FIRECRAWL_API_KEY w = false ->
   call_firecrawl_extract w kind keyword url log = (None, log))
  /\ (FIRECRAWL_API_KEY w = true ->
      snd (call_firecrawl_extract w kind keyword url log)
      = (log ++ [FirecrawlExtract kind keyword url])%list)
  /\ (forall data,
        fst (call_firecrawl_extract w kind keyword url log) = Some data ->
        truthy data = true /\ FIRECRAWL_API_KEY w = true)
  /\ (forall d,
        firecrawl_extract w log kind keyword url = FcReturns (PDict d) ->
        truthy (dict_get d "error") = true ->
        fst (call_firecrawl_extract w kind keyword url log) = None).
Proof.
  split; [|split; [|split]].
  - intros H. unfold call_firecrawl_extract. rewrite H. reflexivity.
  - intros H. rewrite call_firecrawl_log, H. reflexivity.
  - intros data. unfold call_firecrawl_extract.
    destruct (FIRECRAWL_API_KEY w); cbn [negb]; [|discriminate].
    destruct (firecrawl_extract w log kind keyword url) as [|response];
      [discriminate|].
    match goal with |- context [truthy ?x] => destruct (truthy x) end;
      [|discriminate].
    match goal with |- context [match ?x with PDict _ => _ | _ => _ end] =>
      destruct x; try discriminate end.
    destruct (truthy (dict_get d "error")); [discriminate|].
    destruct (truthy (dict_get d "data")) eqn:T; [|discriminate].
    cbn [fst]. intros H. injection H as <-. auto.
  - intros d Hr He. unfold call_firecrawl_extract. rewrite Hr.
    destruct (FIRECRAWL_API_KEY w); cbn [negb]; [|reflexivity].
    destruct d as [|kv d]; [reflexivity|].
    cbn [truthy]. rewrite He. reflexivity.
Qed.

(** ** What the adapters return *)

Lemma call_firecrawl_some_key (w : world) (kind : prompt_kind) (keyword url : string)
    (log : calls) (data : pyval) :
  fst (call_firecrawl_extract w kind keyword url log) = Some data ->
  FIRECRAWL_API_KEY w = true.
Proof.
  destruct (FIRECRAWL_API_KEY w) eqn:K; [reflexivity|].
  rewrite call_firecrawl_no_key by exact K. discriminate.
Qed.

(** X8.  A result of the two single-purpose adapters has both of its keys. *)
Theorem assessment_results_have_their_keys
    (w : world) (keyword url : string) (log : calls) (d : pydict) :
  (fst (assess_category_page_relevance w keyword url log) = Some d ->
   dict_has d "Relevant" = true /\ dict_has d "Analysis" = true
   /\ FIRECRAWL_API_KEY w = true)
  /\ (fst (assess_product_page_relevance w keyword url log) = Some d ->
      dict_has d "Relevance" = true /\ dict_has d "Analysis" = true
      /\ FIRECRAWL_API_KEY w = true).
Proof.
  split.
  - unfold assess_category_page_relevance.
    pose proof (call_firecrawl_some_key w CategoryPrompt keyword url log) as Hk.
    destruct (call_firecrawl_extract w CategoryPrompt keyword url log) as [r l].
    cbn [fst] in Hk.
    destruct r as [[| | | | |d']|]; try discriminate.
    destruct (truthy (PDict d') && dict_has d' "Relevant" && dict_has d' "Analysis")
      eqn:E; [|discriminate].
    cbn [fst]. intros H. injection H as <-.
    apply andb_true_iff in E. destruct E as [E E3].
    apply andb_true_iff in E. destruct E as [E1 E2].
    repeat split; auto. apply (Hk _ eq_refl).
  - unfold assess_product_page_relevance.
    pose proof (call_firecrawl_some_key w ProductPrompt keyword url log) as Hk.
    destruct (call_firecrawl_extract w ProductPrompt keyword url log) as [r l].
    cbn [fst] in Hk.
    destruct r as [[| | | | |d']|]; try discriminate.
    destruct (truthy (PDict d') && dict_has d' "Relevance" && dict_has d' "Analysis")
      eqn:E; [|discriminate].
    cbn [fst]. intros H. injection H as <-.
    apply andb_true_iff in E. destruct E as [E E3].
    apply andb_true_iff in E. destruct E as [E1 E2].
    repeat split; auto. apply (Hk _ eq_refl).
Qed.

Lemma py_in_strs_str (v : pyval) (l : list string) :
  py_in_strs v l = true -> exists s, v = PStr s /\ In s l.
Proof.
  unfold py_in_strs. intros H. apply existsb_exists in H.
  destruct H as [x [Hin Hx]]. destruct v; try discriminate.
  cbn [py_eq_str] in Hx. apply String.eqb_eq in Hx. subst x.
  exists s. auto.
Qed.

(** X9.  A result of the combined adapter has its three keys, an allowed page
    type and an allowed relevance value. *)
Theorem combined_result_is_validated
    (w : world) (keyword url : string) (log : calls) (d : pydict) :
  fst (classify_and_assess_url w keyword url log) = Some d ->
  dict_has d "analysis" = true
  /\ (exists type, dict_lookup d "determined_type" = Some (PStr type)
                   /\ In type allowed_types)
  /\ (exists relevance, dict_lookup d "relevance" = Some (PStr relevance)
                        /\ In relevance allowed_relevance).
Proof.
  unfold classify_and_assess_url.
  destruct (call_firecrawl_extract w CombinedPrompt keyword url log) as [r l].
  cbn [fst]. unfold validate_combined.
  destruct r as [[| | | | |d']|]; try discriminate.
  destruct (truthy (PDict d') && dict_has d' "determined_type"
            && dict_has d' "relevance" && dict_has d' "analysis") eqn:E;
    [|discriminate].
  destruct (py_in_strs (dict_get d' "determined_type") allowed_types
            && py_in_strs (dict_get d' "relevance") allowed_relevance) eqn:V;
    [|discriminate].
  intros H. injection H as <-.
  apply andb_true_iff in E. destruct E as [E E4].
  apply andb_true_iff in V. destruct V as [V1 V2].
  apply py_in_strs_str in V1. apply py_in_strs_str in V2.
  destruct V1 as [t [Ht Hint]]. destruct V2 as [rel [Hr Hinr]].
  unfold dict_get in Ht, Hr.
  split; [exact E4|]. split.
  - exists t. destruct (dict_lookup d' "determined_type"); [|discriminate].
    subst p. auto.
  - exists rel. destruct (dict_lookup d' "relevance"); [|discriminate].
    subst p. auto.
Qed.

Lemma adict_set_In (d : adict) (url : string) (v : pydict) :
  In (url, v) (adict_set d url v).
Proof.
  induction d as [|[k v'] d IH]; cbn [adict_set]; [left; reflexivity|].
  destruct (String.eqb k url) eqn:E.
  - apply String.eqb_eq in E. subst k. left. reflexivity.
  - right. exact IH.
Qed.

(** X10.  The listing adapter does not check the verdict, and stage 3 counts
    any verdict other than Closely or Loosely Related as Unrelated. *)
Theorem unvalidated_listing_verdict
    (w : world) (keyword url : string) (log : calls) (verdict analysis : pyval)
    (e : evidence) :
  FIRECRAWL_API_KEY w = true ->
  firecrawl_extract w log CategoryPrompt keyword url
  = fc_data [("Relevant", verdict); ("Analysis", analysis)] ->
  py_eq_str verdict "Closely Related" = false ->
  py_eq_str verdict "Loosely Related" = false ->
  let result := fst (assess_category_page_relevance w keyword url log) in
  result = Some [("Relevant", verdict); ("Analysis", analysis)]
  /\ snd (known_plp_step url result e) = false
  /\ best_plp_relevance (fst (known_plp_step url result e))
     = floor_unrelated (best_plp_relevance e)
  /\ In (url, [("Relevant", verdict); ("Analysis", analysis)])
        (known_plp_assessments (fst (known_plp_step url result e))).
Proof.
  intros Hk Hf Hc Hl result.
  assert (Hr : result = Some [("Relevant", verdict); ("Analysis", analysis)]).
  { unfold result, assess_category_page_relevance, call_firecrawl_extract.
    rewrite Hk, Hf. reflexivity. }
  rewrite Hr. split; [reflexivity|].
  unfold known_plp_step. cbn [result_truthy].
  replace (dict_get [("Relevant", verdict); ("Analysis", analysis)] "Relevant")
    with verdict by reflexivity.
  rewrite Hc, Hl. unfold best_is_none.
  cbn [best_plp_relevance set_known_plp].
  destruct (best_plp_relevance e) eqn:B; cbn; rewrite ?B;
    repeat split; auto; apply adict_set_In.
Qed.

(** ** The search adapter *)

Lemma ranking_data_rows (items : list pyval) :
  forall (index : nat) (rows : list serp_row),
    ranking_data index items = Some rows ->
    Forall (fun row =>
              index < row_position row <= index + List.length items
              /\ truthy (row_link row) = true
              /\ exists d,
                   nth_error items (row_position row - 1 - index) = Some (PDict d)
                   /\ dict_get d "link" = row_link row
                   /\ dict_get d "snippet" = row_snippet row) rows
    /\ positions_increase index rows
    /\ (forall k d,
          nth_error items k = Some (PDict d) ->
          truthy (dict_get d "link") = true ->
          In (index + k + 1, dict_get d "link", dict_get d "snippet") rows).
Proof.
  induction items as [|item items IH]; intros index rows; cbn [ranking_data].
  - intros H. injection H as <-. repeat split; [constructor|].
    intros k d Hk. destruct k; discriminate.
  - destruct item as [| | | | |d0]; cbn [py_get]; try discriminate.
    destruct (ranking_data (S index) items) as [rows'|] eqn:R; [|discriminate].
    destruct (IH (S index) rows' R) as [Hall [Hinc Hcomp]].
    assert (Hall' : Forall (fun row =>
              index < row_position row <= index + List.length (PDict d0 :: items)
              /\ truthy (row_link row) = true
              /\ exists d,
                   nth_error (PDict d0 :: items) (row_position row - 1 - index)
                   = Some (PDict d)
                   /\ dict_get d "link" = row_link row
                   /\ dict_get d "snippet" = row_snippet row) rows').
    { eapply Forall_impl; [|exact Hall].
      intros row [Hp [Ht [d [Hn Hd]]]]. cbn [List.length].
      split; [lia|]. split; [exact Ht|]. exists d. split; [|exact Hd].
      replace (row_position row - 1 - index) with (S (row_position row - 1 - S index))
        by lia.
      exact Hn. }
    assert (Hinc' : forall a, a <= S index -> positions_increase a rows').
    { intros a Ha. destruct rows' as [|r rs]; [exact I|].
      cbn [positions_increase] in *. destruct Hinc as [H1 H2]. split; [lia | exact H2]. }
    change (match dict_lookup d0 "link" with Some v => v | None => PNone end)
      with (dict_get d0 "link").
    change (match dict_lookup d0 "snippet" with Some v => v | None => PNone end)
      with (dict_get d0 "snippet").
    destruct (truthy (dict_get d0 "link")) eqn:T; intros H; injection H as <-.
    + split; [|split].
      * constructor; [|exact Hall'].
        unfold row_position, row_link, row_snippet. cbn [fst snd List.length].
        split; [lia|]. split; [exact T|]. exists d0.
        replace (index + 1 - 1 - index) with 0 by lia. auto.
      * cbn [positions_increase]. unfold row_position at 1 2. cbn [fst].
        split; [lia|]. apply Hinc'. lia.
      * intros k d Hk Hl. destruct k as [|k]; cbn [nth_error] in Hk.
        -- injection Hk as <-. left. f_equal. f_equal. lia.
        -- right. replace (index + S k + 1) with (S index + k + 1) by lia.
           apply Hcomp; assumption.
    + split; [exact Hall'|]. split; [apply Hinc'; lia|].
      intros k d Hk Hl. destruct k as [|k]; cbn [nth_error] in Hk.
      * injection Hk as <-. congruence.
      * replace (index + S k + 1) with (S index + k + 1) by lia.
        apply Hcomp; assumption.
Qed.

(** What [get_organic_results] went through to return its success pair. *)
Lemma get_organic_results_success (w : world) (keyword site_path : string)
    (log : calls) (html : pyval) (rows : list serp_row) :
  fst (get_organic_results w keyword site_path log) = Tuple2 html rows ->
  SERPAPI_API_KEY w = true
  /\ exists data res items,
       requests_get w log (serp_query keyword site_path) = HttpJson data
       /\ py_get data "organic_results" (PList []) = Some res
       /\ py_iter res = Some items
       /\ ranking_data 0 items = Some rows.
Proof.
  unfold get_organic_results.
  destruct (SERPAPI_API_KEY w); cbn [negb]; [|discriminate].
  destruct (requests_get w log (serp_query keyword site_path)) as [| |data] eqn:H1;
    try discriminate.
  destruct (py_get data "organic_results" (PList [])) as [res|] eqn:H2;
    [|discriminate].
  destruct (py_get data "search_metadata" (PDict [])) as [md|]; [|discriminate].
  destruct (py_get md "raw_html_file" PNone) as [raw|]; [|discriminate].
  destruct (py_iter res) as [items|] eqn:H3; [|discriminate].
  destruct (ranking_data 0 items) as [rows'|] eqn:R; [|discriminate].
  cbn [fst]. intros H. injection H as _ <-.
  split; [reflexivity|]. exists data, res, items. repeat split; assumption.
Qed.

(** X11.  Each row of a successful search comes from the organic result at
    its 1-based position and has a truthy link; positions increase
    strictly, so a skipped result leaves a gap; and every organic result
    with a truthy link has its row. *)
Theorem organic_rows_follow_results
    (w : world) (keyword site_path : string) (log : calls)
    (html : pyval) (rows : list serp_row) :
  fst (get_organic_results w keyword site_path log) = Tuple2 html rows ->
  exists data res items,
    requests_get w log (serp_query keyword site_path) = HttpJson data
    /\ py_get data "organic_results" (PList []) = Some res
    /\ py_iter res = Some items
    /\ Forall (row_from items) rows
    /\ positions_increase 0 rows
    /\ (forall k d,
          nth_error items k = Some (PDict d) ->
          truthy (dict_get d "link") = true ->
          In (k + 1, dict_get d "link", dict_get d "snippet") rows).
Proof.
  intros H.
  destruct (get_organic_results_success w keyword site_path log html rows H)
    as [_ [data [res [items [H1 [H2 [H3 H4]]]]]]].
  destruct (ranking_data_rows items 0 rows H4) as [Hall [Hinc Hcomp]].
  exists data, res, items. repeat split; auto.
  eapply Forall_impl; [|exact Hall].
  intros row [Hp [Ht [d [Hn Hd]]]]. unfold row_from.
  split; [cbn in Hp; lia|]. split; [exact Ht|]. exists d.
  replace (row_position row - 1) with (row_position row - 1 - 0) by lia. auto.
Qed.

(** X12.  Every failure of the search adapter has the same value, and its
    one request is made only with an API key. *)
Theorem get_organic_results_outcomes
    (w : world) (keyword site_path : string) (log : calls) :
  match fst (get_organic_results w keyword site_path log) with
  | Tuple3 a df c => a = PNone /\ df = [] /\ c = PNone
  | Tuple2 _ _ =>
      SERPAPI_API_KEY w = true
      /\ exists data, requests_get w log (serp_query keyword site_path) = HttpJson data
  end
  /\ snd (get_organic_results w keyword site_path log)
     = if SERPAPI_API_KEY w
       then (log ++ [SerpApiRequest (serp_query keyword site_path)])%list
       else log.
Proof.
  split.
  - destruct (fst (get_organic_results w keyword site_path log)) as [html rows|a df c]
      eqn:E.
    + destruct (get_organic_results_success w keyword site_path log html rows E)
        as [Hk [data [res [items [H1 _]]]]].
      split; [exact Hk | exists data; exact H1].
    + revert E. unfold get_organic_results, serp_failure.
      repeat match goal with
             | |- context [if ?c then _ else _] => destruct c
             | |- context [match ?x with _ => _ end] => destruct x
             end; cbn [fst]; intros E; try discriminate;
        injection E as <- <- <-; auto.
  - unfold get_organic_results.
    destruct (SERPAPI_API_KEY w); cbn [negb]; [|reflexivity].
    repeat match goal with
           | |- context [match ?x with _ => _ end] => destruct x
           end; reflexivity.
Qed.

(** X13.  Without a search API key the batch stops at its first keyword
    before any call is made. *)
Theorem search_without_key_raises
    (w : world) (known : list string) (keyword : string) (rest : list string)
    (log : calls) :
  SERPAPI_API_KEY w = false ->
  get_organic_results w keyword TARGET_SITE log = (Tuple3 PNone [] PNone, log)
  /\ analyze_keywords w (keyword :: rest) known log
     = (Raised (ValueError "too many values to unpack (expected 2)"), log).
Proof.
  intros Hk.
  assert (Hg : get_organic_results w keyword TARGET_SITE log
               = (Tuple3 PNone [] PNone, log)).
  { unfold get_organic_results. rewrite Hk. reflexivity. }
  split; [exact Hg|].
  unfold analyze_keywords. cbn [analyze_loop]. unfold analyze_keyword.
  rewrite Hg. reflexivity.
Qed.

(** X14.  A response without organic results ends the keyword at once. *)
Theorem no_organic_results_no_assessment
    (w : world) (known : list string) (keyword : string) (log : calls)
    (d metadata : pydict) :
  SERPAPI_API_KEY w = true ->
  requests_get w log (serp_query keyword TARGET_SITE) = HttpJson (PDict d) ->
  dict_lookup d "organic_results" = None ->
  dict_lookup d "search_metadata" = Some (PDict metadata) ->
  analyze_keyword w known keyword log
  = (Returned (mkResult keyword false None [] [] [] NoSearchResults
                 "No organic results found for this keyword on the target site."
                 (dict_get metadata "raw_html_file")),
     (log ++ [SerpApiRequest (serp_query keyword TARGET_SITE)])%list).
Proof.
  intros Hk Hr Ho Hm. unfold analyze_keyword, get_organic_results.
  rewrite Hk. cbn [negb]. rewrite Hr. cbn [py_get]. rewrite Ho, Hm.
  cbn [py_get py_iter ranking_data]. reflexivity.
Qed.

(** ** The search query *)

Lemma has_char_In (c : ascii) (s : string) :
  has_char c s = true <-> In c (chars s).
Proof.
  unfold has_char, chars. induction s as [|a s IH];
    cbn [string_forallb list_ascii_of_string In].
  - split; [discriminate | intros []].
  - destruct (Ascii.eqb a c) eqn:E; cbn [negb andb].
    + apply Ascii.eqb_eq in E. split; auto.
    + rewrite IH. split; [auto|]. intros [H | H]; [|exact H].
      subst a. rewrite Ascii.eqb_refl in E. discriminate.
Qed.

Lemma chars_app (a b : string) : chars (a ++ b) = (chars a ++ chars b)%list.
Proof.
  unfold chars. induction a as [|c a IH]; cbn; [reflexivity|].
  rewrite IH. reflexivity.
Qed.

Lemma prefix_empty (s : string) : String.prefix "" s = true.
Proof. destruct s; reflexivity. Qed.

Lemma replace_ampersand_step (c : ascii) (s : string) :
  str_replace_from "&" "and" 0 (String c s)
  = if Ascii.eqb c "&" then "and" ++ str_replace_from "&" "and" 0 s
    else String c (str_replace_from "&" "and" 0 s).
Proof.
  cbn [str_replace_from String.prefix String.length Nat.sub].
  destruct (ascii_dec "&" c) as [<- | Hne].
  - rewrite prefix_empty. reflexivity.
  - destruct (Ascii.eqb c "&") eqn:E; [|reflexivity].
    apply Ascii.eqb_eq in E. subst c. contradiction Hne. reflexivity.
Qed.

(** X15.  The query carries no ampersand; a keyword without one is sent as
    it is. *)
Theorem serp_query_ampersand (keyword : string) :
  serp_query keyword TARGET_SITE
  = str_replace "&" "and" keyword ++ " site:fatshackvintage.com.au"
  /\ ~ In "&"%char (chars (serp_query keyword TARGET_SITE))
  /\ (~ In "&"%char (chars keyword) -> str_replace "&" "and" keyword = keyword).
Proof.
  assert (Hq : serp_query keyword TARGET_SITE
               = str_replace "&" "and" keyword ++ " site:fatshackvintage.com.au")
    by reflexivity.
  split; [exact Hq|]. split.
  - rewrite Hq, chars_app. intros H. apply in_app_iff in H. destruct H as [H | H].
    + unfold str_replace in H. induction keyword as [|c s IH]; [destruct H|].
      rewrite replace_ampersand_step in H.
      destruct (Ascii.eqb c "&") eqn:E.
      * rewrite chars_app in H. apply in_app_iff in H. destruct H as [H | H].
        -- cbn in H. intuition discriminate.
        -- apply IH; [reflexivity | exact H].
      * cbn [chars list_ascii_of_string In] in H. destruct H as [H | H].
        -- subst c. discriminate.
        -- apply IH; [reflexivity | exact H].
    + cbn in H. intuition discriminate.
  - clear Hq. unfold str_replace.
    induction keyword as [|c s IH]; intros Hn; [reflexivity|].
    rewrite replace_ampersand_step.
    destruct (Ascii.eqb c "&") eqn:E.
    + apply Ascii.eqb_eq in E. subst c. contradiction Hn. left. reflexivity.
    + rewrite IH; [reflexivity|]. intros H. apply Hn. right. exact H.
Qed.

(** ** Strings, piece by piece *)

Lemma forallb_app (P : ascii -> bool) (a b : string) :
  string_forallb P (a ++ b) = string_forallb P a && string_forallb P b.
Proof.
  induction a as [|c a IH]; cbn [append string_forallb]; [reflexivity|].
  rewrite IH, andb_assoc. reflexivity.
Qed.

Lemma has_char_app (c : ascii) (a b : string) :
  has_char c (a ++ b) = has_char c a || has_char c b.
Proof. unfold has_char. rewrite forallb_app, negb_andb. reflexivity. Qed.

Lemma has_char_false (c : ascii) (s : string) :
  has_char c s = false <-> string_forallb (fun a => negb (Ascii.eqb a c)) s = true.
Proof. unfold has_char. rewrite negb_false_iff. reflexivity. Qed.

Lemma forallb_impl (P Q : ascii -> bool) (s : string) :
  (forall c, P c = true -> Q c = true) ->
  string_forallb P s = true -> string_forallb Q s = true.
Proof.
  intros H. induction s as [|c s IH]; cbn [string_forallb]; [reflexivity|].
  intros Hs. apply andb_true_iff in Hs. destruct Hs as [H1 H2].
  rewrite (H c H1), (IH H2). reflexivity.
Qed.

Lemma split_on_parts (c : ascii) (s l r : string) :
  split_on c s = Some (l, r) ->
  s = l ++ String c r /\ has_char c l = false.
Proof.
  revert l r. induction s as [|a s IH]; intros l r; cbn [split_on]; [discriminate|].
  destruct (Ascii.eqb a c) eqn:E.
  - apply Ascii.eqb_eq in E. subst a. intros H. injection H as <- <-. auto.
  - destruct (split_on c s) as [[l' r']|]; [|discriminate].
    intros H. injection H as <- <-. destruct (IH l' r' eq_refl) as [-> Hl].
    split; [reflexivity|]. unfold has_char in *. cbn [string_forallb].
    rewrite E. cbn [negb andb]. exact Hl.
Qed.

Lemma split_on_none (c : ascii) (s : string) :
  split_on c s = None <-> has_char c s = false.
Proof.
  unfold has_char. induction s as [|a s IH]; cbn [split_on string_forallb].
  - split; reflexivity.
  - destruct (Ascii.eqb a c); cbn [negb andb]; [split; discriminate|].
    rewrite <- IH. destruct (split_on c s) as [[l r]|]; split; congruence.
Qed.

Lemma split_on_app (c : ascii) (l r : string) :
  has_char c l = false -> split_on c (l ++ String c r) = Some (l, r).
Proof.
  unfold has_char. induction l as [|a l IH]; cbn [append split_on string_forallb].
  - rewrite Ascii.eqb_refl. reflexivity.
  - destruct (Ascii.eqb a c); cbn [negb andb]; [discriminate|].
    intros H. rewrite (IH H). reflexivity.
Qed.

Lemma splitnetloc_parts (s : string) :
  s = fst (splitnetloc s) ++ snd (splitnetloc s)
  /\ string_forallb (fun a => negb (is_netloc_delim a)) (fst (splitnetloc s)) = true.
Proof.
  induction s as [|a s IH]; cbn [splitnetloc]; [auto|].
  destruct (is_netloc_delim a) eqn:E; [auto|].
  destruct (splitnetloc s) as [n r]. cbn [fst snd append string_forallb] in *.
  destruct IH as [-> IH]. rewrite E, IH. auto.
Qed.

Lemma splitnetloc_app (n p : string) :
  string_forallb (fun a => negb (is_netloc_delim a)) n = true ->
  p = "" \/ startswith p "/" = true ->
  splitnetloc (n ++ p) = (n, p).
Proof.
  intros Hn Hp. induction n as [|a n IH]; cbn [append].
  - destruct Hp as [-> | Hp]; [reflexivity|].
    apply startswith_spec in Hp. destruct Hp as [r ->]. reflexivity.
  - cbn [string_forallb] in Hn. apply andb_true_iff in Hn. destruct Hn as [Ha Hn].
    cbn [splitnetloc]. apply negb_true_iff in Ha. rewrite Ha, (IH Hn). reflexivity.
Qed.

Lemma last_segment_no_slash (t : string) :
  has_char "/" t = false -> last_segment t = ("", t).
Proof.
  unfold has_char. induction t as [|b t IH]; cbn [string_forallb last_segment];
    [reflexivity|].
  destruct (Ascii.eqb b "/") eqn:E; cbn [negb andb]; [discriminate|].
  intros H. rewrite (IH H). reflexivity.
Qed.

Lemma last_segment_unique (h t : string) :
  has_char "/" t = false ->
  h = "" \/ ends_with_slash h ->
  last_segment (h ++ t) = (h, t).
Proof.
  intros Ht. induction h as [|a h IH]; intros Hh; cbn [append].
  - apply last_segment_no_slash. exact Ht.
  - destruct Hh as [Hh | [h' Hh]]; [discriminate|].
    cbn [last_segment]. destruct h as [|b h].
    + destruct h' as [|x h'']; cbn [append] in Hh.
      * injection Hh as ->. cbn [append]. rewrite (last_segment_no_slash t Ht).
        reflexivity.
      * injection Hh as _ Hh. destruct h''; discriminate.
    + destruct h' as [|x h'']; cbn [append] in Hh; [discriminate|].
      injection Hh as _ Hh.
      rewrite IH by (right; exists h''; exact Hh). reflexivity.
Qed.

Lemma last_segment_shape (s : string) :
  s = fst (last_segment s) ++ snd (last_segment s)
  /\ has_char "/" (snd (last_segment s)) = false
  /\ (fst (last_segment s) = "" \/ ends_with_slash (fst (last_segment s))).
Proof.
  induction s as [|a s IH]; cbn [last_segment]; [cbn; auto|].
  destruct (last_segment s) as [h t]. cbn [fst snd] in IH.
  destruct IH as [Hs [Ht Hh]].
  destruct h as [|b h].
  - cbn [append] in Hs. subst t. destruct (Ascii.eqb a "/") eqn:E.
    + apply Ascii.eqb_eq in E. subst a. cbn [fst snd].
      split; [reflexivity|]. split; [exact Ht|]. right. exists "". reflexivity.
    + cbn [fst snd append]. split; [reflexivity|]. split; [|auto].
      unfold has_char in *. cbn [string_forallb]. rewrite E. exact Ht.
  - cbn [fst snd append]. split; [rewrite Hs; reflexivity|]. split; [exact Ht|].
    right. destruct Hh as [Hh | [h' Hh]]; [discriminate|].
    exists (String a h'). cbn [append]. rewrite Hh. reflexivity.
Qed.

(** ** What [urlparse] returns *)

Lemma scheme_char_plain (c : ascii) :
  is_scheme_char c = true ->
  is_scheme_char (to_lower c) = true
  /\ to_lower (to_lower c) = to_lower c
  /\ is_safe (to_lower c) = true
  /\ negb (Ascii.eqb (to_lower c) "?") = true
  /\ negb (Ascii.eqb (to_lower c) "#") = true
  /\ negb (Ascii.eqb (to_lower c) ":") = true.
Proof.
  destruct c as [[] [] [] [] [] [] [] []]; vm_compute; intros H;
    first [discriminate H | repeat split].
Qed.

Lemma alpha_lower (c : ascii) :
  is_alpha c = true ->
  is_alpha (to_lower c) = true /\ is_c0_or_space (to_lower c) = false.
Proof.
  destruct c as [[] [] [] [] [] [] [] []]; vm_compute; intros H;
    first [discriminate H | repeat split].
Qed.

Lemma lowered_scheme (s : string) :
  string_forallb is_scheme_char s = true ->
  string_forallb is_scheme_char (string_map to_lower s) = true
  /\ string_map to_lower (string_map to_lower s) = string_map to_lower s.
Proof.
  induction s as [|c s IH]; cbn [string_forallb string_map]; [auto|].
  intros H. apply andb_true_iff in H. destruct H as [Hc Hs].
  destruct (scheme_char_plain c Hc) as [H1 [H2 _]]. destruct (IH Hs) as [I1 I2].
  rewrite H1, I1, H2, I2. auto.
Qed.

Lemma lower_scheme_chars (s : string) (P : ascii -> bool) :
  lower_scheme s ->
  (forall c, is_scheme_char c = true -> P (to_lower c) = true) ->
  string_forallb P s = true.
Proof.
  intros [_ [Hs Hl]] HP. rewrite <- Hl. clear Hl.
  induction s as [|c s IH]; cbn [string_forallb string_map]; [reflexivity|].
  cbn [string_forallb] in Hs. apply andb_true_iff in Hs. destruct Hs as [Hc Hs].
  rewrite (HP c Hc), (IH Hs). reflexivity.
Qed.

Lemma split_scheme_shape (s0 : string) :
  (split_scheme s0 = ("", s0))
  \/ (lower_scheme (fst (split_scheme s0))
      /\ exists pre, s0 = pre ++ String ":" (snd (split_scheme s0))).
Proof.
  unfold split_scheme.
  destruct (split_on ":" s0) as [[[|c0 pre] rest]|] eqn:E; auto.
  destruct (is_alpha c0 && string_forallb is_scheme_char (String c0 pre)) eqn:C; auto.
  right. apply andb_true_iff in C. destruct C as [Ha Hs].
  destruct (split_on_parts _ _ _ _ E) as [Hs0 _].
  cbn [fst snd]. split; [|exists (String c0 pre); exact Hs0].
  destruct (lowered_scheme _ Hs) as [H1 H2].
  split; [|split; assumption].
  cbn [string_map]. exists (to_lower c0), (string_map to_lower pre).
  split; [reflexivity | apply alpha_lower; exact Ha].
Qed.

Lemma filter_forallb (P : ascii -> bool) (s : string) :
  string_forallb P (string_filter P s) = true.
Proof.
  induction s as [|c s IH]; cbn [string_filter]; [reflexivity|].
  destruct (P c) eqn:E; [|exact IH]. cbn [string_forallb]. rewrite E, IH. reflexivity.
Qed.

Lemma filter_id (P : ascii -> bool) (s : string) :
  string_forallb P s = true -> string_filter P s = s.
Proof.
  induction s as [|c s IH]; cbn [string_filter string_forallb]; [reflexivity|].
  intros H. apply andb_true_iff in H. destruct H as [Hc Hs].
  rewrite Hc, (IH Hs). reflexivity.
Qed.

(** The test for a leading [//] written with comparisons. *)
Lemma netloc_match (url : string) :
  match url with
  | String "/" (String "/" after) => Some (splitnetloc after)
  | _ => None
  end
  = match url with
    | String a (String b after) =>
        if Ascii.eqb a "/" && Ascii.eqb b "/" then Some (splitnetloc after) else None
    | _ => None
    end.
Proof.
  destruct url as [|a rest]; [reflexivity|].
  destruct a as [[] [] [] [] [] [] [] []]; destruct rest as [|b after];
    try reflexivity.
  destruct b as [[] [] [] [] [] [] [] []]; reflexivity.
Qed.

Lemma no_delim_chars (n : string) :
  string_forallb no_delim n = true ->
  has_char "/" n = false /\ has_char "?" n = false /\ has_char "#" n = false.
Proof.
  intros H. repeat split; apply has_char_false;
    (eapply forallb_impl; [|exact H]); intros c; unfold no_delim, is_netloc_delim;
    destruct (Ascii.eqb c "/"), (Ascii.eqb c "?"), (Ascii.eqb c "#");
    cbn; congruence.
Qed.

(** The scheme, network location and path [urlsplit] returns. *)
Lemma urlsplit_shape (u scheme netloc path query fragment : string) :
  urlsplit u = Some (scheme, netloc, path, query, fragment) ->
  (scheme = "" \/ lower_scheme scheme)
  /\ string_forallb no_delim netloc = true
  /\ string_forallb is_safe netloc = true
  /\ unmatched_bracket netloc = false
  /\ host_refused netloc = false
  /\ string_forallb is_safe path = true
  /\ has_char "#" path = false
  /\ has_char "?" path = false.
Proof.
  unfold urlsplit.
  set (s0 := string_filter (fun c => negb (is_unsafe c)) (lstrip_c0 u)).
  assert (Hs0 : string_forallb is_safe s0 = true) by apply filter_forallb.
  assert (Hsch : (fst (split_scheme s0) = "" \/ lower_scheme (fst (split_scheme s0)))
                 /\ string_forallb is_safe (snd (split_scheme s0)) = true).
  { destruct (split_scheme_shape s0) as [-> | [Hl [pre Hp]]]; [auto|].
    split; [auto|]. rewrite Hp, forallb_app in Hs0.
    apply andb_true_iff in Hs0. destruct Hs0 as [_ Hs0].
    cbn [string_forallb] in Hs0. apply andb_true_iff in Hs0. apply Hs0. }
  destruct (split_scheme s0) as [sch url0]. cbn [fst snd] in Hsch.
  destruct Hsch as [Hsch Hu0].
  rewrite netloc_match.
  set (nr := match url0 with
             | String a (String b after) =>
                 if Ascii.eqb a "/" && Ascii.eqb b "/"
                 then Some (splitnetloc after) else None
             | _ => None
             end).
  assert (Hnr : string_forallb no_delim
                  (match nr with Some (n, _) => n | None => "" end) = true
                /\ string_forallb is_safe
                     (match nr with Some (n, _) => n | None => "" end) = true
                /\ string_forallb is_safe
                     (match nr with Some (_, r) => r | None => url0 end) = true).
  { unfold nr. destruct url0 as [|a [|b after]]; auto.
    destruct (Ascii.eqb a "/" && Ascii.eqb b "/"); auto.
    destruct (splitnetloc_parts after) as [Hp Hn].
    cbn [string_forallb] in Hu0.
    apply andb_true_iff in Hu0. destruct Hu0 as [_ Hu0].
    apply andb_true_iff in Hu0. destruct Hu0 as [_ Hu0].
    rewrite Hp, forallb_app in Hu0. apply andb_true_iff in Hu0.
    destruct (splitnetloc after) as [n r]. cbn [fst snd] in *.
    destruct Hu0 as [H1 H2]. auto. }
  destruct Hnr as [Hn1 [Hn2 Hr]].
  set (netloc0 := match nr with Some (n, _) => n | None => "" end) in *.
  set (url1 := match nr with Some (_, r) => r | None => url0 end) in *.
  fold (unmatched_bracket netloc0).
  destruct (unmatched_bracket netloc0) eqn:B; [discriminate|].
  fold (host_refused netloc0).
  destruct (host_refused netloc0) eqn:Bh; [discriminate|].
  assert (Hf : let p := match split_on "#" url1 with
                        | Some p => p
                        | None => (url1, "")
                        end in
               string_forallb is_safe (fst p) = true /\ has_char "#" (fst p) = false).
  { destruct (split_on "#" url1) as [[a b]|] eqn:F; cbn [fst].
    - destruct (split_on_parts _ _ _ _ F) as [Hp Hc]. split; [|exact Hc].
      rewrite Hp, forallb_app in Hr. apply andb_true_iff in Hr. apply Hr.
    - split; [exact Hr | apply split_on_none; exact F]. }
  cbv zeta in Hf.
  destruct (match split_on "#" url1 with Some p => p | None => (url1, "") end)
    as [url2 frag].
  cbn [fst] in Hf. destruct Hf as [Hf1 Hf2].
  assert (Hq : let p := match split_on "?" url2 with
                        | Some p => p
                        | None => (url2, "")
                        end in
               string_forallb is_safe (fst p) = true
               /\ has_char "#" (fst p) = false /\ has_char "?" (fst p) = false).
  { destruct (split_on "?" url2) as [[a b]|] eqn:Q; cbn [fst].
    - destruct (split_on_parts _ _ _ _ Q) as [Hp Hc].
      rewrite Hp, forallb_app in Hf1. apply andb_true_iff in Hf1.
      rewrite Hp, has_char_app in Hf2. apply orb_false_iff in Hf2.
      split; [apply Hf1|]. split; [apply Hf2 | exact Hc].
    - split; [exact Hf1|]. split; [exact Hf2 | apply split_on_none; exact Q]. }
  cbv zeta in Hq.
  destruct (match split_on "?" url2 with Some p => p | None => (url2, "") end)
    as [url3 qry].
  cbn [fst] in Hq. destruct Hq as [Hq1 [Hq2 Hq3]].
  intros H. injection H as <- <- <- _ _.
  repeat split; assumption.
Qed.

Lemma urlparse_shape (u : string) (parsed : ParseResult) :
  urlparse u = Some parsed ->
  (p_scheme parsed = "" \/ lower_scheme (p_scheme parsed))
  /\ string_forallb no_delim (p_netloc parsed) = true
  /\ string_forallb is_safe (p_netloc parsed) = true
  /\ unmatched_bracket (p_netloc parsed) = false
  /\ host_refused (p_netloc parsed) = false
  /\ string_forallb is_safe (p_path parsed) = true
  /\ has_char "#" (p_path parsed) = false
  /\ has_char "?" (p_path parsed) = false
  /\ params_taken (p_scheme parsed) (p_path parsed).
Proof.
  unfold urlparse.
  destruct (urlsplit u) as [[[[[scheme netloc] path] query] fragment]|] eqn:E;
    [|discriminate].
  destruct (urlsplit_shape _ _ _ _ _ _ E)
    as [Hs [Hn1 [Hn2 [Hb [Hbh [Hp1 [Hp2 Hp3]]]]]]].
  destruct (existsb (String.eqb scheme) uses_params) eqn:U; cbn [andb].
  - destruct (has_char ";" path) eqn:S.
    + unfold splitparams.
      destruct (last_segment_shape path) as [Hpath [Ht Hh]].
      destruct (last_segment path) as [h t]. cbn [fst snd] in Hpath, Ht, Hh.
      destruct (split_on ";" t) as [[l r]|] eqn:T.
      * destruct (split_on_parts _ _ _ _ T) as [Hl Hlc].
        intros H. injection H as <-. cbn [p_scheme p_netloc p_path].
        assert (Hsub : forall P, string_forallb P path = true ->
                                 string_forallb P (h ++ l) = true).
        { intros P HP. rewrite Hpath, Hl, !forallb_app in HP.
          rewrite forallb_app.
          apply andb_true_iff in HP. destruct HP as [H1 H2].
          apply andb_true_iff in H2. destruct H2 as [H2 _].
          rewrite H1, H2. reflexivity. }
        repeat split; auto.
        -- apply has_char_false, Hsub, has_char_false, Hp2.
        -- apply has_char_false, Hsub, has_char_false, Hp3.
        -- intros _. rewrite last_segment_unique; [exact Hlc | | exact Hh].
           rewrite Hl, has_char_app in Ht. apply orb_false_iff in Ht. apply Ht.
      * intros H. injection H as <-. cbn [p_scheme p_netloc p_path].
        repeat split; auto. intros _.
        destruct (last_segment_shape path) as [Hpath' _].
        apply split_on_none in T.
        replace (snd (last_segment path)) with t; [exact T|].
        pose proof (last_segment_unique h t Ht Hh) as Hu. rewrite <- Hpath in Hu.
        rewrite Hu. reflexivity.
    + intros H. injection H as <-. cbn [p_scheme p_netloc p_path].
      repeat split; auto. intros _.
      destruct (last_segment_shape path) as [Hpath _].
      rewrite Hpath, has_char_app in S. apply orb_false_iff in S. apply S.
  - intros H. injection H as <-. cbn [p_scheme p_netloc p_path].
    repeat split; auto. intros Hu. congruence.
Qed.

(** ** Normalised URLs *)

Lemma lower_scheme_https : lower_scheme "https".
Proof.
  split; [exists "h"%char, "ttps"; split; reflexivity|]. split; reflexivity.
Qed.

Lemma params_taken_slash (scheme path : string) :
  params_taken scheme path -> params_taken scheme ("/" ++ path).
Proof.
  unfold params_taken. intros H Hu. specialize (H Hu).
  destruct (last_segment_shape path) as [Hp [Ht Hh]].
  destruct (last_segment path) as [h t]. cbn [fst snd] in *.
  rewrite Hp.
  replace ("/" ++ h ++ t) with (("/" ++ h) ++ t) by reflexivity.
  rewrite last_segment_unique; [exact H | exact Ht|].
  right. destruct Hh as [-> | [h' ->]]; [exists ""; reflexivity|].
  exists ("/" ++ h'). reflexivity.
Qed.

(** What [clean_url] returns is put together from normal parts. *)
Lemma clean_url_parts (url : pyval) (c : string) :
  clean_url url = Some c ->
  exists scheme netloc path,
    c = scheme ++ String ":" ("//" ++ netloc ++ path)
    /\ normal_parts scheme netloc path.
Proof.
  unfold clean_url. destruct url as [| | |u| |]; try discriminate.
  destruct (urlparse u) as [parsed|] eqn:E; [|discriminate].
  destruct (urlparse_shape u parsed E)
    as [Hs [Hn1 [Hn2 [Hb [Hbh [Hp1 [Hp2 [Hp3 Hpt]]]]]]]].
  set (scheme := if str_nonempty (p_scheme parsed) then p_scheme parsed else "https").
  set (netloc := if str_nonempty (p_netloc parsed) then p_netloc parsed else TARGET_SITE).
  set (path0 := if startswith (p_path parsed) "/" then p_path parsed
                else "/" ++ p_path parsed).
  set (path := if String.eqb path0 "/" then "" else path0).
  assert (Hp0 : startswith path0 "/" = true).
  { unfold path0. destruct (startswith (p_path parsed) "/") eqn:S; [exact S|].
    apply startswith_spec. exists (p_path parsed). reflexivity. }
  assert (Hp0s : string_forallb is_safe path0 = true /\ has_char "#" path0 = false
                 /\ has_char "?" path0 = false).
  { unfold path0. destruct (startswith (p_path parsed) "/"); [auto|].
    rewrite forallb_app, !has_char_app, Hp1, Hp2, Hp3. auto. }
  assert (Hsch : lower_scheme scheme /\ str_nonempty scheme = true
                 /\ params_taken scheme (p_path parsed)).
  { unfold scheme. destruct Hs as [Hs | Hs].
    - rewrite Hs in *. cbn [str_nonempty]. split; [apply lower_scheme_https|].
      split; [reflexivity|]. intros _. apply Hpt. reflexivity.
    - assert (N : str_nonempty (p_scheme parsed) = true).
      { destruct Hs as [[c0 [r [Hc _]]] _]. rewrite Hc. reflexivity. }
      rewrite N. auto. }
  destruct Hsch as [Hsl [Hsn Hst]].
  assert (Hnet : str_nonempty netloc = true /\ string_forallb no_delim netloc = true
                 /\ string_forallb is_safe netloc = true
                 /\ unmatched_bracket netloc = false
                 /\ host_refused netloc = false).
  { unfold netloc. destruct (str_nonempty (p_netloc parsed)) eqn:N;
      [repeat split; assumption|].
    repeat split; reflexivity. }
  destruct Hnet as [Hnn [Hnd [Hns [Hnb Hnh]]]].
  assert (Hpath : (path = "" \/ (startswith path "/" = true /\ path <> "/"))
                  /\ string_forallb is_safe path = true
                  /\ has_char "#" path = false /\ has_char "?" path = false
                  /\ params_taken scheme path).
  { unfold path. destruct (String.eqb path0 "/") eqn:Q.
    - repeat split; auto; try (intros _; reflexivity).
    - split; [right; split; [exact Hp0|]; intros Heq; rewrite Heq in Q; discriminate|].
      destruct Hp0s as [A [B C]]. repeat split; auto.
      unfold path0. destruct (startswith (p_path parsed) "/"); [exact Hst|].
      apply params_taken_slash. exact Hst. }
  destruct Hpath as [Hpa [Hpb [Hpc [Hpd Hpe]]]].
  intros H. injection H as <-.
  exists scheme, netloc, path. split.
  - apply urlunparse_clean; [exact Hsn | exact Hnn|].
    destruct Hpa as [Hpa | [Hpa _]]; auto.
  - constructor; assumption.
Qed.

Lemma alpha_not_space (c : ascii) : is_alpha c = true -> is_c0_or_space c = false.
Proof.
  destruct c as [[] [] [] [] [] [] [] []]; vm_compute; intros H;
    first [discriminate H | reflexivity].
Qed.

Lemma urlparse_normal (scheme netloc path : string) :
  normal_parts scheme netloc path ->
  urlparse (scheme ++ String ":" ("//" ++ netloc ++ path))
  = Some (mkParse scheme netloc path "" "" "").
Proof.
  intros [Hs Hnn Hnd Hns Hnb Hnh Hp Hps Hpf Hpq Hpp].
  assert (Hsafe : string_forallb is_safe scheme = true).
  { apply (lower_scheme_chars scheme is_safe Hs). intros c Hc.
    apply (scheme_char_plain c Hc). }
  assert (Hcolon : has_char ":" scheme = false).
  { apply has_char_false. apply (lower_scheme_chars scheme _ Hs). intros c Hc.
    apply (scheme_char_plain c Hc). }
  destruct Hs as [[c0 [r [Hc Ha]]] [Hf Hl]].
  assert (Hsplit : urlsplit (scheme ++ String ":" ("//" ++ netloc ++ path))
                   = Some (scheme, netloc, path, "", "")).
  { unfold urlsplit.
    replace (lstrip_c0 (scheme ++ String ":" ("//" ++ netloc ++ path)))
      with (scheme ++ String ":" ("//" ++ netloc ++ path))
      by (rewrite Hc; cbn [append lstrip_c0]; rewrite (alpha_not_space c0 Ha);
          reflexivity).
    rewrite (filter_id is_safe).
    2:{ rewrite forallb_app, Hsafe. cbn [andb append string_forallb].
        rewrite forallb_app, Hns, Hps. reflexivity. }
    assert (Hss : split_scheme (scheme ++ String ":" ("//" ++ netloc ++ path))
                  = (scheme, "//" ++ netloc ++ path)).
    { unfold split_scheme. rewrite (split_on_app ":" scheme _ Hcolon).
      rewrite Hc in *. rewrite Ha, Hf, Hl. reflexivity. }
    rewrite Hss. cbn [append]. rewrite (splitnetloc_app netloc path Hnd).
    2:{ destruct Hp as [Hp | [Hp _]]; auto. }
    fold (unmatched_bracket netloc). rewrite Hnb.
    fold (host_refused netloc). rewrite Hnh.
    apply split_on_none in Hpf. apply split_on_none in Hpq.
    rewrite Hpf, Hpq. reflexivity. }
  unfold urlparse. rewrite Hsplit.
  destruct (existsb (String.eqb scheme) uses_params) eqn:U; cbn [andb];
    [|reflexivity].
  destruct (has_char ";" path) eqn:S; [|reflexivity].
  unfold splitparams. specialize (Hpp U).
  destruct (last_segment path) as [h t]. cbn [snd] in Hpp.
  apply split_on_none in Hpp. rewrite Hpp. reflexivity.
Qed.

Lemma clean_url_normal (scheme netloc path : string) :
  normal_parts scheme netloc path ->
  clean_url (PStr (scheme ++ String ":" ("//" ++ netloc ++ path)))
  = Some (scheme ++ String ":" ("//" ++ netloc ++ path)).
Proof.
  intros Hn. unfold clean_url. rewrite (urlparse_normal _ _ _ Hn).
  cbn [p_scheme p_netloc p_path].
  destruct Hn as [Hs Hnn Hnd Hns Hnb Hnh Hp Hps Hpf Hpq Hpp].
  assert (Hsn : str_nonempty scheme = true).
  { destruct Hs as [[c0 [r [-> _]]] _]. reflexivity. }
  rewrite Hsn, Hnn.
  assert (Hpath : (if String.eqb (if startswith path "/" then path else "/" ++ path) "/"
                   then "" else if startswith path "/" then path else "/" ++ path)
                  = path).
  { destruct Hp as [-> | [Hp1 Hp2]]; [reflexivity|].
    rewrite Hp1. destruct (String.eqb path "/") eqn:Q; [|reflexivity].
    apply String.eqb_eq in Q. contradiction. }
  rewrite Hpath. f_equal. apply urlunparse_clean; [exact Hsn | exact Hnn|].
  destruct Hp as [Hp | [Hp _]]; auto.
Qed.

(** X16.  Normalising a normalised URL changes nothing. *)
Theorem clean_url_idempotent (url : pyval) (c : string) :
  clean_url url = Some c -> clean_url (PStr c) = Some c.
Proof.
  intros H. destruct (clean_url_parts url c H) as [scheme [netloc [path [-> Hn]]]].
  apply clean_url_normal. exact Hn.
Qed.

(** X17.  A normalised URL has no query string and no fragment. *)
Theorem clean_url_strips_query_and_fragment (url : pyval) (c : string) :
  clean_url url = Some c ->
  ~ In "?"%char (chars c) /\ ~ In "#"%char (chars c).
Proof.
  intros H. destruct (clean_url_parts url c H) as [scheme [netloc [path [-> Hn]]]].
  destruct Hn as [Hs Hnn Hnd Hns Hnb Hnh Hp Hps Hpf Hpq Hpp].
  destruct (no_delim_chars netloc Hnd) as [_ [Hnq Hnf]].
  assert (Hsq : has_char "?" scheme = false).
  { apply has_char_false. apply (lower_scheme_chars scheme _ Hs). intros c Hc.
    apply (scheme_char_plain c Hc). }
  assert (Hsf : has_char "#" scheme = false).
  { apply has_char_false. apply (lower_scheme_chars scheme _ Hs). intros c Hc.
    apply (scheme_char_plain c Hc). }
  split; rewrite <- has_char_In; intros Hin;
    change (scheme ++ String ":" ("//" ++ netloc ++ path))
      with (scheme ++ "://" ++ (netloc ++ path)) in Hin;
    rewrite !has_char_app in Hin;
    rewrite ?Hsq, ?Hsf, ?Hnq, ?Hnf, ?Hpq, ?Hpf in Hin; discriminate Hin.
Qed.

(** X18.  A URL is classified as its normalised form is. *)
Theorem classify_url_of_normal_form (url : pyval) (c : string) (known : list string) :
  clean_url url = Some c ->
  classify_url url known = classify_url (PStr c) known.
Proof.
  intros H. unfold classify_url.
  destruct (clean_url_parts url c H) as [scheme [netloc [path [Hc Hn]]]].
  rewrite H. subst c. rewrite (clean_url_normal _ _ _ Hn). reflexivity.
Qed.

(** ** Classification and the known-listing list *)

(** X19.  The known-listing list can only turn a URL into a Known PLP. *)
Theorem known_list_only_promotes (url : pyval) (known : list string) :
  (classify_url url known = Irrelevant <-> classify_url url [] = Irrelevant)
  /\ (classify_url url known = classify_url url []
      \/ (classify_url url known = KnownPLP
          /\ exists c, clean_url url = Some c /\ In c known)).
Proof.
  unfold classify_url. destruct (clean_url url) as [c|]; [|split; [tauto | auto]].
  destruct (negb (str_nonempty c)); [split; [tauto | auto]|].
  destruct (is_irrelevant c); [split; [tauto | auto]|].
  unfold is_known_plp. cbn [existsb orb].
  destruct (existsb (String.eqb c) known) eqn:K; cbn [orb].
  - apply existsb_eqb_In in K. split.
    + split; intros H; [discriminate|].
      destruct (existsb (startswith c) KNOWN_PLP_PATHS
                && negb (contains "/collections/" c && contains "/products/" c));
        [discriminate|]. destruct (is_known_pdp c); discriminate.
    + right. split; [reflexivity|]. exists c. auto.
  - split; [tauto | auto].
Qed.

(** X20.  Under the collections tree a URL with a product segment is a Known
    PDP and any other a Known PLP; under the products tree every URL is a
    Known PDP; a listed URL is a Known PLP in both. *)
Theorem shop_urls_classified (url : pyval) (rest : string) (known : list string) :
  (clean_url url = Some ("https://www.fatshackvintage.com.au/collections/" ++ rest) ->
   classify_url url known
   = if existsb (String.eqb ("https://www.fatshackvintage.com.au/collections/" ++ rest))
               known
        || negb (contains "/products/"
                   ("https://www.fatshackvintage.com.au/collections/" ++ rest))
     then KnownPLP else KnownPDP)
  /\ (clean_url url = Some ("https://www.fatshackvintage.com.au/products/" ++ rest) ->
      classify_url url known
      = if existsb (String.eqb ("https://www.fatshackvintage.com.au/products/" ++ rest))
                  known
        then KnownPLP else KnownPDP).
Proof.
  split; intros H; unfold classify_url; rewrite H.
  - set (c := "https://www.fatshackvintage.com.au/collections/" ++ rest).
    assert (Hn : str_nonempty c = true) by reflexivity.
    assert (Hi : is_irrelevant c = false) by reflexivity.
    assert (Hp : existsb (startswith c) KNOWN_PLP_PATHS = true).
    { apply existsb_startswith.
      exists "https://www.fatshackvintage.com.au/collections". split.
      - cbn. tauto.
      - exists ("/" ++ rest). reflexivity. }
    assert (Hc : contains "/collections/" c = true).
    { apply contains_spec. exists "https://www.fatshackvintage.com.au", rest.
      reflexivity. }
    rewrite Hn, Hi. cbn [negb]. unfold is_known_plp, is_known_pdp. rewrite Hp, Hc.
    cbn [andb].
    destruct (existsb (String.eqb c) known); cbn [orb]; [reflexivity|].
    destruct (contains "/products/" c); cbn [negb orb]; [|reflexivity].
    rewrite orb_true_r. reflexivity.
  - set (c := "https://www.fatshackvintage.com.au/products/" ++ rest).
    assert (Hn : str_nonempty c = true) by reflexivity.
    assert (Hi : is_irrelevant c = false) by reflexivity.
    assert (Hp : existsb (startswith c) KNOWN_PLP_PATHS = false) by reflexivity.
    assert (Hd : existsb (startswith c) KNOWN_PDP_PATHS = true).
    { apply existsb_startswith.
      exists "https://www.fatshackvintage.com.au/products/". split.
      - cbn. tauto.
      - exists rest. reflexivity. }
    rewrite Hn, Hi. cbn [negb]. unfold is_known_plp, is_known_pdp. rewrite Hp, Hd.
    cbn [andb orb]. rewrite orb_false_r.
    destruct (existsb (String.eqb c) known); reflexivity.
Qed.

(** ** Distinct values in order of first appearance *)

Section KeepFirst.

Variable A : Type.
Variable eqb : A -> A -> bool.
Hypothesis eqb_eq : forall a b, eqb a b = true <-> a = b.

Lemma existsb_eqb (v : A) (l : list A) : existsb (eqb v) l = true <-> In v l.
Proof.
  rewrite existsb_exists. split.
  - intros [x [Hin Hx]]. apply eqb_eq in Hx. subst. exact Hin.
  - intros Hin. exists v. split; [exact Hin | apply eqb_eq; reflexivity].
Qed.

Lemma keep_first_fold (l : list A) :
  forall seen,
    NoDup seen ->
    NoDup (fold_left (keep_first eqb) l seen)
    /\ (forall x, In x (fold_left (keep_first eqb) l seen) <-> In x seen \/ In x l).
Proof.
  induction l as [|v l IH]; intros seen Hnd; cbn [fold_left].
  - split; [exact Hnd|]. intros x. cbn. tauto.
  - unfold keep_first at 2 4. destruct (existsb (eqb v) seen) eqn:E.
    + destruct (IH seen Hnd) as [H1 H2]. split; [exact H1|].
      intros x. rewrite H2. cbn [In]. apply existsb_eqb in E.
      split; [tauto|]. intros [H | [<- | H]]; auto.
    + assert (Hn : ~ In v seen).
      { intros Hin. apply existsb_eqb in Hin. congruence. }
      assert (Hnd' : NoDup (seen ++ [v])).
      { apply NoDup_app; auto.
        - constructor; [intros [] | constructor].
        - intros x Hx [<- | []]. contradiction. }
      destruct (IH (seen ++ [v])%list Hnd') as [H1 H2]. split; [exact H1|].
      intros x. rewrite H2, in_app_iff. cbn [In]. tauto.
Qed.

End KeepFirst.

Lemma opt_string_eqb_eq (a b : option string) : opt_string_eqb a b = true <-> a = b.
Proof.
  destruct a as [x|], b as [y|]; cbn [opt_string_eqb];
    try (split; [discriminate | congruence]); try tauto.
  rewrite String.eqb_eq. split; congruence.
Qed.


Lemma series_unique_spec (l : list (option string)) :
  NoDup (series_unique l) /\ (forall v, In v (series_unique l) <-> In v l).
Proof.
  destruct (keep_first_fold (option string) opt_string_eqb opt_string_eqb_eq l []
              (NoDup_nil _)) as [H1 H2].
  split; [exact H1|]. intros k. specialize (H2 k). cbn [In] in H2.
  unfold series_unique, keep_first in *. tauto.
Qed.

(** ** Stripping whitespace *)





(** ** The keyword list *)


(** ** The known-listing list *)

Lemma known_strings_In (l : list (option string)) (c : string) :
  In c (known_strings l) <-> In (Some c) l.
Proof.
  unfold known_strings. rewrite in_flat_map. split.
  - intros [v [Hv Hc]]. destruct v as [s|]; [|destruct Hc].
    destruct Hc as [-> | []]. exact Hv.
  - intros H. exists (Some c). split; [exact H | left; reflexivity].
Qed.

(** X22.  The known listings loaded from the CSV are distinct; their
    strings are exactly the normal forms of the URLs of the column; each is
    left unchanged by normalisation, so it can equal a ranked URL after
    stage 2; a CSV that cannot be read gives none. *)
Theorem known_plps_normalised (f : csv_read) :
  NoDup (load_known_plps f)
  /\ (forall c,
        In c (known_strings (load_known_plps f)) <->
        exists urls u,
          f = CsvUrlColumn urls /\ In u urls /\ clean_url (PStr u) = Some c)
  /\ (forall c,
        In c (known_strings (load_known_plps f)) -> clean_url (PStr c) = Some c).
Proof.
  assert (Hin : forall c,
             In c (known_strings (load_known_plps f)) <->
             exists urls u,
               f = CsvUrlColumn urls /\ In u urls /\ clean_url (PStr u) = Some c).
  { intros c. rewrite known_strings_In.
    destruct f as [| |urls]; cbn [load_known_plps].
    - split; [intros [] | intros [l [x [H _]]]; discriminate].
    - split; [intros [] | intros [l [x [H _]]]; discriminate].
    - destruct (series_unique_spec (map (fun url => clean_url (PStr url)) urls))
        as [_ H].
      rewrite H, in_map_iff. split.
      + intros [u [Hu Hl]]. exists urls, u. auto.
      + intros [l [u [Hf [Hl Hu]]]]. injection Hf as <-. exists u. auto. }
  split.
  { destruct f as [| |urls]; cbn [load_known_plps]; try constructor.
    apply series_unique_spec. }
  split; [exact Hin|].
  intros c Hc. apply Hin in Hc. destruct Hc as [urls [u [_ [_ Hu]]]].
  destruct (clean_url_parts _ _ Hu) as [scheme [netloc [path [-> Hn]]]].
  apply clean_url_normal. exact Hn.
Qed.

(** X23.  A ranked URL with the normal form of a listed URL is a Known PLP. *)
Theorem listed_url_is_known_plp
    (urls : list string) (u : string) (url : pyval) (c : string) :
  In u urls ->
  clean_url (PStr u) = Some c ->
  clean_url url = Some c ->
  ~ IrrelevantRule c ->
  classify_url url (known_strings (load_known_plps (CsvUrlColumn urls))) = KnownPLP.
Proof.
  intros Hu Hc Hurl Hi. unfold classify_url. rewrite Hurl.
  rewrite (clean_url_nonempty _ _ Hurl). cbn [negb].
  destruct (is_irrelevant c) eqn:I; [apply is_irrelevant_spec in I; contradiction|].
  assert (Hk : is_known_plp c (known_strings (load_known_plps (CsvUrlColumn urls)))
               = true).
  { apply is_known_plp_spec. left. apply known_strings_In.
    cbn [load_known_plps]. apply series_unique_spec. apply in_map_iff.
    exists u. auto. }
  rewrite Hk. reflexivity.
Qed.

(** * Further sample runs *)

Lemma closely_related_unknown_url_ends_run_witness :
  let w := world_sale sale_links in
  let cu := classify_serp [] (ranking_urls (sale_row :: sale_rows)) in
  let pre := firstn 1 sale_trace in
  let it := nth 1 sale_trace no_iteration in
  assess_known_plps w "hats" (b_known_plp cu) initial_evidence [] = (initial_evidence, [])
  /\ found_closely_related_plp initial_evidence = false
  /\ unknown_trace w "hats" (b_unknown cu) initial_evidence [] = (pre ++ [it])%list
  /\ closely_related_unknown_verdict (it_result it) = true
  /\ Decision (fst (process_serp w [] "hats" PNone (sale_row :: sale_rows) []))
     = ExistingSufficient
  /\ snd (process_serp w [] "hats" PNone (sale_row :: sale_rows) [])
     = [FirecrawlExtract CombinedPrompt "hats" (site "/vintage-hat");
        FirecrawlExtract CombinedPrompt "hats" (site "/sale")].
Proof.
  intros w cu pre it.
  assert (H3 : assess_known_plps w "hats" (b_known_plp cu) initial_evidence []
               = (initial_evidence, [])) by (vm_compute; reflexivity).
  assert (Ht : unknown_trace w "hats" (b_unknown cu) initial_evidence []
               = (pre ++ it :: [])%list) by (vm_compute; reflexivity).
  assert (Hc : closely_related_unknown_verdict (it_result it) = true) by reflexivity.
  split; [exact H3|]. split; [reflexivity|]. split; [exact Ht|]. split; [exact Hc|].
  destruct (closely_related_unknown_url_ends_run w [] "hats" PNone sale_row sale_rows []
              initial_evidence [] pre [] it H3 eq_refl Ht Hc)
    as [_ [_ [_ [Hd [_ [Hl _]]]]]].
  split; [exact Hd | exact Hl].
Defined.

Lemma synthesis_has_full_audit_trail_witness :
  let w := world_loose_and_related hair_powder_links in
  let e := snd (fst hair_powder_gathered) in
  let r := fst (process_serp w [] "hair powder" PNone
                  (hair_powder_row :: hair_powder_rows) []) in
  gather_evidence w "hair powder"
    (classify_serp [] (ranking_urls (hair_powder_row :: hair_powder_rows))) []
  = (ReachedSynthesis, e, snd hair_powder_gathered)
  /\ map fst (Known_PLP_Assessment r) = [site "/shop-all-products/"]
  /\ map fst (Known_PDP_Assessment r) = [site "/products/hair-styling-powder/"].
Proof.
  intros w e r.
  assert (H : gather_evidence w "hair powder"
                (classify_serp [] (ranking_urls (hair_powder_row :: hair_powder_rows))) []
              = (ReachedSynthesis, e, snd hair_powder_gathered))
    by (vm_compute; reflexivity).
  split; [exact H|].
  destruct (synthesis_has_full_audit_trail w [] "hair powder" PNone hair_powder_row
              hair_powder_rows [] e (snd hair_powder_gathered) H)
    as [H1 [_ [H3 _]]].
  split; [exact H1 | exact H3].
Defined.

Lemma combined_result_is_validated_witness :
  let d := [("determined_type", PStr "PLP"); ("relevance", PStr "Loosely Related");
            ("analysis", PStr "Hats among other things.")] in
  let w := world_constant [site "/vintage"] d in
  fst (classify_and_assess_url w "hats" (site "/vintage") []) = Some d
  /\ dict_has d "analysis" = true
  /\ (exists type, dict_lookup d "determined_type" = Some (PStr type)
                   /\ In type allowed_types).
Proof.
  intros d w.
  assert (H : fst (classify_and_assess_url w "hats" (site "/vintage") []) = Some d)
    by reflexivity.
  split; [exact H|].
  destruct (combined_result_is_validated w "hats" (site "/vintage") [] d H)
    as [H1 [H2 _]].
  split; [exact H1 | exact H2].
Defined.

Lemma unvalidated_listing_verdict_witness :
  let d := [("Relevant", PStr "Related"); ("Analysis", PStr "Sells hats.")] in
  let w := world_constant [site "/collections/hats"] d in
  let result := fst (assess_category_page_relevance w "hats" (site "/collections/hats") []) in
  FIRECRAWL_API_KEY w = true
  /\ firecrawl_extract w [] CategoryPrompt "hats" (site "/collections/hats") = fc_data d
  /\ result = Some d
  /\ best_plp_relevance
       (fst (known_plp_step (site "/collections/hats") result initial_evidence))
     = Some Unrelated.
Proof.
  intros d w result.
  split; [reflexivity|]. split; [reflexivity|].
  destruct (unvalidated_listing_verdict w "hats" (site "/collections/hats") []
              (PStr "Related") (PStr "Sells hats.") initial_evidence
              eq_refl eq_refl eq_refl eq_refl) as [H1 [_ [H3 _]]].
  split; [exact H1 | exact H3].
Defined.

Lemma organic_rows_follow_results_witness :
  let w := world_search_only [site "/collections/hats"; site "/products/cap"] in
  fst (get_organic_results w "hats" TARGET_SITE [])
  = Tuple2 (PStr "https://serpapi.com/searches/1.html")
      [(1, PStr (site "/collections/hats"), PStr "Vintage goods.");
       (2, PStr (site "/products/cap"), PStr "Vintage goods.")]
  /\ positions_increase 0
       [(1, PStr (site "/collections/hats"), PStr "Vintage goods.");
        (2, PStr (site "/products/cap"), PStr "Vintage goods.")].
Proof.
  intros w.
  assert (H : fst (get_organic_results w "hats" TARGET_SITE [])
              = Tuple2 (PStr "https://serpapi.com/searches/1.html")
                  [(1, PStr (site "/collections/hats"), PStr "Vintage goods.");
                   (2, PStr (site "/products/cap"), PStr "Vintage goods.")])
    by (vm_compute; reflexivity).
  split; [exact H|].
  destruct (organic_rows_follow_results w "hats" TARGET_SITE [] _ _ H)
    as [data [res [items [_ [_ [_ [_ [Hinc _]]]]]]]].
  exact Hinc.
Defined.

Lemma search_without_key_raises_witness :
  SERPAPI_API_KEY world_no_keys = false
  /\ analyze_keywords world_no_keys ["hats"; "caps"] [] []
     = (Raised (ValueError "too many values to unpack (expected 2)"), []).
Proof.
  split; [reflexivity|].
  exact (proj2 (search_without_key_raises world_no_keys [] "hats" ["caps"] [] eq_refl)).
Defined.

Lemma no_organic_results_no_assessment_witness :
  let metadata := [("raw_html_file", PStr "https://serpapi.com/searches/2.html")] in
  let d := [("search_metadata", PDict metadata)] in
  SERPAPI_API_KEY world_no_results = true
  /\ requests_get world_no_results [] (serp_query "hats" TARGET_SITE) = HttpJson (PDict d)
  /\ dict_lookup d "organic_results" = None
  /\ dict_lookup d "search_metadata" = Some (PDict metadata)
  /\ analyze_keyword world_no_results [] "hats" []
     = (Returned (mkResult "hats" false None [] [] [] NoSearchResults
                    "No organic results found for this keyword on the target site."
                    (PStr "https://serpapi.com/searches/2.html")),
        [SerpApiRequest "hats site:fatshackvintage.com.au"]).
Proof.
  intros metadata d.
  split; [reflexivity|]. split; [reflexivity|]. split; [reflexivity|].
  split; [reflexivity|].
  exact (no_organic_results_no_assessment world_no_results [] "hats" [] d metadata
           eq_refl eq_refl eq_refl eq_refl).
Defined.

Lemma clean_url_idempotent_witness :
  clean_url (PStr messy_url) = Some (site "/collections/hats")
  /\ clean_url (PStr (site "/collections/hats")) = Some (site "/collections/hats").
Proof.
  assert (H : clean_url (PStr messy_url) = Some (site "/collections/hats"))
    by (vm_compute; reflexivity).
  split; [exact H|].
  exact (clean_url_idempotent (PStr messy_url) (site "/collections/hats") H).
Defined.

Lemma clean_url_strips_query_and_fragment_witness :
  clean_url (PStr messy_url) = Some (site "/collections/hats")
  /\ ~ In "?"%char (chars (site "/collections/hats"))
  /\ ~ In "#"%char (chars (site "/collections/hats")).
Proof.
  assert (H : clean_url (PStr messy_url) = Some (site "/collections/hats"))
    by (vm_compute; reflexivity).
  split; [exact H|].
  exact (clean_url_strips_query_and_fragment (PStr messy_url)
           (site "/collections/hats") H).
Defined.

Lemma classify_url_of_normal_form_witness :
  clean_url (PStr messy_url) = Some (site "/collections/hats")
  /\ classify_url (PStr messy_url) [] = classify_url (PStr (site "/collections/hats")) [].
Proof.
  assert (H : clean_url (PStr messy_url) = Some (site "/collections/hats"))
    by (vm_compute; reflexivity).
  split; [exact H|].
  exact (classify_url_of_normal_form (PStr messy_url) (site "/collections/hats") [] H).
Defined.

Lemma shop_urls_classified_witness :
  clean_url (PStr "https://www.fatshackvintage.com.au/collections/hats/products/fedora?x=1")
  = Some ("https://www.fatshackvintage.com.au/collections/" ++ "hats/products/fedora")
  /\ classify_url
       (PStr "https://www.fatshackvintage.com.au/collections/hats/products/fedora?x=1") []
     = KnownPDP.
Proof.
  assert (H : clean_url
                (PStr "https://www.fatshackvintage.com.au/collections/hats/products/fedora?x=1")
              = Some ("https://www.fatshackvintage.com.au/collections/"
                        ++ "hats/products/fedora")) by (vm_compute; reflexivity).
  split; [exact H|].
  exact (proj1 (shop_urls_classified _ "hats/products/fedora" []) H).
Defined.

Lemma listed_url_is_known_plp_witness :
  let urls := [site "/vintage-hats?ref=nav"] in
  In (site "/vintage-hats?ref=nav") urls
  /\ clean_url (PStr (site "/vintage-hats?ref=nav")) = Some (site "/vintage-hats")
  /\ clean_url (PStr (site "/vintage-hats#reviews")) = Some (site "/vintage-hats")
  /\ ~ IrrelevantRule (site "/vintage-hats")
  /\ classify_url (PStr (site "/vintage-hats#reviews"))
       (known_strings (load_known_plps (CsvUrlColumn urls)))
     = KnownPLP.
Proof.
  intros urls.
  assert (H1 : In (site "/vintage-hats?ref=nav") urls) by (left; reflexivity).
  assert (H2 : clean_url (PStr (site "/vintage-hats?ref=nav"))
               = Some (site "/vintage-hats")) by (vm_compute; reflexivity).
  assert (H3 : clean_url (PStr (site "/vintage-hats#reviews"))
               = Some (site "/vintage-hats")) by (vm_compute; reflexivity).
  assert (H4 : ~ IrrelevantRule (site "/vintage-hats")).
  { intros H. apply is_irrelevant_spec in H. vm_compute in H. discriminate H. }
  split; [exact H1|]. split; [exact H2|]. split; [exact H3|]. split; [exact H4|].
  exact (listed_url_is_known_plp urls (site "/vintage-hats?ref=nav")
           (PStr (site "/vintage-hats#reviews")) (site "/vintage-hats") H1 H2 H3 H4).
Defined.
